(* ===================================================================== *)
(* The multi-dimension hot-region scheduler of pd                        *)
(*   server/schedulers/multi_dim_scheduler.go                            *)
(*                                                                       *)
(* A shallow embedding of the scheduler's decision engine, and the       *)
(* properties of its pending ledger, split parameters, relaxation latch, *)
(* destination chooser, load normalisation and split cadence.            *)
(*                                                                       *)
(* Conventions                                                           *)
(*  - uint64 and int values are Z; where the code computes on them the   *)
(*    wrap-around is written out (wrap64, wrapInt).                      *)
(*  - float64 values are exact rationals (Q): rounding, infinities and   *)
(*    NaN are outside the model. Comparisons are the code's comparisons. *)
(*    A quotient by zero is 0 in Q; the one test that the code makes on  *)
(*    such a quotient (splitRatio >= 1) is modelled on the float result. *)
(*  - Go maps are stdpp gmaps; a Go set map[K]struct{} is a gset; the    *)
(*    set of *pendingLoadInfluence pointers is a list, every entry being *)
(*    a fresh allocation.                                                *)
(*  - time.Time and time.Duration are Z (nanoseconds).                   *)
(*  - Logging and metric counters are not state of the scheduler and are *)
(*    left out.                                                          *)
(*  - Packages the file imports (operator, core, filter, statistics, the *)
(*    cluster) and the helpers of the package that live in other files   *)
(*    are methods of the class [Cluster]: every theorem holds for every  *)
(*    implementation of them.                                            *)
(* ===================================================================== *)

From Stdlib Require Import ZArith QArith Lqa Lia List String.
From stdpp Require Import base option list gmap.

Local Open Scope Z_scope.

(* --------------------------------------------------------------------- *)
(* Machine integers                                                      *)
(* --------------------------------------------------------------------- *)

(* uint64 arithmetic wraps modulo 2^64 *)
Definition wrap64 (z : Z) : Z := z mod 2 ^ 64.

(* int arithmetic (64-bit) wraps into [-2^63, 2^63) *)
Definition wrapInt (z : Z) : Z := (z + 2 ^ 63) mod 2 ^ 64 - 2 ^ 63.

(* --------------------------------------------------------------------- *)
(* Load vectors                                                          *)
(* --------------------------------------------------------------------- *)

(* []float64 / [6]float64, indexed by a dimension id. Every vector of the
   scheduler has the six entries wb, wk, wo, rb, rk, ro; an index outside
   the vector panics in Go and reads 0 here. *)
Definition Loads := list Q.

Definition ld (l : Loads) (i : Z) : Q := nth (Z.to_nat i) l 0%Q.

Definition zeroLoads : Loads := repeat 0%Q 6.

(* math.MaxFloat64 = (2 - 2^-52) * 2^1023 *)
Definition MaxFloat64 : Q := inject_Z (2 ^ 1024 - 2 ^ 971).

Definition balanceRatioConst : Q := 1 # 10.
Definition loadStableThresholdConst : Q := 2 # 10.
Definition allowedDeviation : Q := 5 # 100.

(* Comparisons of float64 values, as booleans *)
Definition Qltb (x y : Q) : bool := negb (Qle_bool y x).
Definition Qleb (x y : Q) : bool := Qle_bool x y.

(* --------------------------------------------------------------------- *)
(* Data of the collaborating packages, as far as the scheduler reads it   *)
(* --------------------------------------------------------------------- *)

Inductive opType := movePeer | transferLeader.

Inductive OpKind := OpHotRegion | OpAdmin.

Inductive PriorityLevel := NormalPriority | HighPriority.

(* A prometheus counter, named by its vector and its label values *)
Inductive Counter :=
| hotDirectionCounter (op rw : string) (storeID : Z) (dir : string)
| schedulerCounter (name event : string).

(* operator.Operator: the region it works on, the priority the scheduler
   sets and the counters it appends. [op_desc] and [op_opts] are what the
   builders are given. Whether an operator has ended and when it started
   change while the controller runs it: they are read through the cluster
   view of the cycle ([IsEnd], [GetStartTime] below). *)
Record Operator := {
  op_desc : string;
  op_regionID : Z;
  op_kind : OpKind;
  op_priority : PriorityLevel;
  op_counters : list Counter;
  op_opts : list Q;
}.

Definition RegionID (op : Operator) : Z := op_regionID op.

Definition SetPriorityLevel (op : Operator) (l : PriorityLevel) : Operator :=
  {| op_desc := op_desc op; op_regionID := op_regionID op;
     op_kind := op_kind op; op_priority := l;
     op_counters := op_counters op; op_opts := op_opts op |}.

Definition appendCounters (op : Operator) (cs : list Counter) : Operator :=
  {| op_desc := op_desc op; op_regionID := op_regionID op;
     op_kind := op_kind op; op_priority := op_priority op;
     op_counters := op_counters op ++ cs; op_opts := op_opts op |}.

(* metapb.Peer *)
Record Peer := { StoreId : Z; Role : Z }.

#[global] Instance Peer_eq_dec : EqDecision Peer.
Proof. solve_decision. Defined.

(* statistics.HotPeerStat *)
Record HotPeerStat := {
  hp_RegionID : Z;
  hp_Loads : Loads;
  hp_IsLeader : bool;
}.

(* --------------------------------------------------------------------- *)
(* Data of the scheduler                                                 *)
(* --------------------------------------------------------------------- *)

Record loadInfluence := { infl_loads : Loads }.

Definition emptyInfluence : loadInfluence := {| infl_loads := zeroLoads |}.

(* newPendingLoadInfluence(op, from, to, infl) *)
Record pendingLoadInfluence := {
  pl_op : Operator;
  pl_from : Z;
  pl_to : Z;
  pl_origin : loadInfluence;
}.

Definition newPendingLoadInfluence (op : Operator) (from to : Z)
    (infl : loadInfluence) : pendingLoadInfluence :=
  {| pl_op := op; pl_from := from; pl_to := to; pl_origin := infl |}.

Record peerInfo := {
  regionID : Z;
  pi_storeID : Z;
  isLeader : bool;
  pi_loads : Loads;
  peerStat : option HotPeerStat;
}.

Record storeInfo := {
  id : Z;
  loads : Loads;
  hotPeers : gmap Z peerInfo;
}.

(* The fields of multiDimensionScheduler that a cycle reads or writes.
   A value of regionPendings is a *operator.Operator: None is nil. *)
Record multiDimensionScheduler := {
  pendings : list pendingLoadInfluence;
  regionPendings : gmap Z (option Operator);
  pendingSums : gmap Z loadInfluence;
  minExpLoads : Loads;
  balanceRatio : Q;
  relaxBalanceCondition : bool;
  splitTrigeCount : Z;
  hasSplit : bool;
  needInit : bool;
}.

Definition set_ledger (h : multiDimensionScheduler)
    (ps : list pendingLoadInfluence) (rp : gmap Z (option Operator)) :=
  {| pendings := ps; regionPendings := rp; pendingSums := pendingSums h;
     minExpLoads := minExpLoads h; balanceRatio := balanceRatio h;
     relaxBalanceCondition := relaxBalanceCondition h;
     splitTrigeCount := splitTrigeCount h; hasSplit := hasSplit h;
     needInit := needInit h |}.

Definition set_pendingSums (h : multiDimensionScheduler)
    (s : gmap Z loadInfluence) :=
  {| pendings := pendings h; regionPendings := regionPendings h;
     pendingSums := s;
     minExpLoads := minExpLoads h; balanceRatio := balanceRatio h;
     relaxBalanceCondition := relaxBalanceCondition h;
     splitTrigeCount := splitTrigeCount h; hasSplit := hasSplit h;
     needInit := needInit h |}.

Definition set_balance (h : multiDimensionScheduler) (r : Q) (relax : bool) :=
  {| pendings := pendings h; regionPendings := regionPendings h;
     pendingSums := pendingSums h;
     minExpLoads := minExpLoads h; balanceRatio := r;
     relaxBalanceCondition := relax;
     splitTrigeCount := splitTrigeCount h; hasSplit := hasSplit h;
     needInit := needInit h |}.

Definition set_splitTrigeCount (h : multiDimensionScheduler) (n : Z) :=
  {| pendings := pendings h; regionPendings := regionPendings h;
     pendingSums := pendingSums h;
     minExpLoads := minExpLoads h; balanceRatio := balanceRatio h;
     relaxBalanceCondition := relaxBalanceCondition h;
     splitTrigeCount := n; hasSplit := hasSplit h;
     needInit := needInit h |}.

Definition set_hasSplit (h : multiDimensionScheduler) (b : bool) :=
  {| pendings := pendings h; regionPendings := regionPendings h;
     pendingSums := pendingSums h;
     minExpLoads := minExpLoads h; balanceRatio := balanceRatio h;
     relaxBalanceCondition := relaxBalanceCondition h;
     splitTrigeCount := splitTrigeCount h; hasSplit := b;
     needInit := needInit h |}.

Definition set_needInit (h : multiDimensionScheduler) (b : bool) :=
  {| pendings := pendings h; regionPendings := regionPendings h;
     pendingSums := pendingSums h;
     minExpLoads := minExpLoads h; balanceRatio := balanceRatio h;
     relaxBalanceCondition := relaxBalanceCondition h;
     splitTrigeCount := splitTrigeCount h; hasSplit := hasSplit h;
     needInit := b |}.

(* decision; a nil pointer is None *)
Record decision {RegionInfo : Type} := {
  srcStoreID : Z;
  dstStoreID : Z;
  opTy : opType;
  srcPeerStat : option HotPeerStat;
  region : option RegionInfo;
  peer : option peerInfo;
}.
Arguments decision : clear implicits.

(* &decision{}: the zero value (opTy 0 is movePeer) *)
Definition emptyDecision {RegionInfo : Type} : decision RegionInfo :=
  {| srcStoreID := 0; dstStoreID := 0; opTy := movePeer;
     srcPeerStat := None; region := None; peer := None |}.

(* --------------------------------------------------------------------- *)
(* The pending ledger                                                    *)
(* --------------------------------------------------------------------- *)

(* addPendingInfluence: the new scheduler and the boolean it returns *)
Definition addPendingInfluence {RegionInfo : Type}
    (h : multiDimensionScheduler) (op : Operator)
    (deci : decision RegionInfo) (infl : loadInfluence)
    : multiDimensionScheduler * bool :=
  let regionID := RegionID op in
  match regionPendings h !! regionID with
  | Some _ => (h, false)
  | None =>
      let influence :=
        newPendingLoadInfluence op (srcStoreID deci) (dstStoreID deci) infl in
      (set_ledger h (influence :: pendings h)
                  (<[regionID := Some op]> (regionPendings h)), true)
  end.

(* The test of gcRegionPendings on one entry: the operator is not nil, has
   ended, and now is after its start time plus the zombie duration. *)
Definition gcExpired (isEnd : Operator -> bool) (startTime : Operator -> Z)
    (now maxZombie : Z) (op : option Operator) : bool :=
  match op with
  | Some o => isEnd o && (startTime o + maxZombie <? now)
  | None => false
  end.

(* gcRegionPendings: deleting the current key while ranging over a Go map
   is a filter of the map. *)
Definition gcRegionPendings (isEnd : Operator -> bool)
    (startTime : Operator -> Z) (now maxZombie : Z)
    (h : multiDimensionScheduler) : multiDimensionScheduler :=
  set_ledger h (pendings h)
    (filter (fun kv => gcExpired isEnd startTime now maxZombie kv.2 = false)
            (regionPendings h)).

(* --------------------------------------------------------------------- *)
(* Split parameters                                                      *)
(* --------------------------------------------------------------------- *)

(* convertToSplitInfo: (splitDim, splitType); both named results start at
   zero, and the switch on dimID % 3 covers 0, 1 and 2. *)
Definition convertToSplitInfo (dimID : Z) : Z * Z :=
  let splitType := wrap64 (1 - wrap64 (dimID / 3)) in
  let splitDim :=
    match dimID mod 3 with
    | 0 => 0
    | 1 | 2 => 1
    | _ => 0
    end in
  (splitDim, splitType).

(* --------------------------------------------------------------------- *)
(* The collaborators                                                     *)
(* --------------------------------------------------------------------- *)

(* What a cycle reads from outside the scheduler's file: the clock, the operators'
   status, the configuration, the cluster (opt.Cluster), the packages core,
   filter, operator, sort and statistics, and the helpers of package
   schedulers that are defined in other files. RegionInfo, CoreStore and
   Filter stand for core.RegionInfo, core.StoreInfo and filter.Filter. *)
Class Cluster (RegionInfo CoreStore Filter : Type) := {
  (* time.Now() and the status of an operator at this moment;
     GetFinishTime is the time the operator reached its end status, which
     the scheduler never reads *)
  Now : Z;
  IsEnd : Operator -> bool;
  GetStartTime : Operator -> Z;
  GetFinishTime : Operator -> Z;
  (* h.conf *)
  GetMaxZombieDuration : Z;
  (* cluster.GetOpts() *)
  GetHotSchedulerMode : Z;
  GetHotBalanceRatio : Q;
  GetHotRegionCacheHitsThreshold : Z;
  (* cluster.GetStoresStats().GetStoresLoadsStat(), RegionWriteStats() and
     filterHotPeers(kind, minHotDegree, hotRegionThreshold, peers, ty), of
     which kind, the threshold and ty are fixed by the cluster and the
     constants of the package *)
  GetStoresLoadsStat : list (gmap Z Q);
  RegionWriteStats : gmap Z (list HotPeerStat);
  filterHotPeers : Z -> list HotPeerStat -> list HotPeerStat;
  (* summaryPendingLoadInfluence(h.pendings, h.hotSched.calcPendingWeight):
     the sums per store, and the set it may have pruned *)
  summaryPendingLoadInfluence :
    list pendingLoadInfluence ->
    gmap Z loadInfluence * list pendingLoadInfluence;
  (* cluster *)
  GetStore : Z -> option CoreStore;
  GetStores : list CoreStore;
  GetFollowerStores : RegionInfo -> list CoreStore;
  GetRegion : Z -> option RegionInfo;
  IsHealthyAllowPending : RegionInfo -> bool;
  IsRegionReplicated : RegionInfo -> bool;
  (* core *)
  GetID : CoreStore -> Z;
  GetStoreIds : RegionInfo -> gset Z;
  GetStorePeer : RegionInfo -> Z -> option Peer;
  GetStoreVoter : RegionInfo -> Z -> option Peer;
  GetLeader : RegionInfo -> option Peer;
  (* filter *)
  StoreStateFilter : bool -> bool -> Filter;
  NewExcludedFilter : gset Z -> gset Z -> Filter;
  NewSpecialUseFilter : Filter;
  NewPlacementSafeguard : RegionInfo -> CoreStore -> Filter;
  NewPlacementLeaderSafeguard : RegionInfo -> CoreStore -> option Filter;
  filter_Target : CoreStore -> list Filter -> bool;
  (* operator: None is a non-nil error *)
  CreateMoveLeaderOperator :
    string -> RegionInfo -> OpKind -> Z -> Peer -> option Operator;
  CreateMovePeerOperator :
    string -> RegionInfo -> OpKind -> Z -> Peer -> option Operator;
  CreateTransferLeaderOperator :
    string -> RegionInfo -> Z -> Z -> OpKind -> option Operator;
  CreateSplitRegionOperator :
    string -> option RegionInfo -> OpKind -> list Q -> Operator;
  (* sort.Slice on the stores, with the less function on two stores *)
  sortSlice : (storeInfo -> storeInfo -> bool) -> list storeInfo -> list storeInfo;
  (* helpers of the package *)
  loadCanTransfered : Z -> bool;
  getMaxLoadInfo : storeInfo -> list Z -> Z * Q;
  (* buildSortedPeers(store, dimID) and its successive pop(): each popped
     peer with the value of remainLoads after that pop *)
  buildSortedPeers : storeInfo -> Z -> list (peerInfo * Q);
  (* migratePeer(store, dstStore, peer, opTy) writes through the two store
     pointers, which are elements of storeInfos: the stores are named by
     their ids, which are distinct in storeInfos *)
  migratePeer : list storeInfo -> Z -> Z -> peerInfo -> opType -> list storeInfo;
  calcBalanceRatio : list storeInfo -> list Z -> Q;
}.

(* --------------------------------------------------------------------- *)
(* The balancer                                                          *)
(* --------------------------------------------------------------------- *)

Record multiBalancer {RegionInfo : Type} := {
  cur : decision RegionInfo;
  storeInfos : list storeInfo;
  allowedDimensions : list Z;
  allowedMap : gset Z;
  splitCandidates : gmap Z (list peerInfo);
  scheduledRegions : gset Z;
  skipSchedule : bool;
}.
Arguments multiBalancer : clear implicits.

(* The result of a loop body or of a loop: the function returned from
   inside it, or the loop went on to its end *)
Inductive flow (S R : Type) :=
| Return (s : S) (r : R)
| Next (s : S).
Arguments Return {S R} s r.
Arguments Next {S R} s.

Section Balancer.
Context {RegionInfo CoreStore Filter : Type}.
Context {cluster : Cluster RegionInfo CoreStore Filter}.

Abbreviation decision := (decision RegionInfo).
Abbreviation multiBalancer := (multiBalancer RegionInfo).

Definition set_cur (b : multiBalancer) (d : decision) : multiBalancer :=
  {| cur := d; storeInfos := storeInfos b;
     allowedDimensions := allowedDimensions b; allowedMap := allowedMap b;
     splitCandidates := splitCandidates b;
     scheduledRegions := scheduledRegions b; skipSchedule := skipSchedule b |}.

Definition set_storeInfos (b : multiBalancer) (l : list storeInfo) : multiBalancer :=
  {| cur := cur b; storeInfos := l;
     allowedDimensions := allowedDimensions b; allowedMap := allowedMap b;
     splitCandidates := splitCandidates b;
     scheduledRegions := scheduledRegions b; skipSchedule := skipSchedule b |}.

Definition set_splitCandidates (b : multiBalancer)
    (m : gmap Z (list peerInfo)) : multiBalancer :=
  {| cur := cur b; storeInfos := storeInfos b;
     allowedDimensions := allowedDimensions b; allowedMap := allowedMap b;
     splitCandidates := m;
     scheduledRegions := scheduledRegions b; skipSchedule := skipSchedule b |}.

Definition set_scheduledRegions (b : multiBalancer) (s : gset Z) : multiBalancer :=
  {| cur := cur b; storeInfos := storeInfos b;
     allowedDimensions := allowedDimensions b; allowedMap := allowedMap b;
     splitCandidates := splitCandidates b;
     scheduledRegions := s; skipSchedule := skipSchedule b |}.

Definition set_skipSchedule (b : multiBalancer) (s : bool) : multiBalancer :=
  {| cur := cur b; storeInfos := storeInfos b;
     allowedDimensions := allowedDimensions b; allowedMap := allowedMap b;
     splitCandidates := splitCandidates b;
     scheduledRegions := scheduledRegions b; skipSchedule := s |}.

(* balancer.splitCandidates[id] = append(balancer.splitCandidates[id], p) *)
Definition addSplitCandidate (b : multiBalancer) (storeID : Z) (p : peerInfo)
    : multiBalancer :=
  set_splitCandidates b
    (<[storeID := default [] (splitCandidates b !! storeID) ++ [p]]>
       (splitCandidates b)).

(* balancer.cur.peer.loads[i]; cur.peer is set before every use *)
Definition curPeerLoad (d : decision) (i : Z) : Q :=
  match peer d with
  | Some p => ld (pi_loads p) i
  | None => 0%Q
  end.

(* --------------------------------------------------------------------- *)
(* Snapshot construction                                                 *)
(* --------------------------------------------------------------------- *)

(* m[id] on a map of float64: the zero value when id is absent *)
Definition mapQ (m : gmap Z Q) (k : Z) : Q := default 0%Q (m !! k).

(* storeLoads[i][id] *)
Definition storeLoad (storeLoads : list (gmap Z Q)) (i : Z) (k : Z) : Q :=
  mapQ (nth (Z.to_nat i) storeLoads ∅) k.

(* storePendings[id].loads[i]: the zero influence when id is absent *)
Definition pendingLoad (sums : gmap Z loadInfluence) (k : Z) (i : Z) : Q :=
  match sums !! k with
  | Some infl => ld (infl_loads infl) i
  | None => 0%Q
  end.

(* The indices of a slice of length n: for i := range s *)
Definition indices (n : nat) : list Z := map Z.of_nat (seq 0 n).

(* The store ids, in the order the model ranges over storeLoads[0]; Go
   ranges over a map in an unspecified order. *)
Definition storeIDs (storeLoads : list (gmap Z Q)) : list Z :=
  map fst (map_to_list (nth 0%nat storeLoads ∅)).

(* expLoads after the first loop and the division by storeLen: the mean of
   the loads as reported, before the pending influence is added to them *)
Definition expLoadsOf (storeLoads : list (gmap Z Q)) : Loads :=
  let ids := storeIDs storeLoads in
  let storeLen := length ids in
  map (fun i =>
         (fold_left (fun acc k => acc + storeLoad storeLoads i k) ids 0
          / inject_Z (Z.of_nat storeLen))%Q)
      (indices (length storeLoads)).

(* storeLoads[i][id] after the first loop: the pending influence added *)
Definition adjustedLoad (storeLoads : list (gmap Z Q))
    (sums : gmap Z loadInfluence) (i : Z) (k : Z) : Q :=
  (storeLoad storeLoads i k + pendingLoad sums k i)%Q.

(* needSkipSchedule: the allowed dimensions, in increasing order; the
   schedule is skipped when there is none *)
Definition allowedOf (minExp expLoads : Loads) : list Z :=
  filter (fun i => i <> 2 /\ i <> 5 /\
                   Qleb (ld minExp i) (ld expLoads i) = true)
         (indices (length expLoads)).

Definition needSkipSchedule (h : multiDimensionScheduler) (expLoads : Loads)
    (b : multiBalancer) : multiBalancer * bool :=
  let allowed := allowedDimensions b ++ allowedOf (minExpLoads h) expLoads in
  let skip := match allowedOf (minExpLoads h) expLoads with
              | [] => true
              | _ => false
              end in
  ({| cur := cur b; storeInfos := storeInfos b;
      allowedDimensions := allowed;
      allowedMap := list_to_set allowed;
      splitCandidates := splitCandidates b;
      scheduledRegions := scheduledRegions b;
      skipSchedule := skip |}, skip).

(* newPeerInfo and the inner loop over the dimensions: the normalised loads
   of a peer, the read loads of a follower being zero *)
Definition peerLoadsOf (expLoads : Loads) (originPeer : HotPeerStat) : Loads :=
  map (fun i =>
         if negb (hp_IsLeader originPeer) && (3 <=? i) then 0%Q
         else (ld (hp_Loads originPeer) i / ld expLoads i)%Q)
      (indices (length expLoads)).

Definition mkPeerInfo (expLoads : Loads) (storeID : Z)
    (originPeer : HotPeerStat) : peerInfo :=
  {| regionID := hp_RegionID originPeer; pi_storeID := storeID;
     isLeader := hp_IsLeader originPeer;
     pi_loads := peerLoadsOf expLoads originPeer;
     peerStat := Some originPeer |}.

(* hotPeers[originPeer.RegionID] = peer, in the order of the slice *)
Definition hotPeersOf (expLoads : Loads) (storeID : Z)
    (originHotPeers : list HotPeerStat) : gmap Z peerInfo :=
  fold_left (fun m p => <[hp_RegionID p := mkPeerInfo expLoads storeID p]> m)
            originHotPeers ∅.

(* hotPeersTotalLoads[i] *)
Definition hotPeersTotalLoad (expLoads : Loads)
    (originHotPeers : list HotPeerStat) (i : Z) : Q :=
  fold_left (fun acc p =>
               (acc + ld (peerLoadsOf expLoads p) i * ld expLoads i
                      / inject_Z 1024)%Q)
            originHotPeers 0%Q.

(* si.loads *)
Definition storeLoadsOf (storeLoads : list (gmap Z Q))
    (sums : gmap Z loadInfluence) (expLoads : Loads) (storeID : Z) : Loads :=
  map (fun i => (adjustedLoad storeLoads sums i storeID / ld expLoads i)%Q)
      (indices (length expLoads)).

Definition mkStoreInfo (storeLoads : list (gmap Z Q))
    (sums : gmap Z loadInfluence) (expLoads : Loads) (storeID : Z)
    (originHotPeers : list HotPeerStat) : storeInfo :=
  {| id := storeID;
     loads := storeLoadsOf storeLoads sums expLoads storeID;
     hotPeers := hotPeersOf expLoads storeID originHotPeers |}.

Definition Qabs' (x : Q) : Q := if Qltb x 0 then (- x)%Q else x.
Definition Qmax' (x y : Q) : Q := if Qltb x y then y else x.

(* The ratio of one store on one dimension in the stability check *)
Definition loadDiffRatio (storeLoads : list (gmap Z Q))
    (sums : gmap Z loadInfluence) (expLoads : Loads) (storeID : Z)
    (originHotPeers : list HotPeerStat) (i : Z) : Q :=
  let storeTotal := (adjustedLoad storeLoads sums i storeID / inject_Z 1024)%Q in
  let hotTotal := hotPeersTotalLoad expLoads originHotPeers i in
  Qabs' ((storeTotal - hotTotal) / storeTotal)%Q.

(* The hot peers of a store after filterHotPeers, each one cloned *)
Definition filteredHotPeers (storeID : Z) : list HotPeerStat :=
  filterHotPeers GetHotRegionCacheHitsThreshold
                 (default [] (RegionWriteStats !! storeID)).

(* initHotPeerInfo on a fresh balancer; it may set needInit of the
   scheduler *)
Definition initHotPeerInfo (h : multiDimensionScheduler) (b : multiBalancer)
    : multiBalancer * multiDimensionScheduler :=
  let storeLoads := GetStoresLoadsStat in
  let sums := pendingSums h in
  let ids := storeIDs storeLoads in
  let expLoads := expLoadsOf storeLoads in
  let '(b1, skip) := needSkipSchedule h expLoads b in
  if skip then (b1, h)
  else
    let infos :=
      map (fun k => mkStoreInfo storeLoads sums expLoads k (filteredHotPeers k))
          ids in
    let maxLoadDiffRatio :=
      fold_left
        (fun acc k =>
           fold_left
             (fun acc' i =>
                if decide (i ∈ allowedMap b1)
                then Qmax' acc' (loadDiffRatio storeLoads sums expLoads k
                                               (filteredHotPeers k) i)
                else acc')
             (indices (length expLoads)) acc)
        ids 0%Q in
    let b2 := set_storeInfos b1 infos in
    if Qltb loadStableThresholdConst maxLoadDiffRatio
    then (set_skipSchedule b2 true, set_needInit h true)
    else (b2, h).

(* newMultiBalancer *)
Definition newMultiBalancer (h : multiDimensionScheduler)
    : multiBalancer * multiDimensionScheduler :=
  initHotPeerInfo h
    {| cur := emptyDecision; storeInfos := [];
       allowedDimensions := []; allowedMap := ∅;
       splitCandidates := ∅; scheduledRegions := ∅;
       skipSchedule := false |}.

(* --------------------------------------------------------------------- *)
(* Destination chooser                                                   *)
(* --------------------------------------------------------------------- *)

Definition set_cur_src (d : decision) (src : Z) : decision :=
  {| srcStoreID := src; dstStoreID := dstStoreID d; opTy := opTy d;
     srcPeerStat := srcPeerStat d; region := region d; peer := peer d |}.

Definition set_dst (d : decision) (ty : opType) (dst : Z) : decision :=
  {| srcStoreID := srcStoreID d; dstStoreID := dst; opTy := ty;
     srcPeerStat := srcPeerStat d; region := region d; peer := peer d |}.

(* getCandidateStoreIDs; cur.region is set before every call *)
Definition getCandidateStoreIDs (b : multiBalancer) (ty : opType) : gset Z :=
  match GetStore (srcStoreID (cur b)), region (cur b) with
  | Some srcStore, Some rg =>
      let '(filters, candidates) :=
        match ty with
        | movePeer =>
            ([StoreStateFilter true false;
              NewExcludedFilter (GetStoreIds rg) (GetStoreIds rg);
              NewSpecialUseFilter;
              NewPlacementSafeguard rg srcStore],
             GetStores)
        | transferLeader =>
            ([StoreStateFilter false true; NewSpecialUseFilter]
               ++ match NewPlacementLeaderSafeguard rg srcStore with
                  | Some leaderFilter => [leaderFilter]
                  | None => []
                  end,
             GetFollowerStores rg)
        end in
      fold_left (fun selected store =>
                   if filter_Target store filters
                   then {[GetID store]} ∪ selected else selected)
                candidates ∅
  | _, _ => ∅
  end.

(* loadOfMigrated *)
Definition loadOfMigrated (b : multiBalancer) (store : storeInfo)
    (ty : opType) : Q :=
  fold_left
    (fun maxLoad i =>
       if match ty with transferLeader => negb (loadCanTransfered i)
                      | movePeer => false end
       then maxLoad
       else
         let load := (ld (loads store) i + curPeerLoad (cur b) i)%Q in
         if Qltb maxLoad load then load else maxLoad)
    (allowedDimensions b) 0%Q.

(* One turn of the loop of filterDstStores *)
Definition filterDstStep (b : multiBalancer) (h : multiDimensionScheduler)
    (selectedStores : gset Z) (ty : opType) (isLargeRegion : bool)
    (acc : option storeInfo * Q) (store : storeInfo) : option storeInfo * Q :=
  if decide (id store ∈ selectedStores) then
    let newLoad := loadOfMigrated b store ty in
    if Qleb newLoad (1 + balanceRatio h) || negb isLargeRegion then
      if Qltb newLoad (snd acc) then (Some store, newLoad) else acc
    else acc
  else acc.

(* filterDstStores: (dstStore, minLoad) *)
Definition filterDstStores (b : multiBalancer) (h : multiDimensionScheduler)
    (ty : opType) (isLargeRegion : bool) : option storeInfo * Q :=
  fold_left
    (filterDstStep b h (getCandidateStoreIDs b ty) ty isLargeRegion)
    (storeInfos b) (None, MaxFloat64).

(* The flag that the first loop of pickBestDstStore computes *)
Definition isLargeRegion (b : multiBalancer) (h : multiDimensionScheduler)
    : bool :=
  existsb (fun i => Qltb (balanceRatio h) (curPeerLoad (cur b) i))
          (allowedDimensions b).

Definition curPeerIsLeader (d : decision) : bool :=
  match peer d with
  | Some p => isLeader p
  | None => false
  end.

(* pickBestDstStore: the destination, and the decision it has written *)
Definition pickBestDstStore (b : multiBalancer) (h : multiDimensionScheduler)
    (targetDim : Z) : option storeInfo * decision :=
  let large := isLargeRegion b h in
  let '(dstStore, minLoad, cur1) :=
    if curPeerIsLeader (cur b) && loadCanTransfered targetDim then
      let '(dst, m) := filterDstStores b h transferLeader large in
      match dst with
      | Some s => (dst, m, set_dst (cur b) transferLeader (id s))
      | None => (dst, m, cur b)
      end
    else (None, MaxFloat64, cur b) in
  let '(dstStorePeer, minLoadPeer) := filterDstStores b h movePeer large in
  if Qltb minLoadPeer minLoad then
    match dstStorePeer with
    | Some s => (dstStorePeer, set_dst cur1 movePeer (id s))
    | None => (None, cur1)
    end
  else (dstStore, cur1).

(* --------------------------------------------------------------------- *)
(* Operator construction                                                 *)
(* --------------------------------------------------------------------- *)

Definition getRegion (regionID : Z) : option RegionInfo :=
  match GetRegion regionID with
  | None => None
  | Some rg =>
      if negb (IsHealthyAllowPending rg) then None
      else if negb (IsRegionReplicated rg) then None
      else Some rg
  end.

Definition opType_String (ty : opType) : string :=
  match ty with
  | movePeer => "move-peer"
  | transferLeader => "transfer-leader"
  end.

Definition MultipleDimensionName : string := "balance-multiple-dimension-scheduler".

(* The tail of buildOperators, after the switch *)
Definition finishOperator (d : decision) (r : option Operator)
    (counters : list Counter) : list (Operator * loadInfluence) :=
  match r with
  | None => []
  | Some op =>
      let op1 := SetPriorityLevel op HighPriority in
      let op2 := appendCounters op1 counters in
      let op3 := appendCounters op2
                   [schedulerCounter MultipleDimensionName "new-operator";
                    schedulerCounter MultipleDimensionName (opType_String (opTy d))] in
      let loads := match srcPeerStat d with
                   | Some st => hp_Loads st
                   | None => zeroLoads
                   end in
      let infl :=
        {| infl_loads :=
             map (fun i => match opTy d with
                           | transferLeader => if i <? 3 then 0%Q else ld loads i
                           | movePeer => ld loads i
                           end)
                 (indices 6) |} in
      [(op3, infl)]
  end.

(* buildOperators: the two slices it returns have the same length and are
   one list of pairs here; nil is the empty list *)
Definition buildOperators (b : multiBalancer) : list (Operator * loadInfluence) :=
  let d := cur b in
  match region d with
  | None => []
  | Some rg =>
      match opTy d with
      | movePeer =>
          match GetStorePeer rg (srcStoreID d) with
          | None => []
          | Some srcPeer =>
              let dstPeer := {| StoreId := dstStoreID d; Role := Role srcPeer |} in
              let desc := "move-hot-mix-peer"%string in
              let r :=
                if decide (GetLeader rg = Some srcPeer)
                then CreateMoveLeaderOperator desc rg OpHotRegion (srcStoreID d) dstPeer
                else CreateMovePeerOperator desc rg OpHotRegion (srcStoreID d) dstPeer in
              finishOperator d r
                [hotDirectionCounter "move-peer" "mix" (srcStoreID d) "out";
                 hotDirectionCounter "move-peer" "mix" (StoreId dstPeer) "in"]
          end
      | transferLeader =>
          match GetStoreVoter rg (dstStoreID d) with
          | None => []
          | Some _ =>
              let desc := "transfer-hot-mix-leader"%string in
              finishOperator d
                (CreateTransferLeaderOperator desc rg (srcStoreID d)
                                              (dstStoreID d) OpHotRegion)
                [hotDirectionCounter "transfer-leader" "mix" (srcStoreID d) "out";
                 hotDirectionCounter "transfer-leader" "mix" (dstStoreID d) "in"]
          end
      end
  end.

(* buildSplitOperation *)
Definition buildSplitOperation (p : peerInfo) (dimID : Z) (splitRatio : Q)
    : list (Operator * loadInfluence) :=
  let '(splitDim, splitType) := convertToSplitInfo dimID in
  let opts := [inject_Z splitDim; splitRatio; inject_Z splitType] in
  let rg := GetRegion (regionID p) in
  let op := CreateSplitRegionOperator "hotspot-split-region" rg OpAdmin opts in
  [(SetPriorityLevel op HighPriority, emptyInfluence)].

(* --------------------------------------------------------------------- *)
(* The decision loop                                                     *)
(* --------------------------------------------------------------------- *)

(* for i := 0; i < len(ops); i++ { if !addPendingInfluence(...) return nil }:
   the scheduler after the loop, and whether every registration succeeded *)
Fixpoint registerPendings (h : multiDimensionScheduler) (deci : decision)
    (batch : list (Operator * loadInfluence))
    : multiDimensionScheduler * bool :=
  match batch with
  | [] => (h, true)
  | (op, infl) :: rest =>
      let '(h1, ok) := addPendingInfluence h op deci infl in
      if ok then registerPendings h1 deci rest else (h1, false)
  end.

(* solveMultiLoads from the call of buildOperators to its return: the
   registration loop, migratePeer, the scheduled set, the split counter *)
Definition emit (b : multiBalancer) (h : multiDimensionScheduler)
    (store dstStore : storeInfo) (selectedPeer : peerInfo)
    (batch : list (Operator * loadInfluence))
    : (multiBalancer * multiDimensionScheduler) * list Operator :=
  let '(h1, ok) := registerPendings h (cur b) batch in
  if ok then
    let b1 := set_storeInfos b
                (migratePeer (storeInfos b) (id store) (id dstStore)
                             selectedPeer (opTy (cur b))) in
    let b2 := set_scheduledRegions b1
                ({[regionID selectedPeer]} ∪ scheduledRegions b1) in
    ((b2, set_splitTrigeCount h1 0), map fst batch)
  else ((b, h1), []).

(* The loop over sortedPeers.pop() for one source store *)
Fixpoint peerLoop (store : storeInfo) (maxID : Z) (maxLoad : Q)
    (sortedPeers : list (peerInfo * Q))
    (b : multiBalancer) (h : multiDimensionScheduler)
    : flow (multiBalancer * multiDimensionScheduler) (list Operator) :=
  match sortedPeers with
  | [] => Next (b, h)
  | (selectedPeer, remainLoads) :: rest =>
      if decide (regionID selectedPeer ∈ scheduledRegions b) then
        peerLoop store maxID maxLoad rest b h
      else
        let remainLoad := (ld (pi_loads selectedPeer) maxID + remainLoads)%Q in
        if Qltb remainLoad (balanceRatio h)
           || Qltb remainLoad ((maxLoad - 1) * (8 # 10))
        then Next (b, h)
        else if Qltb (maxLoad - ld (pi_loads selectedPeer) maxID)
                     (1 - balanceRatio h)
        then peerLoop store maxID maxLoad rest
               (addSplitCandidate b (id store) selectedPeer) h
        else
          let cur1 :=
            {| srcStoreID := id store; dstStoreID := dstStoreID (cur b);
               opTy := opTy (cur b);
               srcPeerStat := peerStat selectedPeer;
               region := getRegion (regionID selectedPeer);
               peer := Some selectedPeer |} in
          let b1 := set_cur b cur1 in
          match region cur1 with
          | None => peerLoop store maxID maxLoad rest b1 h
          | Some _ =>
              let '(dstStore, cur2) := pickBestDstStore b1 h maxID in
              let b2 := set_cur b1 cur2 in
              match dstStore with
              | None =>
                  peerLoop store maxID maxLoad rest
                    (addSplitCandidate b2 (id store) selectedPeer) h
              | Some dst =>
                  let '(s, ops) :=
                    emit b2 h store dst selectedPeer (buildOperators b2) in
                  Return s ops
              end
          end
  end.

(* The loop over the stores *)
Fixpoint storeLoop (stores : list storeInfo)
    (b : multiBalancer) (h : multiDimensionScheduler)
    : flow (multiBalancer * multiDimensionScheduler) (list Operator) :=
  match stores with
  | [] => Next (b, h)
  | store :: rest =>
      let '(maxID, maxLoad) := getMaxLoadInfo store (allowedDimensions b) in
      if Qleb maxLoad (1 + balanceRatio h) then storeLoop rest b h
      else
        let h1 := if relaxBalanceCondition h
                  then set_balance h GetHotBalanceRatio false else h in
        match peerLoop store maxID maxLoad (buildSortedPeers store maxID) b h1 with
        | Return s ops => Return s ops
        | Next (b', h') => storeLoop rest b' h'
        end
  end.

(* --------------------------------------------------------------------- *)
(* The split fallback                                                    *)
(* --------------------------------------------------------------------- *)

(* splitRatio >= 1, for splitRatio = balanceRatio / load. Where the load is
   zero the float64 quotient is +Inf for a positive balanceRatio, which is
   >= 1, and NaN or -Inf otherwise, which are not. *)
Definition splitRatioGe1 (ratio load : Q) : bool :=
  if Qeq_bool load 0 then Qltb 0 ratio else Qleb 1 (ratio / load).

(* The loop over the split candidates of one store. The state is the
   scheduler, retOps and sumLoad; Return is the return nil of a failed
   registration. *)
Fixpoint splitPeers (store : storeInfo) (maxID : Z) (loadThreshold : Q)
    (candidates : list peerInfo)
    (h : multiDimensionScheduler) (retOps : list Operator) (sumLoad : Q)
    : flow (multiDimensionScheduler * list Operator) (list Operator) :=
  match candidates with
  | [] => Next (h, retOps)
  | p :: rest =>
      match regionPendings h !! regionID p with
      | Some _ => splitPeers store maxID loadThreshold rest h retOps sumLoad
      | None =>
          let splitRatio := (balanceRatio h / ld (pi_loads p) maxID)%Q in
          if splitRatioGe1 (balanceRatio h) (ld (pi_loads p) maxID)
          then splitPeers store maxID loadThreshold rest h retOps sumLoad
          else
            let batch := buildSplitOperation p maxID splitRatio in
            let deci := set_dst (set_cur_src emptyDecision (id store))
                                movePeer (id store) in
            let '(h1, ok) := registerPendings h deci batch in
            if ok then
              let retOps1 := retOps ++ map fst batch in
              let h2 := set_hasSplit h1 true in
              let sumLoad1 := (sumLoad + ld (pi_loads p) maxID)%Q in
              if Qleb loadThreshold sumLoad1 then Next (h2, retOps1)
              else splitPeers store maxID loadThreshold rest h2 retOps1 sumLoad1
            else Return (h1, retOps) []
      end
  end.

(* The loop over the stores in processSplit *)
Fixpoint splitStores (stores : list storeInfo) (b : multiBalancer)
    (h : multiDimensionScheduler) (retOps : list Operator)
    : flow (multiDimensionScheduler * list Operator) (list Operator) :=
  match stores with
  | [] => Next (h, retOps)
  | store :: rest =>
      match splitCandidates b !! id store with
      | None => splitStores rest b h retOps
      | Some candidates =>
          let '(maxID, maxLoad) := getMaxLoadInfo store (allowedDimensions b) in
          if Qleb maxLoad (1 + balanceRatio h) then splitStores rest b h retOps
          else
            let loadThreshold := (maxLoad - 1 - balanceRatio h)%Q in
            match splitPeers store maxID loadThreshold candidates h retOps 0 with
            | Return s r => Return s r
            | Next (h', retOps') => splitStores rest b h' retOps'
            end
      end
  end.

(* processSplit *)
Definition processSplit (b : multiBalancer) (h : multiDimensionScheduler)
    : multiDimensionScheduler * list Operator :=
  let h1 := set_splitTrigeCount h (wrapInt (splitTrigeCount h + 1)) in
  if decide (splitTrigeCount h1 = 5) then
    match splitStores (storeInfos b) b h1 [] with
    | Return (h2, _) r => (h2, r)
    | Next (h2, retOps) => (h2, retOps)
    end
  else (h1, []).

(* --------------------------------------------------------------------- *)
(* One cycle                                                             *)
(* --------------------------------------------------------------------- *)

(* The dimension of the highest load of any store, first block of
   solveMultiLoads *)
Definition maxDimOf (stores : list storeInfo) (allowed : list Z) : Z :=
  fst (fold_left
         (fun acc si =>
            fold_left
              (fun acc' i =>
                 if Qltb (snd acc') (ld (loads si) i)
                 then (i, ld (loads si) i) else acc')
              allowed acc)
         stores (0, 0%Q)).

(* solveMultiLoads *)
Definition solveMultiLoads (b : multiBalancer) (h : multiDimensionScheduler)
    : (multiBalancer * multiDimensionScheduler) * list Operator :=
  if skipSchedule b then ((b, h), [])
  else
    let b0 := set_cur b emptyDecision in
    let maxDimID := maxDimOf (storeInfos b0) (allowedDimensions b0) in
    let b1 := set_storeInfos b0
                (sortSlice (fun x y => Qltb (ld (loads y) maxDimID)
                                            (ld (loads x) maxDimID))
                           (storeInfos b0)) in
    let b2 := set_splitCandidates b1 ∅ in
    match storeLoop (storeInfos b2) b2 h with
    | Return s ops => (s, ops)
    | Next (b3, h3) =>
        let ratio := calcBalanceRatio (storeInfos b3) (allowedDimensions b3) in
        let h4 :=
          if negb (relaxBalanceCondition h3)
             && Qleb ratio (1 + balanceRatio h3 + allowedDeviation)
          then set_balance h3 (balanceRatio h3 + allowedDeviation) true
          else h3 in
        if Qltb (1 + balanceRatio h4) ratio then
          let '(h5, ops) := processSplit b3 h4 in ((b3, h5), ops)
        else ((b3, h4), [])
    end.

(* summaryPendingInfluence *)
Definition summaryPendingInfluence (h : multiDimensionScheduler)
    : multiDimensionScheduler :=
  let '(sums, ps) := summaryPendingLoadInfluence (pendings h) in
  gcRegionPendings IsEnd GetStartTime Now GetMaxZombieDuration
    (set_pendingSums (set_ledger h ps (regionPendings h)) sums).

(* shouldWaitPendingOps *)
Definition shouldWaitPendingOps (h : multiDimensionScheduler)
    : multiDimensionScheduler * bool :=
  if decide (size (regionPendings h) = 0%nat) then
    (set_needInit (set_hasSplit h false) true, false)
  else if relaxBalanceCondition h || hasSplit h then (h, true)
  else (h, false).

(* The scheduler with its current balancer; None is nil *)
Record State := {
  sche : multiDimensionScheduler;
  curBalancer : option multiBalancer;
}.

(* The balancer that dispatch hands to solveMultiLoads: a new one when
   there is none or needInit is set, after which needInit is cleared *)
Definition balancerOfCycle (st : option multiBalancer)
    (h : multiDimensionScheduler) : multiBalancer * multiDimensionScheduler :=
  match st with
  | Some b =>
      if needInit h then
        let '(b', h') := newMultiBalancer h in (b', set_needInit h' false)
      else (b, h)
  | None =>
      let '(b', h') := newMultiBalancer h in (b', set_needInit h' false)
  end.

(* dispatch up to the call of solveMultiLoads: the state it returns with
   when the cycle ends early (mode, or waiting for pending operators), or
   the balancer and the scheduler that solveMultiLoads is called on *)
Definition prepare (st : State)
    : State + (multiBalancer * multiDimensionScheduler) :=
  if 0 <? GetHotSchedulerMode then inl st
  else
    let h := sche st in
    let h1 := set_balance h
                (if relaxBalanceCondition h
                 then GetHotBalanceRatio + allowedDeviation
                 else GetHotBalanceRatio)%Q
                (relaxBalanceCondition h) in
    let h2 := summaryPendingInfluence h1 in
    let '(h3, wait) := shouldWaitPendingOps h2 in
    if wait then inl {| sche := h3; curBalancer := curBalancer st |}
    else inr (balancerOfCycle (curBalancer st) h3).

(* dispatch, which is all of Schedule *)
Definition dispatch (st : State) : State * list Operator :=
  match prepare st with
  | inl st' => (st', [])
  | inr (b, h) =>
      let '((b', h'), ops) := solveMultiLoads b h in
      ({| sche := h'; curBalancer := Some b' |}, ops)
  end.

Definition Schedule (st : State) : State * list Operator := dispatch st.

End Balancer.

Arguments State : clear implicits.

(* newMultiDimensionScheduler: the state a scheduler starts in. The six
   minimum rates of minExpLoads are constants of another file. *)
Definition newMultiDimensionScheduler {RegionInfo : Type} (minExp : Loads)
    : State RegionInfo :=
  {| sche := {| pendings := []; regionPendings := ∅; pendingSums := ∅;
                minExpLoads := minExp; balanceRatio := balanceRatioConst;
                relaxBalanceCondition := false; splitTrigeCount := 0;
                hasSplit := false; needInit := false |};
     curBalancer := None |}.

(* --------------------------------------------------------------------- *)
(* A run of cycles                                                       *)
(* --------------------------------------------------------------------- *)

Section Run.
Context {RegionInfo CoreStore Filter : Type}.
Abbreviation ClusterView := (Cluster RegionInfo CoreStore Filter).

(* Successive calls of Schedule, each with the cluster as it is then *)
Fixpoint run (cs : list ClusterView) (st : State RegionInfo)
    : State RegionInfo :=
  match cs with
  | [] => st
  | c :: cs' => run cs' (fst (dispatch (cluster := c) st))
  end.

(* The operators of cycle n of the run (cycles are counted from 0) *)
Definition opsAt (cs : list ClusterView) (st : State RegionInfo)
    (n : nat) : list Operator :=
  match cs !! n with
  | Some c => snd (dispatch (cluster := c) (run (take n cs) st))
  | None => []
  end.

(* The state after cycle n *)
Definition stateAfter (cs : list ClusterView)
    (st : State RegionInfo) (n : nat)
    : State RegionInfo :=
  run (take (S n) cs) st.

End Run.

(* --------------------------------------------------------------------- *)
(* A small cluster                                                       *)
(* --------------------------------------------------------------------- *)

(* Two stores. Store 1 leads the hot regions 7 to 11 and carries most of
   the read bytes, store 2 leads region 21 and follows the others. A region
   and a store are their ids; a filter is the set of stores it rejects.
   The helpers of the package that are defined in other files follow the
   words of the specification. *)
Module Demo.

Definition stat (r : Z) (rb : Q) : HotPeerStat :=
  {| hp_RegionID := r; hp_Loads := [0; 0; 0; rb; 0; 0]%Q; hp_IsLeader := true |}.

Definition zeroStat : gmap Z Q := {[ 1 := 0%Q; 2 := 0%Q ]}.

Definition loadsStat : list (gmap Z Q) :=
  [zeroStat; zeroStat; zeroStat;
   {[ 1 := inject_Z 36; 2 := inject_Z 4 ]}; zeroStat; zeroStat].

Definition addLoads (w : Q) (a b : Loads) : Loads :=
  map (fun i => (ld a i + w * ld b i)%Q) (indices 6).

Definition addInfluence (w : Q) (k : Z) (l : Loads)
    (m : gmap Z loadInfluence) : gmap Z loadInfluence :=
  <[k := {| infl_loads :=
              addLoads w (infl_loads (default emptyInfluence (m !! k))) l |}]> m.

(* Modelled from the spec: summaryPendingLoadInfluence sums every pending
   influence per store, added at its destination and taken from its source;
   the weight of an operator that has not ended is 1. *)
Definition summary (ps : list pendingLoadInfluence)
    : gmap Z loadInfluence * list pendingLoadInfluence :=
  (fold_left (fun m p =>
                addInfluence (-1) (pl_from p) (infl_loads (pl_origin p))
                  (addInfluence 1 (pl_to p) (infl_loads (pl_origin p)) m))
             ps ∅, ps).

Definition mkOp (desc : string) (r : Z) (k : OpKind) (opts : list Q) : Operator :=
  {| op_desc := desc; op_regionID := r; op_kind := k;
     op_priority := NormalPriority; op_counters := []; op_opts := opts |}.

Fixpoint insertBy {A : Type} (less : A -> A -> bool) (x : A) (l : list A)
    : list A :=
  match l with
  | [] => [x]
  | y :: l' => if less y x then y :: insertBy less x l' else x :: l
  end.

Definition sortBy {A : Type} (less : A -> A -> bool) (l : list A) : list A :=
  fold_right (insertBy less) [] l.

(* Modelled from the spec: getMaxLoadInfo is the worst allowed axis of the
   store and its load. *)
Definition maxLoadInfo (s : storeInfo) (allowed : list Z) : Z * Q :=
  fold_left (fun acc i => if Qltb (snd acc) (ld (loads s) i)
                          then (i, ld (loads s) i) else acc)
            allowed (0, 0%Q).

Fixpoint withRemain (dim : Z) (ps : list peerInfo) : list (peerInfo * Q) :=
  match ps with
  | [] => []
  | p :: rest =>
      (p, fold_left (fun acc q => (acc + ld (pi_loads q) dim)%Q) rest 0%Q)
        :: withRemain dim rest
  end.

(* Modelled from the spec: buildSortedPeers ranks the hot peers of the
   store by their load on the axis, descending; remainLoads is the sum of
   the loads, on that axis, of the peers not popped yet. *)
Definition sortedPeers (s : storeInfo) (dim : Z) : list (peerInfo * Q) :=
  withRemain dim
    (sortBy (fun x y => Qltb (ld (pi_loads y) dim) (ld (pi_loads x) dim))
            (map snd (map_to_list (hotPeers s)))).

Definition canTransfer (i : Z) : bool := 3 <=? i.

(* Modelled from the spec: migratePeer updates the loads of the two stores
   to reflect the migration, a leader transfer moving only the read load. *)
Definition migrate (stores : list storeInfo) (src dst : Z) (p : peerInfo)
    (ty : opType) : list storeInfo :=
  let moved i := match ty with
                 | transferLeader => if canTransfer i then ld (pi_loads p) i else 0%Q
                 | movePeer => ld (pi_loads p) i
                 end in
  map (fun s =>
         if decide (id s = src) then
           {| id := id s;
              loads := map (fun i => (ld (loads s) i - moved i)%Q) (indices 6);
              hotPeers := hotPeers s |}
         else if decide (id s = dst) then
           {| id := id s;
              loads := map (fun i => (ld (loads s) i + moved i)%Q) (indices 6);
              hotPeers := hotPeers s |}
         else s)
      stores.

(* Modelled from the spec: the current balance ratio is the highest load of
   a store on an allowed axis. *)
Definition balanceRatioOf (stores : list storeInfo) (allowed : list Z) : Q :=
  fold_left (fun acc s => Qmax' acc (snd (maxLoadInfo s allowed))) stores 0%Q.

(* What varies between the scenarios: the region that has no voter on any
   store, the clock, the status of every operator, and whether store 1
   leads the single oversized region 7 instead of the five regions *)
Record Scenario := {
  noVoter : Z;
  clock : Z;
  ended : bool;
  started : Z;
  finished : Z;
  oversized : bool;
}.

(* Every region has its voters, no operator has ended *)
Definition calm : Scenario :=
  {| noVoter := 0; clock := 100; ended := false; started := 0; finished := 0;
     oversized := false |}.

(* Region 7 has no voter on the follower store *)
Definition noVoter7 : Scenario :=
  {| noVoter := 7; clock := 100; ended := false; started := 0; finished := 0;
     oversized := false |}.

(* The operators started at 0 and ended at 95, it is now 100 *)
Definition justEnded : Scenario :=
  {| noVoter := 0; clock := 100; ended := true; started := 0; finished := 95;
     oversized := false |}.

(* Region 7 alone carries most of the read bytes of store 1 *)
Definition oneBigRegion : Scenario :=
  {| noVoter := 0; clock := 100; ended := false; started := 0; finished := 0;
     oversized := true |}.

Definition writeStats (sc : Scenario) : gmap Z (list HotPeerStat) :=
  {[ 1 := if oversized sc then [stat 7 (inject_Z 32)]
          else [stat 7 (inject_Z 8); stat 8 (inject_Z 7); stat 9 (inject_Z 6);
                stat 10 (inject_Z 5); stat 11 (inject_Z 4)];
     2 := [stat 21 (inject_Z 4)] ]}.

(* The cluster of a scenario; the zombie duration is 10 *)
#[local] Instance demo (sc : Scenario) : Cluster Z Z (gset Z) := {|
  Now := clock sc;
  IsEnd := fun _ => ended sc;
  GetStartTime := fun _ => started sc;
  GetFinishTime := fun _ => finished sc;
  GetMaxZombieDuration := 10;
  GetHotSchedulerMode := 0;
  GetHotBalanceRatio := 1 # 10;
  GetHotRegionCacheHitsThreshold := 0;
  GetStoresLoadsStat := loadsStat;
  RegionWriteStats := writeStats sc;
  filterHotPeers := fun _ l => l;
  summaryPendingLoadInfluence := summary;
  GetStore := fun k => if decide (k = 1 \/ k = 2) then Some k else None;
  GetStores := [1; 2];
  GetFollowerStores := fun rg => if decide (rg = 21) then [1] else [2];
  GetRegion := fun r => if decide (7 <= r <= 11 \/ r = 21) then Some r else None;
  IsHealthyAllowPending := fun _ => true;
  IsRegionReplicated := fun _ => true;
  GetID := fun k => k;
  GetStoreIds := fun _ => {[ 1; 2 ]};
  GetStorePeer := fun _ k => Some {| StoreId := k; Role := 0 |};
  GetStoreVoter := fun rg k =>
    if decide (rg = noVoter sc) then None else Some {| StoreId := k; Role := 0 |};
  GetLeader := fun rg =>
    Some {| StoreId := if decide (rg = 21) then 2 else 1; Role := 0 |};
  StoreStateFilter := fun _ _ => ∅;
  NewExcludedFilter := fun _ targets => targets;
  NewSpecialUseFilter := ∅;
  NewPlacementSafeguard := fun _ _ => ∅;
  NewPlacementLeaderSafeguard := fun _ _ => None;
  filter_Target := fun k fs => forallb (fun f => bool_decide (k ∉ f)) fs;
  CreateMoveLeaderOperator := fun desc rg k _ _ => Some (mkOp desc rg k []);
  CreateMovePeerOperator := fun desc rg k _ _ => Some (mkOp desc rg k []);
  CreateTransferLeaderOperator := fun desc rg _ _ k => Some (mkOp desc rg k []);
  CreateSplitRegionOperator := fun desc rg k opts => mkOp desc (default 0 rg) k opts;
  sortSlice := sortBy;
  loadCanTransfered := canTransfer;
  getMaxLoadInfo := maxLoadInfo;
  buildSortedPeers := sortedPeers;
  migratePeer := migrate;
  calcBalanceRatio := balanceRatioOf;
|}.

Definition st0 : State Z :=
  newMultiDimensionScheduler [1; 1; 1; 1; 1; 1]%Q.

Definition op7 : Operator := mkOp "transfer-hot-mix-leader" 7 OpHotRegion [].

(* A scheduler whose ledger holds one entry, for region 7 *)
Definition pending7 : multiDimensionScheduler :=
  set_ledger (sche st0)
    [newPendingLoadInfluence op7 1 2 emptyInfluence] {[ 7 := Some op7 ]}.

(* The snapshot that the first cycle of a scenario builds *)
Definition snapshot (sc : Scenario) : multiBalancer Z :=
  fst (newMultiBalancer (cluster := demo sc) (sche st0)).

(* A leader peer of region 7 on store 1 whose normalised load is heavy on
   the write-ops axis and light on the read-bytes axis *)
Definition opsHeavy : peerInfo :=
  {| regionID := 7; pi_storeID := 1; isLeader := true;
     pi_loads := [0; 0; 9; 5 # 100; 0; 0]%Q; peerStat := None |}.


(* The scheduler with a pending influence of 1 on the read bytes of
   store 1, as of an operator that moves load in from a store without
   load statistics *)
Definition inflow : multiDimensionScheduler :=
  set_pendingSums (sche st0)
    {[ 1 := {| infl_loads := [0; 0; 0; 1; 0; 0]%Q |} ]}.

(* The scheduler relaxed, with the entry of region 7 pending *)
Definition relaxed7 : State Z :=
  {| sche := set_balance pending7 (15 # 100) true; curBalancer := None |}.

End Demo.

(* --------------------------------------------------------------------- *)
(* Vocabulary of the properties                                          *)
(* --------------------------------------------------------------------- *)

(* The scheduler is the same up to the balance ratio and the relax flag *)
Definition upToBalance (h h' : multiDimensionScheduler) : Prop :=
  exists r f, h' = set_balance h r f.

(* The balancer has the same stores, dimensions and scheduled regions *)
Definition sameSnapshot {RegionInfo : Type} (b b' : multiBalancer RegionInfo) : Prop :=
  storeInfos b' = storeInfos b /\
  allowedDimensions b' = allowedDimensions b /\
  scheduledRegions b' = scheduledRegions b /\
  skipSchedule b' = skipSchedule b.

(* The state of the loops of processSplit, relative to the scheduler h0 it
   started from: no entry of the ledger is lost, the counter and the
   balance are those of h0, and every operator collected so far owns the
   entry of its region, which h0 did not have *)
Definition splitInv (h0 h : multiDimensionScheduler) (retOps : list Operator)
    : Prop :=
  regionPendings h0 ⊆ regionPendings h /\
  splitTrigeCount h = splitTrigeCount h0 /\
  relaxBalanceCondition h = relaxBalanceCondition h0 /\
  balanceRatio h = balanceRatio h0 /\
  forall op, op ∈ retOps ->
    regionPendings h0 !! RegionID op = None /\
    regionPendings h !! RegionID op = Some (Some op).

Section Vocabulary.
Context {RegionInfo CoreStore Filter : Type}.

(* The number of pending regions that the cycle sees in
   shouldWaitPendingOps, after the garbage collection *)
Definition pendingSeen (c : Cluster RegionInfo CoreStore Filter)
    (st : State RegionInfo) : nat :=
  size (regionPendings (summaryPendingInfluence (cluster := c) (sche st))).

(* The cycle gets as far as shouldWaitPendingOps and sees no pending
   region *)
Definition observesNoPending (c : Cluster RegionInfo CoreStore Filter)
    (st : State RegionInfo) : Prop :=
  GetHotSchedulerMode (Cluster := c) <= 0 /\ pendingSeen c st = 0%nat.

(* No cycle of the run observes zero pending regions *)
Fixpoint neverIdle (cs : list (Cluster RegionInfo CoreStore Filter))
    (st : State RegionInfo) : Prop :=
  match cs with
  | [] => True
  | c :: cs' =>
      ~ observesNoPending c st /\
      neverIdle cs' (fst (dispatch (cluster := c) st))
  end.

(* The cycle builds a new balancer for solveMultiLoads *)
Definition rebuilds (c : Cluster RegionInfo CoreStore Filter)
    (st : State RegionInfo) : Prop :=
  exists h b h',
    newMultiBalancer (cluster := c) h = (b, h') /\
    prepare (cluster := c) st = inr (b, set_needInit h' false).

(* Cycle n of the run emits operators and leaves the split counter
   non-zero: it emitted through the split fallback, since an emission of
   the decision loop resets the counter *)
Definition firesSplitAt (cs : list (Cluster RegionInfo CoreStore Filter))
    (st : State RegionInfo) (n : nat) : Prop :=
  opsAt cs st n <> [] /\ splitTrigeCount (sche (stateAfter cs st n)) <> 0.

End Vocabulary.

(* The least number of cycles after which a split counter of value c can
   stand at 4, from where the next fallback fires: 4 - c from 0..4, and 5
   (a reset and four increments) from anywhere else *)
Definition splitDistance (c : Z) : Z :=
  if c mod 2 ^ 64 <=? 4 then 4 - c mod 2 ^ 64 else 5.

(* A store that the loop of filterDstStores may take: selected by the
   filters and, for a large region, under the cap *)
Definition eligible {RegionInfo CoreStore Filter : Type}
    {cluster : Cluster RegionInfo CoreStore Filter}
    (b : multiBalancer RegionInfo) (h : multiDimensionScheduler)
    (sel : gset Z) (ty : opType) (large : bool) (s : storeInfo) : Prop :=
  id s ∈ sel /\
  (large = true -> (loadOfMigrated b s ty <= 1 + balanceRatio h)%Q).

(* The sum of f over a list of store ids *)
Definition sumQ (f : Z -> Q) (ks : list Z) : Q :=
  fold_right (fun k acc => (f k + acc)%Q) 0%Q ks.

(* The sum over the stores of their load on dimension i *)
Definition sumLoadsOn (stores : list storeInfo) (i : Z) : Q :=
  fold_right (fun s acc => (ld (loads s) i + acc)%Q) 0%Q stores.

(* --------------------------------------------------------------------- *)
(* The schedule guard                                                    *)
(* --------------------------------------------------------------------- *)

(* allowBalanceLeader, allowBalanceRegion and IsScheduleAllowed, on what
   they read: OpController.OperatorCount of OpHotRegion and of OpLeader,
   and the two limits of the cluster options, all uint64 *)
Definition allowBalanceLeader (hotCount leaderCount hotLimit leaderLimit : Z)
    : bool :=
  (hotCount <? hotLimit) && (leaderCount <? leaderLimit).

Definition allowBalanceRegion (hotCount hotLimit : Z) : bool :=
  hotCount <? hotLimit.

Definition IsScheduleAllowed (hotCount leaderCount hotLimit leaderLimit : Z)
    : bool :=
  allowBalanceLeader hotCount leaderCount hotLimit leaderLimit
  || allowBalanceRegion hotCount hotLimit.

(* A dimension that loadOfMigrated counts: an allowed one, and for a
   leader transfer one whose load a leader transfer moves *)
Definition countedDim {RegionInfo CoreStore Filter : Type}
    {cluster : Cluster RegionInfo CoreStore Filter}
    (b : multiBalancer RegionInfo) (ty : opType) (i : Z) : Prop :=
  i ∈ allowedDimensions b /\
  (ty = transferLeader -> loadCanTransfered i = true).

(* The state of the loops of processSplit, relative to the scheduler h0
   they started from, as far as the operators collected so far, hasSplit
   and the fields that the loops leave alone are concerned *)
Definition splitFrame (h0 h : multiDimensionScheduler)
    (retOps : list Operator) : Prop :=
  NoDup (map RegionID retOps) /\
  (forall op, op ∈ retOps -> is_Some (regionPendings h !! RegionID op)) /\
  (retOps <> [] -> hasSplit h = true) /\
  (hasSplit h0 = true -> hasSplit h = true) /\
  (hasSplit h = true ->
   hasSplit h0 = true \/ regionPendings h <> regionPendings h0) /\
  regionPendings h0 ⊆ regionPendings h /\
  needInit h = needInit h0 /\
  minExpLoads h = minExpLoads h0 /\
  pendingSums h = pendingSums h0.

(* The balance ratio is the one that goes with the relax flag: the ratio
   of the cluster options, plus allowedDeviation when the flag is set *)
Definition inStep {RegionInfo CoreStore Filter : Type}
    {cluster : Cluster RegionInfo CoreStore Filter}
    (h : multiDimensionScheduler) : Prop :=
  balanceRatio h
  = if relaxBalanceCondition h
    then (GetHotBalanceRatio + allowedDeviation)%Q
    else GetHotBalanceRatio.

(* The scheduler as dispatch has it when it calls shouldWaitPendingOps:
   the balance ratio read from the options, the pending influence summed
   and the region-pending index collected *)
Definition cycleScheduler {RegionInfo CoreStore Filter : Type}
    (c : Cluster RegionInfo CoreStore Filter)
    (h : multiDimensionScheduler) : multiDimensionScheduler :=
  summaryPendingInfluence (cluster := c)
    (set_balance h
       (if relaxBalanceCondition h
        then GetHotBalanceRatio + allowedDeviation
        else GetHotBalanceRatio)%Q
       (relaxBalanceCondition h)).

(* The scheduler pausing after a split, with the entry of region 7
   pending *)
Definition splitting7 : State Z :=
  {| sche := set_hasSplit Demo.pending7 true; curBalancer := None |}.

(* --------------------------------------------------------------------- *)
(* The decision that a cycle reaches                                     *)
(* --------------------------------------------------------------------- *)

Section Decision.
Context {RegionInfo CoreStore Filter : Type}.
Context {cluster : Cluster RegionInfo CoreStore Filter}.

(* The loop over sortedPeers.pop() for one source store up to the call of
   buildOperators: it returns with the balancer in which the decision is
   written, the destination store and the selected peer, or falls through
   with the balancer as it leaves it. It does not touch the scheduler. *)
Fixpoint findPeer (store : storeInfo) (maxID : Z) (maxLoad : Q)
    (sortedPeers : list (peerInfo * Q))
    (b : multiBalancer RegionInfo) (h : multiDimensionScheduler)
    : flow (multiBalancer RegionInfo) (storeInfo * peerInfo) :=
  match sortedPeers with
  | [] => Next b
  | (selectedPeer, remainLoads) :: rest =>
      if decide (regionID selectedPeer ∈ scheduledRegions b) then
        findPeer store maxID maxLoad rest b h
      else
        let remainLoad := (ld (pi_loads selectedPeer) maxID + remainLoads)%Q in
        if Qltb remainLoad (balanceRatio h)
           || Qltb remainLoad ((maxLoad - 1) * (8 # 10))
        then Next b
        else if Qltb (maxLoad - ld (pi_loads selectedPeer) maxID)
                     (1 - balanceRatio h)
        then findPeer store maxID maxLoad rest
               (addSplitCandidate b (id store) selectedPeer) h
        else
          let cur1 :=
            {| srcStoreID := id store; dstStoreID := dstStoreID (cur b);
               opTy := opTy (cur b);
               srcPeerStat := peerStat selectedPeer;
               region := getRegion (regionID selectedPeer);
               peer := Some selectedPeer |} in
          let b1 := set_cur b cur1 in
          match region cur1 with
          | None => findPeer store maxID maxLoad rest b1 h
          | Some _ =>
              let '(dstStore, cur2) := pickBestDstStore b1 h maxID in
              let b2 := set_cur b1 cur2 in
              match dstStore with
              | None =>
                  findPeer store maxID maxLoad rest
                    (addSplitCandidate b2 (id store) selectedPeer) h
              | Some dst => Return b2 (dst, selectedPeer)
              end
          end
  end.

(* The loop over the stores up to the call of buildOperators: the balancer
   and the scheduler at that call with the source store, the destination
   store and the peer, or the balancer and the scheduler with which the
   loop ends *)
Fixpoint findStore (stores : list storeInfo)
    (b : multiBalancer RegionInfo) (h : multiDimensionScheduler)
    : flow (multiBalancer RegionInfo * multiDimensionScheduler)
           (storeInfo * storeInfo * peerInfo) :=
  match stores with
  | [] => Next (b, h)
  | store :: rest =>
      let '(maxID, maxLoad) := getMaxLoadInfo store (allowedDimensions b) in
      if Qleb maxLoad (1 + balanceRatio h) then findStore rest b h
      else
        let h1 := if relaxBalanceCondition h
                  then set_balance h GetHotBalanceRatio false else h in
        match findPeer store maxID maxLoad (buildSortedPeers store maxID) b h1 with
        | Return b2 (dst, p) => Return (b2, h1) (store, dst, p)
        | Next b' => findStore rest b' h1
        end
  end.

(* solveMultiLoads up to the call of buildOperators: the balancer, the
   scheduler, the source store, the destination store and the peer with
   which the cycle comes to its emission, if it comes to one *)
Definition emissionOf (b : multiBalancer RegionInfo)
    (h : multiDimensionScheduler)
    : option (multiBalancer RegionInfo * multiDimensionScheduler
              * storeInfo * storeInfo * peerInfo) :=
  if skipSchedule b then None
  else
    let b0 := set_cur b emptyDecision in
    let maxDimID := maxDimOf (storeInfos b0) (allowedDimensions b0) in
    let b1 := set_storeInfos b0
                (sortSlice (fun x y => Qltb (ld (loads y) maxDimID)
                                            (ld (loads x) maxDimID))
                           (storeInfos b0)) in
    let b2 := set_splitCandidates b1 ∅ in
    match findStore (storeInfos b2) b2 h with
    | Return (b3, h3) (store, dst, p) => Some (b3, h3, store, dst, p)
    | Next _ => None
    end.

End Decision.

(* The scheduler with the entry of region 7 pending and no balancer yet *)
Definition conflict7 : State Z :=
  {| sche := Demo.pending7; curBalancer := None |}.

(* ===================================================================== *)
(* Properties                                                            *)
(* ===================================================================== *)

Lemma Qltb_lt x y : Qltb x y = true <-> (x < y)%Q.
Proof.
  unfold Qltb. rewrite negb_true_iff.
  destruct (Qle_bool y x) eqn:E.
  - apply Qle_bool_iff in E. split; [discriminate | intros H; exfalso; lra].
  - split; [intros _ | reflexivity].
    destruct (Qlt_le_dec x y) as [Hlt | Hle]; [exact Hlt |].
    apply Qle_bool_iff in Hle. congruence.
Qed.

Lemma Qleb_le x y : Qleb x y = true <-> (x <= y)%Q.
Proof. unfold Qleb. apply Qle_bool_iff. Qed.

Lemma Qltb_ge x y : Qltb x y = false <-> (y <= x)%Q.
Proof.
  unfold Qltb. rewrite negb_false_iff. apply Qle_bool_iff.
Qed.

Lemma Qleb_gt x y : Qleb x y = false <-> (y < x)%Q.
Proof.
  rewrite <- Qltb_lt. unfold Qltb, Qleb.
  destruct (Qle_bool x y); simpl; split; congruence.
Qed.

(* --------------------------------------------------------------------- *)
(* Split parameters                                                      *)
(* --------------------------------------------------------------------- *)

Lemma convertToSplitInfo_small (dimID : Z) :
  0 <= dimID <= 5 ->
  convertToSplitInfo dimID =
    (if dimID mod 3 =? 0 then 0 else 1, 1 - dimID / 3).
Proof.
  intros H.
  assert (Hc : dimID = 0 \/ dimID = 1 \/ dimID = 2 \/
               dimID = 3 \/ dimID = 4 \/ dimID = 5) by lia.
  destruct Hc as [-> | [-> | [-> | [-> | [-> | ->]]]]]; reflexivity.
Qed.

(** C2, as stated, fails: the write dimension 0 gives splitType 1, not 0,
    and the read dimension 3 gives splitType 0, not 1. *)
Lemma C2_write_is_one_read_is_zero :
  convertToSplitInfo 0 = (0, 1) /\ snd (convertToSplitInfo 0) <> 0 /\
  convertToSplitInfo 3 = (0, 0) /\ snd (convertToSplitInfo 3) <> 1.
Proof. repeat split; vm_compute; congruence. Qed.

(** C2, amended: for every dimension id in 0..5, splitType is
    1 - (maxID / 3) with integer division, which is 1 for a write dimension
    (0..2) and 0 for a read dimension (3..5); splitDim is 0 when
    maxID mod 3 = 0 and 1 otherwise. *)
Theorem C2_split_parameters (maxID : Z) :
  0 <= maxID <= 5 ->
  let '(splitDim, splitType) := convertToSplitInfo maxID in
  splitType = 1 - maxID / 3 /\
  (maxID <= 2 -> splitType = 1) /\
  (3 <= maxID -> splitType = 0) /\
  (maxID mod 3 = 0 -> splitDim = 0) /\
  (maxID mod 3 <> 0 -> splitDim = 1).
Proof.
  intros H. rewrite (convertToSplitInfo_small maxID H).
  assert (Hc : maxID = 0 \/ maxID = 1 \/ maxID = 2 \/
               maxID = 3 \/ maxID = 4 \/ maxID = 5) by lia.
  destruct Hc as [-> | [-> | [-> | [-> | [-> | ->]]]]];
    repeat split; intros; try reflexivity; try lia;
    exfalso; vm_compute in *; congruence.
Qed.

Lemma C2_split_parameters_witness :
  0 <= 4 <= 5 /\
  let '(splitDim, splitType) := convertToSplitInfo 4 in
  splitType = 1 - 4 / 3 /\
  (4 <= 2 -> splitType = 1) /\
  (3 <= 4 -> splitType = 0) /\
  (4 mod 3 = 0 -> splitDim = 0) /\
  (4 mod 3 <> 0 -> splitDim = 1).
Proof. split; [lia | apply (C2_split_parameters 4); lia]. Defined.

(* --------------------------------------------------------------------- *)
(* The pending ledger                                                    *)
(* --------------------------------------------------------------------- *)

Section Ledger.
Context {RegionInfo CoreStore Filter : Type}.
Context {cluster : Cluster RegionInfo CoreStore Filter}.

Lemma addPendingInfluence_conflict (h : multiDimensionScheduler)
    (op : Operator) (deci : decision RegionInfo) (infl : loadInfluence) :
  is_Some (regionPendings h !! RegionID op) ->
  addPendingInfluence h op deci infl = (h, false).
Proof.
  intros [v Hv]. unfold addPendingInfluence. cbn zeta. rewrite Hv. reflexivity.
Qed.

Lemma addPendingInfluence_fresh (h : multiDimensionScheduler)
    (op : Operator) (deci : decision RegionInfo) (infl : loadInfluence) :
  regionPendings h !! RegionID op = None ->
  addPendingInfluence h op deci infl =
    (set_ledger h
       (newPendingLoadInfluence op (srcStoreID deci) (dstStoreID deci) infl
          :: pendings h)
       (<[RegionID op := Some op]> (regionPendings h)), true).
Proof.
  intros Hv. unfold addPendingInfluence. cbn zeta. rewrite Hv. reflexivity.
Qed.

(* The lookup of an entry after gcRegionPendings *)
Lemma gcRegionPendings_lookup isEnd startTime now maxZombie
    (h : multiDimensionScheduler) (r : Z) :
  regionPendings (gcRegionPendings isEnd startTime now maxZombie h) !! r =
    match regionPendings h !! r with
    | Some v => if gcExpired isEnd startTime now maxZombie v then None else Some v
    | None => None
    end.
Proof.
  unfold gcRegionPendings. cbn [regionPendings set_ledger].
  rewrite map_lookup_filter.
  destruct (regionPendings h !! r) as [v |]; [| reflexivity].
  cbn. destruct (gcExpired isEnd startTime now maxZombie v);
    [rewrite option_guard_False | rewrite option_guard_True]; cbn; congruence.
Qed.

Lemma summaryPendingInfluence_lookup (h : multiDimensionScheduler) (r : Z) :
  regionPendings (summaryPendingInfluence h) !! r =
    match regionPendings h !! r with
    | Some v =>
        if gcExpired IsEnd GetStartTime Now GetMaxZombieDuration v
        then None else Some v
    | None => None
    end.
Proof.
  unfold summaryPendingInfluence.
  destruct (summaryPendingLoadInfluence (pendings h)) as [sums ps].
  rewrite gcRegionPendings_lookup. reflexivity.
Qed.

(** C5, amended: the garbage collection removes a region-pending entry
    exactly when its operator has ended and more than max_zombie_duration
    has elapsed since the operator STARTED; an entry it keeps is unchanged.
    Consequently an entry whose operator has ended, and finished (no earlier
    than it started) more than max_zombie_duration ago, is absent after the
    next summarize/gc. *)
Theorem C5_gc_counts_from_start (h : multiDimensionScheduler) (r : Z)
    (op : Operator) :
  regionPendings h !! r = Some (Some op) ->
  (regionPendings (summaryPendingInfluence h) !! r = None <->
     IsEnd op = true /\ GetStartTime op + GetMaxZombieDuration < Now) /\
  (regionPendings (summaryPendingInfluence h) !! r = None \/
   regionPendings (summaryPendingInfluence h) !! r = Some (Some op)) /\
  (IsEnd op = true -> GetStartTime op <= GetFinishTime op ->
   GetFinishTime op + GetMaxZombieDuration < Now ->
   regionPendings (summaryPendingInfluence h) !! r = None).
Proof.
  intros Hr. rewrite summaryPendingInfluence_lookup, Hr. cbn [gcExpired].
  destruct (IsEnd op) eqn:He; cbn [andb].
  - destruct (Z.ltb_spec (GetStartTime op + GetMaxZombieDuration) Now) as [Hlt | Hge].
    + split; [split; auto | split; [left; reflexivity | auto]].
    + split; [split; [discriminate | intros [_ ?]; lia] |].
      split; [right; reflexivity | intros; lia].
  - split; [split; [discriminate | intros [? _]; discriminate] |].
    split; [right; reflexivity | intros; discriminate].
Qed.

End Ledger.

(** C5, as stated, fails: the operator of region 7 started at 0 and ended
    at 95; at 100, with a zombie duration of 10, it has been finished for 5,
    which is not more than 10, and its entry is removed all the same. *)
Lemma C5_recently_finished_is_removed :
  let c := Demo.demo Demo.justEnded in
  regionPendings Demo.pending7 !! 7 = Some (Some Demo.op7) /\
  IsEnd (Cluster := c) Demo.op7 = true /\
  Now (Cluster := c) - GetFinishTime (Cluster := c) Demo.op7
    <= GetMaxZombieDuration (Cluster := c) /\
  regionPendings (summaryPendingInfluence (cluster := c) Demo.pending7) !! 7 = None.
Proof. cbv zeta. repeat split; vm_compute; congruence. Qed.

Lemma C5_gc_counts_from_start_witness :
  let c := Demo.demo Demo.justEnded in
  regionPendings Demo.pending7 !! 7 = Some (Some Demo.op7) /\
  (regionPendings (summaryPendingInfluence (cluster := c) Demo.pending7) !! 7 = None <->
     IsEnd (Cluster := c) Demo.op7 = true /\
     GetStartTime (Cluster := c) Demo.op7 + GetMaxZombieDuration (Cluster := c)
       < Now (Cluster := c)).
Proof.
  cbv zeta.
  assert (H : regionPendings Demo.pending7 !! 7 = Some (Some Demo.op7)) by reflexivity.
  split; [exact H |].
  exact (proj1 (C5_gc_counts_from_start (cluster := Demo.demo Demo.justEnded)
                  Demo.pending7 7 Demo.op7 H)).
Defined.

(* --------------------------------------------------------------------- *)
(* Registration of a batch                                               *)
(* --------------------------------------------------------------------- *)

Section Registration.
Context {RegionInfo : Type}.
Implicit Types (h : multiDimensionScheduler) (deci : decision RegionInfo).
Implicit Types (batch : list (Operator * loadInfluence)).

(* What a registration leaves alone *)
Lemma addPendingInfluence_control h op deci infl :
  let h' := fst (addPendingInfluence h op deci infl) in
  balanceRatio h' = balanceRatio h /\
  relaxBalanceCondition h' = relaxBalanceCondition h /\
  splitTrigeCount h' = splitTrigeCount h /\
  hasSplit h' = hasSplit h /\ needInit h' = needInit h /\
  pendingSums h' = pendingSums h /\ minExpLoads h' = minExpLoads h.
Proof.
  unfold addPendingInfluence. cbn zeta.
  destruct (regionPendings h !! RegionID op); cbn; auto 10.
Qed.

Lemma addPendingInfluence_sub h op deci infl :
  regionPendings h ⊆ regionPendings (fst (addPendingInfluence h op deci infl)) /\
  exists l, pendings (fst (addPendingInfluence h op deci infl)) = l ++ pendings h.
Proof.
  unfold addPendingInfluence. cbn zeta.
  destruct (regionPendings h !! RegionID op) eqn:E; cbn.
  - split; [reflexivity | exists []; reflexivity].
  - split; [by apply insert_subseteq | eexists [_]; reflexivity].
Qed.

Lemma registerPendings_control h deci batch :
  let h' := fst (registerPendings h deci batch) in
  balanceRatio h' = balanceRatio h /\
  relaxBalanceCondition h' = relaxBalanceCondition h /\
  splitTrigeCount h' = splitTrigeCount h /\
  hasSplit h' = hasSplit h /\ needInit h' = needInit h /\
  pendingSums h' = pendingSums h /\ minExpLoads h' = minExpLoads h.
Proof.
  revert h. induction batch as [| [op infl] rest IH]; intros h; cbn; [auto 10 |].
  pose proof (addPendingInfluence_control h op deci infl) as Hc.
  destruct (addPendingInfluence h op deci infl) as [h1 ok]. cbn in Hc.
  destruct ok; cbn; [| exact Hc].
  specialize (IH h1). cbn in IH.
  destruct Hc as (? & ? & ? & ? & ? & ? & ?).
  destruct IH as (? & ? & ? & ? & ? & ? & ?).
  repeat split; congruence.
Qed.

Lemma registerPendings_sub h deci batch :
  regionPendings h ⊆ regionPendings (fst (registerPendings h deci batch)) /\
  exists l, pendings (fst (registerPendings h deci batch)) = l ++ pendings h.
Proof.
  revert h. induction batch as [| [op infl] rest IH]; intros h; cbn.
  - split; [reflexivity | exists []; reflexivity].
  - pose proof (addPendingInfluence_sub h op deci infl) as [Hs [l Hl]].
    destruct (addPendingInfluence h op deci infl) as [h1 ok]. cbn in Hs, Hl.
    destruct ok; cbn; [| eauto].
    destruct (IH h1) as [Hs' [l' Hl']]. split.
    + etrans; eassumption.
    + exists (l' ++ l). rewrite Hl', Hl. by rewrite app_assoc.
Qed.

(* After a registration that succeeded, every operator of the batch owns
   the entry of its region, which did not exist before, and its influence
   is in the pendings set *)
Lemma registerPendings_ok h deci batch h' :
  registerPendings h deci batch = (h', true) ->
  forall op infl, (op, infl) ∈ batch ->
    regionPendings h !! RegionID op = None /\
    regionPendings h' !! RegionID op = Some (Some op) /\
    newPendingLoadInfluence op (srcStoreID deci) (dstStoreID deci) infl
      ∈ pendings h'.
Proof.
  revert h. induction batch as [| [op0 infl0] rest IH]; intros h Hreg op infl Hin.
  - by apply elem_of_nil in Hin.
  - cbn in Hreg.
    destruct (regionPendings h !! RegionID op0) eqn:E0.
    + rewrite addPendingInfluence_conflict in Hreg by eauto. discriminate.
    + rewrite addPendingInfluence_fresh in Hreg by exact E0.
      set (h1 := set_ledger h _ _) in Hreg.
      pose proof (registerPendings_sub h1 deci rest) as [Hs [l Hl]].
      rewrite Hreg in Hs, Hl. cbn [fst] in Hs, Hl.
      apply elem_of_cons in Hin as [Heq | Hin].
      * inversion Heq; subst op0 infl0. split; [exact E0 |]. split.
        -- eapply lookup_weaken; [| exact Hs].
           subst h1. cbn. apply lookup_insert_eq.
        -- rewrite Hl. apply elem_of_app. right. subst h1. cbn. left.
      * destruct (IH h1 Hreg op infl Hin) as (Hn & Hs' & Hp).
        split; [| split; assumption].
        subst h1. cbn in Hn.
        destruct (decide (RegionID op0 = RegionID op)) as [Heq | Hne].
        -- rewrite Heq, lookup_insert_eq in Hn. discriminate.
        -- by rewrite lookup_insert_ne in Hn.
Qed.

(* A registration that fails after a prefix leaves the ledger as the prefix
   made it *)
Lemma registerPendings_app_fail h deci pre op infl rest h1 :
  registerPendings h deci pre = (h1, true) ->
  is_Some (regionPendings h1 !! RegionID op) ->
  registerPendings h deci (pre ++ (op, infl) :: rest) = (h1, false).
Proof.
  revert h. induction pre as [| [op0 infl0] pre IH]; intros h Hreg Hsome; cbn in *.
  - inversion Hreg; subst h1.
    by rewrite addPendingInfluence_conflict.
  - destruct (addPendingInfluence h op0 deci infl0) as [h2 ok].
    destruct ok; [| discriminate]. by apply IH.
Qed.

End Registration.

(* --------------------------------------------------------------------- *)
(* The decision loop                                                     *)
(* --------------------------------------------------------------------- *)

Section Cycle.
Context {RegionInfo CoreStore Filter : Type}.
Context {cluster : Cluster RegionInfo CoreStore Filter}.
Implicit Types (h : multiDimensionScheduler) (b : multiBalancer RegionInfo).
Implicit Types (batch : list (Operator * loadInfluence)).

Lemma emit_fail b h store dst p batch h1 :
  registerPendings h (cur b) batch = (h1, false) ->
  emit b h store dst p batch = ((b, h1), []).
Proof. intros H. unfold emit. rewrite H. reflexivity. Qed.

Lemma emit_ok b h store dst p batch h1 :
  registerPendings h (cur b) batch = (h1, true) ->
  emit b h store dst p batch =
    ((set_scheduledRegions
        (set_storeInfos b (migratePeer (storeInfos b) (id store) (id dst) p
                                       (opTy (cur b))))
        ({[regionID p]} ∪ scheduledRegions b),
      set_splitTrigeCount h1 0), map fst batch).
Proof. intros H. unfold emit. rewrite H. reflexivity. Qed.

(* An emission whose batch is empty registers nothing and still migrates
   the peer, marks the region and resets the split counter *)
Lemma emit_nil b h store dst p :
  emit b h store dst p [] =
    ((set_scheduledRegions
        (set_storeInfos b (migratePeer (storeInfos b) (id store) (id dst) p
                                       (opTy (cur b))))
        ({[regionID p]} ∪ scheduledRegions b),
      set_splitTrigeCount h 0), []).
Proof. reflexivity. Qed.

(* What an emission does to the state, whatever the batch *)
Lemma emit_spec b h store dst p batch b' h' ops :
  emit b h store dst p batch = ((b', h'), ops) ->
  regionPendings h ⊆ regionPendings h' /\
  scheduledRegions b ⊆ scheduledRegions b' /\
  relaxBalanceCondition h' = relaxBalanceCondition h /\
  balanceRatio h' = balanceRatio h /\
  (forall op, op ∈ ops ->
     regionPendings h !! RegionID op = None /\
     regionPendings h' !! RegionID op = Some (Some op)) /\
  (ops <> [] -> splitTrigeCount h' = 0) /\
  (splitTrigeCount h' = 0 \/ splitTrigeCount h' = splitTrigeCount h).
Proof.
  unfold emit. intros H.
  pose proof (registerPendings_sub h (cur b) batch) as [Hs _].
  pose proof (registerPendings_control h (cur b) batch) as Hc. cbn in Hc.
  destruct Hc as (Hr & Hx & Hn & _).
  destruct (registerPendings h (cur b) batch) as [h1 ok] eqn:Hreg.
  cbn [fst] in *.
  destruct ok; injection H as <- <- <-; cbn.
  - split; [exact Hs |]. split; [set_solver |]. split; [exact Hx |].
    split; [exact Hr |]. split; [| split; [reflexivity | by left]].
    intros op Hop.
    apply list_elem_of_fmap in Hop as [[o i] [-> Hin]].
    destruct (registerPendings_ok _ _ _ _ Hreg o i Hin) as (? & ? & _).
    by split.
  - split; [exact Hs |]. split; [reflexivity |]. split; [exact Hx |].
    split; [exact Hr |]. split; [| split; [congruence | by right]].
    intros op Hop. by apply elem_of_nil in Hop.
Qed.

Lemma upToBalance_refl h : upToBalance h h.
Proof. exists (balanceRatio h), (relaxBalanceCondition h). by destruct h. Qed.

Lemma upToBalance_trans h1 h2 h3 :
  upToBalance h1 h2 -> upToBalance h2 h3 -> upToBalance h1 h3.
Proof. intros (r & f & ->) (r' & f' & ->). by exists r', f'. Qed.

Lemma sameSnapshot_refl b : sameSnapshot b b.
Proof. by repeat split. Qed.

Lemma sameSnapshot_trans b1 b2 b3 :
  sameSnapshot b1 b2 -> sameSnapshot b2 b3 -> sameSnapshot b1 b3.
Proof. unfold sameSnapshot. intros (? & ? & ? & ?) (? & ? & ? & ?). repeat split; congruence. Qed.

(* The loop over the peers either falls through, the scheduler untouched,
   or returns what an emission returns *)
Lemma peerLoop_spec store maxID maxLoad sorted b h :
  match peerLoop store maxID maxLoad sorted b h with
  | Next (b', h') => h' = h /\ sameSnapshot b b'
  | Return (b', h') ops =>
      exists b2 dst p,
        sameSnapshot b b2 /\
        (regionID p ∉ scheduledRegions b) /\
        emit b2 h store dst p (buildOperators b2) = ((b', h'), ops)
  end.
Proof.
  revert b. induction sorted as [| [p rl] rest IH]; intros b; cbn.
  - split; [reflexivity | apply sameSnapshot_refl].
  - destruct (decide (regionID p ∈ scheduledRegions b)) as [Hin | Hnin];
      [apply IH |].
    destruct (Qltb _ (balanceRatio h) || Qltb _ _);
      [split; [reflexivity | apply sameSnapshot_refl] |].
    assert (Hstep : forall b1, sameSnapshot b b1 ->
      match peerLoop store maxID maxLoad rest b1 h with
      | Next (b', h') => h' = h /\ sameSnapshot b b'
      | Return (b', h') ops =>
          exists b2 dst p0,
            sameSnapshot b b2 /\
            (regionID p0 ∉ scheduledRegions b) /\
            emit b2 h store dst p0 (buildOperators b2) = ((b', h'), ops)
      end).
    { intros b1 Hb1. specialize (IH b1).
      destruct (peerLoop store maxID maxLoad rest b1 h) as [[b' h'] ops | [b' h']].
      - destruct IH as (b2 & dst & p0 & Hs & Hn & He).
        exists b2, dst, p0. split; [eapply sameSnapshot_trans; eassumption |].
        split; [| exact He].
        destruct Hb1 as (_ & _ & <- & _). exact Hn.
      - destruct IH as [-> Hs]. split; [reflexivity |].
        eapply sameSnapshot_trans; eassumption. }
    destruct (Qltb _ (1 - balanceRatio h));
      [apply Hstep; by repeat split |].
    destruct (getRegion (regionID p)) as [rg |];
      [| apply Hstep; by repeat split].
    destruct (pickBestDstStore _ h maxID) as [[dst |] cur2] eqn:Hpick;
      [| apply Hstep; by repeat split].
    destruct (emit _ h store dst p _) as [[b' h'] ops] eqn:He.
    eexists _, dst, p. split; [| split; [exact Hnin | exact He]].
    by repeat split.
Qed.

(* The loop over the stores either falls through, the scheduler the same
   up to its balance ratio and relax flag, or returns what an emission
   returns *)
Lemma storeLoop_spec stores b h :
  match storeLoop stores b h with
  | Next (b', h') => upToBalance h h' /\ sameSnapshot b b'
  | Return (b', h') ops =>
      exists h1 b2 store dst p,
        upToBalance h h1 /\ sameSnapshot b b2 /\
        (regionID p ∉ scheduledRegions b) /\
        emit b2 h1 store dst p (buildOperators b2) = ((b', h'), ops)
  end.
Proof.
  revert b h. induction stores as [| store rest IH]; intros b h; cbn.
  - split; [apply upToBalance_refl | apply sameSnapshot_refl].
  - destruct (getMaxLoadInfo store (allowedDimensions b)) as [maxID maxLoad].
    destruct (Qleb maxLoad (1 + balanceRatio h)); [apply IH |].
    set (h1 := if relaxBalanceCondition h then _ else h).
    assert (H1 : upToBalance h h1).
    { subst h1. destruct (relaxBalanceCondition h);
        [eexists _, _; reflexivity | apply upToBalance_refl]. }
    pose proof (peerLoop_spec store maxID maxLoad
                  (buildSortedPeers store maxID) b h1) as Hp.
    destruct (peerLoop store maxID maxLoad _ b h1) as [[b' h'] ops | [b' h']].
    + destruct Hp as (b2 & dst & p & Hs & Hn & He).
      by exists h1, b2, store, dst, p.
    + destruct Hp as [-> Hs]. specialize (IH b' h1).
      destruct (storeLoop rest b' h1) as [[b'' h''] ops | [b'' h'']].
      * destruct IH as (h2 & b2 & st & dst & p & Hu & Hs' & Hn & He).
        exists h2, b2, st, dst, p.
        split; [eapply upToBalance_trans; eassumption |].
        split; [eapply sameSnapshot_trans; eassumption |].
        split; [| exact He].
        destruct Hs as (_ & _ & <- & _). exact Hn.
      * destruct IH as [Hu Hs'].
        split; [eapply upToBalance_trans; eassumption |].
        eapply sameSnapshot_trans; eassumption.
Qed.

End Cycle.

(* --------------------------------------------------------------------- *)
(* The split fallback and the whole cycle                                *)
(* --------------------------------------------------------------------- *)

(* Nothing is a member of the empty list of operators *)
Ltac no_ops :=
  intros;
  match goal with
  | H : _ ∈ [] |- _ => by apply elem_of_nil in H
  end.

Section Fallback.
Context {RegionInfo CoreStore Filter : Type}.
Context {cluster : Cluster RegionInfo CoreStore Filter}.
Implicit Types (h : multiDimensionScheduler) (b : multiBalancer RegionInfo).

Lemma splitInv_refl h : splitInv h h [].
Proof.
  split; [reflexivity |]. split; [reflexivity |]. split; [reflexivity |].
  split; [reflexivity |]. no_ops.
Qed.

Lemma splitInv_drop h0 h retOps : splitInv h0 h retOps -> splitInv h0 h [].
Proof.
  intros (? & ? & ? & ? & _). do 4 (split; [assumption |]). no_ops.
Qed.

Lemma splitInv_hasSplit h0 h retOps f :
  splitInv h0 h retOps -> splitInv h0 (set_hasSplit h f) retOps.
Proof. intros H. exact H. Qed.

(* One successful registration inside the loops of processSplit *)
Lemma splitInv_register h0 h retOps deci batch h1 :
  splitInv h0 h retOps ->
  registerPendings (RegionInfo := RegionInfo) h deci batch = (h1, true) ->
  splitInv h0 h1 (retOps ++ map fst batch).
Proof.
  intros (Hs & Hc & Hx & Hr & Hops) Hreg.
  pose proof (registerPendings_sub h deci batch) as [Hs1 _].
  pose proof (registerPendings_control h deci batch) as Hctl.
  rewrite Hreg in Hs1, Hctl. cbn in Hs1, Hctl.
  destruct Hctl as (Hr1 & Hx1 & Hc1 & _).
  split; [etrans; eassumption |].
  split; [congruence |]. split; [congruence |]. split; [congruence |].
  intros op Hop. apply elem_of_app in Hop as [Hop | Hop].
  - destruct (Hops op Hop) as [Hn Hp]. split; [exact Hn |].
    eapply lookup_weaken; eassumption.
  - apply list_elem_of_fmap in Hop as [[o i] [-> Hin]].
    destruct (registerPendings_ok _ _ _ _ Hreg o i Hin) as (Hn & Hp & _).
    split; [| exact Hp].
    cbn [fst]. destruct (regionPendings h0 !! RegionID o) eqn:E; [| reflexivity].
    eapply lookup_weaken in E; [| exact Hs]. congruence.
Qed.

Lemma splitInv_register_fail h0 h retOps deci batch h1 :
  splitInv h0 h retOps ->
  registerPendings (RegionInfo := RegionInfo) h deci batch = (h1, false) ->
  splitInv h0 h1 [].
Proof.
  intros (Hs & Hc & Hx & Hr & Hops) Hreg.
  pose proof (registerPendings_sub h deci batch) as [Hs1 _].
  pose proof (registerPendings_control h deci batch) as Hctl.
  rewrite Hreg in Hs1, Hctl. cbn in Hs1, Hctl.
  destruct Hctl as (Hr1 & Hx1 & Hc1 & _).
  split; [etrans; eassumption |].
  split; [congruence |]. split; [congruence |]. split; [congruence |].
  no_ops.
Qed.

Lemma splitPeers_spec h0 store maxID thr cands h retOps sum :
  splitInv h0 h retOps ->
  match splitPeers store maxID thr cands h retOps sum with
  | Next (h', retOps') => splitInv h0 h' retOps'
  | Return (h', _) r => r = [] /\ splitInv h0 h' []
  end.
Proof.
  revert h retOps sum.
  induction cands as [| p rest IH]; intros h retOps sum Hinv;
    cbn [splitPeers]; [exact Hinv |].
  destruct (regionPendings h !! regionID p); [by apply IH |].
  destruct (splitRatioGe1 _ _); [by apply IH |].
  match goal with
  | |- context [registerPendings h ?d ?bt] =>
      destruct (registerPendings h d bt) as [h1 ok] eqn:Hreg
  end.
  destruct ok.
  - pose proof (splitInv_register _ _ _ _ _ _ Hinv Hreg) as Hinv1.
    destruct (Qleb thr _); [exact Hinv1 |].
    apply IH. exact Hinv1.
  - split; [reflexivity |]. eapply splitInv_register_fail; eassumption.
Qed.

Lemma splitStores_spec h0 stores b h retOps :
  splitInv h0 h retOps ->
  match splitStores stores b h retOps with
  | Next (h', retOps') => splitInv h0 h' retOps'
  | Return (h', _) r => r = [] /\ splitInv h0 h' []
  end.
Proof.
  revert h retOps.
  induction stores as [| store rest IH]; intros h retOps Hinv;
    cbn [splitStores]; [exact Hinv |].
  destruct (splitCandidates b !! id store) as [cands |]; [| by apply IH].
  destruct (getMaxLoadInfo store (allowedDimensions b)) as [maxID maxLoad].
  destruct (Qleb maxLoad _); [by apply IH |].
  pose proof (splitPeers_spec h0 store maxID
                (maxLoad - 1 - balanceRatio h)%Q cands h retOps 0 Hinv) as Hp.
  destruct (splitPeers store maxID _ cands h retOps 0) as [[h' ro] r | [h' ro]].
  - exact Hp.
  - by apply IH.
Qed.

(* processSplit: the counter goes up by one, operators come out only when
   it reaches 5, nothing is removed from the ledger, and every operator
   that comes out owns the entry of its region, which is new *)
Lemma processSplit_spec b h :
  let h' := fst (processSplit b h) in
  let ops := snd (processSplit b h) in
  splitTrigeCount h' = wrapInt (splitTrigeCount h + 1) /\
  (ops <> [] -> splitTrigeCount h' = 5) /\
  regionPendings h ⊆ regionPendings h' /\
  relaxBalanceCondition h' = relaxBalanceCondition h /\
  balanceRatio h' = balanceRatio h /\
  forall op, op ∈ ops ->
    regionPendings h !! RegionID op = None /\
    regionPendings h' !! RegionID op = Some (Some op).
Proof.
  unfold processSplit.
  set (h1 := set_splitTrigeCount h (wrapInt (splitTrigeCount h + 1))).
  destruct (decide (splitTrigeCount h1 = 5)) as [H5 | Hn5].
  - pose proof (splitStores_spec h1 (storeInfos b) b h1 [] (splitInv_refl h1)) as Hs.
    destruct (splitStores (storeInfos b) b h1 []) as [[h2 ro] r | [h2 ro]]; cbn.
    + destruct Hs as [-> (Hsub & Hc & Hx & Hr & Hops)].
      split; [exact Hc |]. split; [congruence |]. split; [exact Hsub |].
      split; [exact Hx |]. split; [exact Hr |]. no_ops.
    + destruct Hs as (Hsub & Hc & Hx & Hr & Hops).
      split; [exact Hc |]. split; [congruence |]. split; [exact Hsub |].
      split; [exact Hx |]. split; [exact Hr |]. exact Hops.
  - cbn. split; [reflexivity |]. split; [congruence |].
    split; [reflexivity |]. split; [reflexivity |]. split; [reflexivity |].
    no_ops.
Qed.

(* solveMultiLoads: nothing is removed from the ledger or from the
   scheduled regions, every operator that comes out owns the entry of its
   region, which is new, and the split counter is reset, kept (no operator
   comes out then) or one higher (operators come out only at 5) *)
Lemma solveMultiLoads_spec b h b' h' ops :
  solveMultiLoads b h = ((b', h'), ops) ->
  regionPendings h ⊆ regionPendings h' /\
  scheduledRegions b ⊆ scheduledRegions b' /\
  (forall op, op ∈ ops ->
     regionPendings h !! RegionID op = None /\
     regionPendings h' !! RegionID op = Some (Some op)) /\
  (splitTrigeCount h' = 0 \/
   (splitTrigeCount h' = splitTrigeCount h /\ ops = []) \/
   (splitTrigeCount h' = wrapInt (splitTrigeCount h + 1) /\
    (ops <> [] -> splitTrigeCount h' = 5))).
Proof.
  unfold solveMultiLoads. intros Hsolve.
  destruct (skipSchedule b).
  { injection Hsolve as <- <- <-.
    split; [reflexivity |]. split; [reflexivity |]. split; [no_ops |].
    right. left. by split. }
  cbv zeta in Hsolve.
  match type of Hsolve with
  | context [storeLoop ?l ?bb h] =>
      pose proof (storeLoop_spec l bb h) as Hl;
      destruct (storeLoop l bb h) as [[bx hx] opsx | [b3 h3]]
  end.
  - injection Hsolve as -> -> ->.
    destruct Hl as (h1 & b2 & store & dst & p & (r & f & ->) & Hs & Hn & He).
    apply emit_spec in He as (Hsub & Hsch & _ & _ & Hops & H0 & Hc).
    destruct Hs as (_ & _ & Hsc & _). cbn in Hsc.
    split; [exact Hsub |]. split; [by rewrite Hsc in Hsch |].
    split; [exact Hops |].
    destruct Hc as [Hc | Hc]; [by left |].
    destruct ops as [| o ops]; [right; left; by split |].
    left. by apply H0.
  - destruct Hl as [(r & f & ->) (_ & _ & Hsc & _)]. cbn in Hsc.
    match type of Hsolve with
    | context [if negb ?x && ?y then ?u else ?v] =>
        assert (H4 : exists r' f', (if negb x && y then u else v)
                                   = set_balance h r' f')
          by (destruct (negb x && y); eexists _, _; reflexivity);
        destruct H4 as (r' & f' & H4); rewrite H4 in Hsolve
    end.
    destruct (Qltb _ _).
    + pose proof (processSplit_spec b3 (set_balance h r' f'))
        as (Hc & H5 & Hsub & _ & _ & Hops).
      destruct (processSplit b3 (set_balance h r' f')) as [h5 ops5].
      injection Hsolve as <- <- <-. cbn in *.
      split; [exact Hsub |]. split; [by rewrite Hsc |].
      split; [exact Hops |]. right. right. by split.
    + injection Hsolve as <- <- <-. cbn.
      split; [reflexivity |]. split; [by rewrite Hsc |].
      split; [no_ops |].
      right. left. by split.
Qed.

End Fallback.

(* --------------------------------------------------------------------- *)
(* The cycle returns what its emission returns                           *)
(* --------------------------------------------------------------------- *)

Section Emission.
Context {RegionInfo CoreStore Filter : Type}.
Context {cluster : Cluster RegionInfo CoreStore Filter}.
Implicit Types (h : multiDimensionScheduler) (b : multiBalancer RegionInfo).

(* The loop over the peers returns what the emission returns for the peer
   and the destination that it finds, and falls through when it finds
   none *)
Lemma peerLoop_findPeer store maxID maxLoad sorted b h :
  peerLoop store maxID maxLoad sorted b h
  = match findPeer store maxID maxLoad sorted b h with
    | Next b' => Next (b', h)
    | Return b2 (dst, p) =>
        let '(s, ops) := emit b2 h store dst p (buildOperators b2) in
        Return s ops
    end.
Proof.
  revert b. induction sorted as [| [p rl] rest IH]; intros b;
    cbn [peerLoop findPeer]; [reflexivity |].
  destruct (decide (regionID p ∈ scheduledRegions b)); [apply IH |].
  cbv zeta.
  destruct (Qltb _ (balanceRatio h) || Qltb _ _); [reflexivity |].
  destruct (Qltb _ (1 - balanceRatio h)); [apply IH |].
  cbn [region].
  destruct (getRegion (regionID p)) as [rg |]; [| apply IH].
  destruct (pickBestDstStore _ h maxID) as [[dst |] cur2];
    [reflexivity | apply IH].
Qed.

Lemma storeLoop_findStore stores b h :
  storeLoop stores b h
  = match findStore stores b h with
    | Next s => Next s
    | Return (b2, h1) (store, dst, p) =>
        let '(s, ops) := emit b2 h1 store dst p (buildOperators b2) in
        Return s ops
    end.
Proof.
  revert b h. induction stores as [| store rest IH]; intros b h;
    cbn [storeLoop findStore]; [reflexivity |].
  destruct (getMaxLoadInfo store (allowedDimensions b)) as [maxID maxLoad].
  destruct (Qleb maxLoad (1 + balanceRatio h)); [apply IH |].
  cbv zeta. rewrite peerLoop_findPeer.
  destruct (findPeer store maxID maxLoad _ b _) as [b2 [dst p] | b'].
  - by destruct (emit b2 _ store dst p (buildOperators b2)) as [s ops].
  - apply IH.
Qed.

(* A cycle that comes to an emission returns what the emission returns *)
Lemma solveMultiLoads_emission b0 h0 b h (store dst : storeInfo)
    (p : peerInfo) :
  emissionOf b0 h0 = Some (b, h, store, dst, p) ->
  solveMultiLoads b0 h0 = emit b h store dst p (buildOperators b).
Proof.
  unfold emissionOf, solveMultiLoads.
  destruct (skipSchedule b0); [discriminate |].
  cbv zeta. rewrite storeLoop_findStore.
  destruct (findStore _ _ h0) as [[b3 h3] [[st d] q] | s]; [| discriminate].
  intros [= -> -> -> -> ->].
  by destruct (emit b h store dst p (buildOperators b)) as [s ops].
Qed.

End Emission.

(* --------------------------------------------------------------------- *)
(* Ledger conflicts                                                      *)
(* --------------------------------------------------------------------- *)

Section Conflicts.
Context {RegionInfo CoreStore Filter : Type}.
Context {cluster : Cluster RegionInfo CoreStore Filter}.
Implicit Types (h : multiDimensionScheduler) (b : multiBalancer RegionInfo).

(** C1: when the region of the operator already has an entry in the
    region-pending index, addPendingInfluence returns false and leaves the
    scheduler, hence the pendings set and the index, as they were. When
    this happens during the emission of solveMultiLoads, that is, when the
    cycle comes to its emission with this balancer and this scheduler and
    buildOperators gives this operator first, the emission returns nil and
    so do solveMultiLoads and the whole cycle of dispatch, with the
    balancer and the scheduler as they were at the emission: no peer is
    migrated, no region is marked as scheduled, the split counter is not
    reset, and no later peer, store or split is tried. Whichever operator
    of the batch the registration fails on, solveMultiLoads returns nil and
    not the operators registered before it. And no cycle that starts from
    this index lets the operator out. *)
Theorem C1_ledger_conflict h (op : Operator) (deci : decision RegionInfo)
    (infl : loadInfluence) b (store dst : storeInfo) (p : peerInfo)
    (rest : list (Operator * loadInfluence)) :
  is_Some (regionPendings h !! RegionID op) ->
  addPendingInfluence h op deci infl = (h, false) /\
  pendings (fst (addPendingInfluence h op deci infl)) = pendings h /\
  regionPendings (fst (addPendingInfluence h op deci infl)) = regionPendings h /\
  emit b h store dst p ((op, infl) :: rest) = ((b, h), []) /\
  (forall b0 h0,
     emissionOf b0 h0 = Some (b, h, store, dst, p) ->
     buildOperators b = (op, infl) :: rest ->
     solveMultiLoads b0 h0 = ((b, h), [])) /\
  (forall (st : State RegionInfo) b0 h0,
     prepare st = inr (b0, h0) ->
     emissionOf b0 h0 = Some (b, h, store, dst, p) ->
     buildOperators b = (op, infl) :: rest ->
     dispatch st = ({| sche := h; curBalancer := Some b |}, [])) /\
  (forall b0 h0 h2,
     emissionOf b0 h0 = Some (b, h, store, dst, p) ->
     registerPendings h (cur b) (buildOperators b) = (h2, false) ->
     solveMultiLoads b0 h0 = ((b, h2), [])) /\
  forall b0 h0,
    regionPendings h0 = regionPendings h ->
    op ∉ snd (solveMultiLoads b0 h0).
Proof.
  intros Hsome.
  rewrite (addPendingInfluence_conflict h op deci infl Hsome). cbn [fst].
  assert (Hemit : forall batch, batch = (op, infl) :: rest ->
            emit b h store dst p batch = ((b, h), [])).
  { intros batch ->. apply emit_fail. cbn [registerPendings].
    by rewrite addPendingInfluence_conflict. }
  split; [reflexivity |]. split; [reflexivity |]. split; [reflexivity |].
  split; [by apply Hemit |].
  split; [| split; [| split]].
  - intros b0 h0 He Hb.
    rewrite (solveMultiLoads_emission b0 h0 b h store dst p He).
    by apply Hemit.
  - intros st b0 h0 Hp He Hb. unfold dispatch. rewrite Hp.
    rewrite (solveMultiLoads_emission b0 h0 b h store dst p He).
    by rewrite (Hemit _ Hb).
  - intros b0 h0 h2 He Hreg.
    rewrite (solveMultiLoads_emission b0 h0 b h store dst p He).
    by apply emit_fail.
  - intros b0 h0 Heq Hin.
    destruct (solveMultiLoads b0 h0) as [[b' h'] ops] eqn:Hsolve.
    apply solveMultiLoads_spec in Hsolve as (_ & _ & Hops & _).
    destruct (Hops op Hin) as [Hnone _].
    rewrite Heq in Hnone. destruct Hsome as [v Hv]. congruence.
Qed.

(* The loops of processSplit never remove an entry from the ledger *)
Lemma splitPeers_sub (store : storeInfo) (maxID : Z) (thr : Q)
    (cands : list peerInfo) h (retOps : list Operator) (sum : Q) :
  match splitPeers store maxID thr cands h retOps sum with
  | Next (h', _) => regionPendings h ⊆ regionPendings h'
  | Return (h', _) r => r = [] /\ regionPendings h ⊆ regionPendings h'
  end.
Proof.
  revert h retOps sum.
  induction cands as [| p rest IH]; intros h retOps sum;
    cbn [splitPeers]; [reflexivity |].
  destruct (regionPendings h !! regionID p); [apply IH |].
  destruct (splitRatioGe1 _ _); [apply IH |].
  match goal with
  | |- context [registerPendings h ?d ?bt] =>
      pose proof (registerPendings_sub h d bt) as [Hs _];
      destruct (registerPendings h d bt) as [h1 ok]
  end.
  cbn [fst] in Hs. destruct ok; [| by split].
  destruct (Qleb thr _); [exact Hs |].
  match goal with
  | |- context [splitPeers store maxID thr rest ?hh ?ro ?sm] =>
      specialize (IH hh ro sm);
      destruct (splitPeers store maxID thr rest hh ro sm) as [[h' ro'] r | [h' ro']]
  end.
  - destruct IH as [-> IH]. split; [reflexivity |]. etrans; eassumption.
  - etrans; eassumption.
Qed.

(** C10: when the registration of a batch fails on an operator that is not
    the first, the entries and the influences registered for the operators
    before it stay in the ledger, while the emission returns nil: the
    balancer is untouched and no operator of the batch comes out. The same
    holds in processSplit: when its loop returns nil on a failed
    registration, the ledger still holds every entry it held before. *)
Theorem C10_registration_not_rolled_back h (deci : decision RegionInfo)
    (pre : list (Operator * loadInfluence)) (op : Operator)
    (infl : loadInfluence) (rest : list (Operator * loadInfluence))
    h1 b (store dst : storeInfo) (p : peerInfo) :
  pre <> [] ->
  registerPendings h deci pre = (h1, true) ->
  is_Some (regionPendings h1 !! RegionID op) ->
  registerPendings h deci (pre ++ (op, infl) :: rest) = (h1, false) /\
  (deci = cur b ->
   emit b h store dst p (pre ++ (op, infl) :: rest) = ((b, h1), [])) /\
  (forall o i, (o, i) ∈ pre ->
     regionPendings h !! RegionID o = None /\
     regionPendings h1 !! RegionID o = Some (Some o) /\
     newPendingLoadInfluence o (srcStoreID deci) (dstStoreID deci) i
       ∈ pendings h1) /\
  (forall s maxID thr cands retOps sum h' ro r,
     splitPeers s maxID thr cands h1 retOps sum = Return (h', ro) r ->
     r = [] /\ regionPendings h1 ⊆ regionPendings h').
Proof.
  intros _ Hpre Hsome.
  pose proof (registerPendings_app_fail h deci pre op infl rest h1 Hpre Hsome)
    as Hfail.
  split; [exact Hfail |]. split; [| split].
  - intros ->. by apply emit_fail.
  - intros o i Hin. exact (registerPendings_ok h deci pre h1 Hpre o i Hin).
  - intros s maxID thr cands retOps sum h' ro r Hsp.
    pose proof (splitPeers_sub s maxID thr cands h1 retOps sum) as Hs.
    by rewrite Hsp in Hs.
Qed.

End Conflicts.

Lemma C1_ledger_conflict_witness :
  let c := Demo.demo Demo.calm in
  exists (b : multiBalancer Z) (h : multiDimensionScheduler) (op : Operator),
    is_Some (regionPendings h !! RegionID op) /\
    RegionID op = 7 /\
    dispatch (cluster := c) conflict7
    = ({| sche := h; curBalancer := Some b |}, []).
Proof.
  cbv zeta.
  set (c := Demo.demo Demo.calm).
  set (P := match prepare (cluster := c) conflict7 with
            | inr x => x
            | inl _ => (Demo.snapshot Demo.calm, Demo.pending7)
            end).
  set (s0 := {| id := 0; loads := zeroLoads; hotPeers := ∅ |}).
  set (E := default (P, s0, s0, Demo.opsHeavy)
                    (emissionOf (cluster := c) (fst P) (snd P))).
  set (b := fst (fst (fst (fst E)))).
  set (h := snd (fst (fst (fst E)))).
  set (batch := buildOperators (cluster := c) b).
  set (op := fst (hd (Demo.op7, emptyInfluence) batch)).
  set (infl := snd (hd (Demo.op7, emptyInfluence) batch)).
  assert (Hp : prepare (cluster := c) conflict7 = inr (fst P, snd P))
    by (vm_compute; reflexivity).
  assert (He : emissionOf (cluster := c) (fst P) (snd P)
               = Some (b, h, snd (fst (fst E)), snd (fst E), snd E))
    by (vm_compute; reflexivity).
  assert (Hb : batch = (op, infl) :: tl batch) by (vm_compute; reflexivity).
  assert (Hl : regionPendings h !! RegionID op = Some (Some Demo.op7))
    by (vm_compute; reflexivity).
  assert (Hs : is_Some (regionPendings h !! RegionID op))
    by (rewrite Hl; eauto).
  exists b, h, op.
  split; [exact Hs |]. split; [vm_compute; reflexivity |].
  destruct (C1_ledger_conflict (cluster := c) h op (cur b) infl b
              (snd (fst (fst E))) (snd (fst E)) (snd E) (tl batch) Hs)
    as (_ & _ & _ & _ & _ & Hd & _).
  exact (Hd conflict7 (fst P) (snd P) Hp He Hb).
Defined.

Lemma C10_registration_not_rolled_back_witness :
  let c := Demo.demo Demo.calm in
  let h := sche Demo.st0 in
  let b := fst (newMultiBalancer (cluster := c) h) in
  let s := {| id := 1; loads := zeroLoads; hotPeers := ∅ |} in
  let p := {| regionID := 7; pi_storeID := 1; isLeader := true;
              pi_loads := zeroLoads; peerStat := None |} in
  let batch := [(Demo.op7, emptyInfluence); (Demo.op7, emptyInfluence)] in
  snd (emit (cluster := c) b h s s p batch) = [] /\
  regionPendings (snd (fst (emit (cluster := c) b h s s p batch))) !! 7
    = Some (Some Demo.op7) /\
  regionPendings h !! 7 = None.
Proof.
  cbv zeta.
  set (c := Demo.demo Demo.calm).
  set (h := sche Demo.st0).
  set (b := fst (newMultiBalancer (cluster := c) h)).
  assert (Hne : [(Demo.op7, emptyInfluence)] <> []) by discriminate.
  assert (Hpre : registerPendings h (cur b) [(Demo.op7, emptyInfluence)]
                 = (fst (registerPendings h (cur b) [(Demo.op7, emptyInfluence)]),
                    true)) by reflexivity.
  assert (Hsome : is_Some
            (regionPendings
               (fst (registerPendings h (cur b) [(Demo.op7, emptyInfluence)]))
               !! RegionID Demo.op7))
    by (exists (Some Demo.op7); reflexivity).
  destruct (C10_registration_not_rolled_back (cluster := c) h (cur b)
              [(Demo.op7, emptyInfluence)] Demo.op7 emptyInfluence [] _ b
              {| id := 1; loads := zeroLoads; hotPeers := ∅ |}
              {| id := 1; loads := zeroLoads; hotPeers := ∅ |}
              {| regionID := 7; pi_storeID := 1; isLeader := true;
                 pi_loads := zeroLoads; peerStat := None |}
              Hne Hpre Hsome) as (_ & He & Hin & _).
  specialize (He eq_refl). cbn [app] in He. rewrite He. cbn [fst snd].
  split; [reflexivity |].
  destruct (Hin Demo.op7 emptyInfluence) as (Hn & Hs & _); [left |].
  split; [exact Hs | exact Hn].
Defined.

(* --------------------------------------------------------------------- *)
(* The frame of a cycle                                                  *)
(* --------------------------------------------------------------------- *)

(* Projections of the scheduler out of its setters *)
Ltac fields :=
  cbn [relaxBalanceCondition splitTrigeCount needInit hasSplit balanceRatio
       regionPendings pendings pendingSums minExpLoads
       set_needInit set_hasSplit set_balance set_splitTrigeCount set_ledger
       set_pendingSums sche curBalancer fst snd] in *.

Section Frame.
Context {RegionInfo CoreStore Filter : Type}.
Context {cluster : Cluster RegionInfo CoreStore Filter}.
Implicit Types (h : multiDimensionScheduler) (b : multiBalancer RegionInfo).
Implicit Types (st : State RegionInfo).

Lemma summaryPendingInfluence_set_balance h r f :
  summaryPendingInfluence (set_balance h r f)
  = set_balance (summaryPendingInfluence h) r f.
Proof.
  unfold summaryPendingInfluence. cbn.
  by destruct (summaryPendingLoadInfluence (pendings h)).
Qed.

Lemma summaryPendingInfluence_control h :
  let h' := summaryPendingInfluence h in
  balanceRatio h' = balanceRatio h /\
  relaxBalanceCondition h' = relaxBalanceCondition h /\
  splitTrigeCount h' = splitTrigeCount h /\
  hasSplit h' = hasSplit h /\ needInit h' = needInit h.
Proof.
  unfold summaryPendingInfluence.
  by destruct (summaryPendingLoadInfluence (pendings h)).
Qed.

(* A new balancer has no scheduled region; building it changes at most
   needInit in the scheduler *)
Lemma newMultiBalancer_spec h :
  scheduledRegions (fst (newMultiBalancer h)) = ∅ /\
  exists f, snd (newMultiBalancer h) = set_needInit h f.
Proof.
  unfold newMultiBalancer, initHotPeerInfo, needSkipSchedule. cbv zeta.
  assert (Hid : h = set_needInit h (needInit h)) by by destruct h.
  destruct (allowedOf _ _); cbn [fst snd].
  - split; [reflexivity | by exists (needInit h)].
  - destruct (Qltb loadStableThresholdConst _); cbn [fst snd].
    + split; [reflexivity | by exists true].
    + split; [reflexivity | by exists (needInit h)].
Qed.

(* dispatch up to solveMultiLoads: it leaves the relax flag and the split
   counter alone; it goes on to solveMultiLoads when the mode is not
   positive and either no region is pending, and then on a new balancer, or
   the scheduler is neither relaxed nor splitting *)
Lemma prepare_spec st :
  match prepare st with
  | inl st' =>
      relaxBalanceCondition (sche st') = relaxBalanceCondition (sche st) /\
      splitTrigeCount (sche st') = splitTrigeCount (sche st) /\
      curBalancer st' = curBalancer st /\
      ~ observesNoPending cluster st
  | inr (b, h) =>
      GetHotSchedulerMode <= 0 /\
      relaxBalanceCondition h = relaxBalanceCondition (sche st) /\
      splitTrigeCount h = splitTrigeCount (sche st) /\
      ((pendingSeen cluster st = 0%nat /\ rebuilds cluster st) \/
       (pendingSeen cluster st <> 0%nat /\
        relaxBalanceCondition (sche st) = false)) /\
      ((rebuilds cluster st /\ scheduledRegions b = ∅) \/
       (pendingSeen cluster st <> 0%nat /\ curBalancer st = Some b /\
        needInit (sche st) = false))
  end.
Proof.
  unfold rebuilds, observesNoPending, pendingSeen, prepare.
  destruct (Z.ltb_spec 0 GetHotSchedulerMode) as [Hm | Hm].
  { repeat split; auto. intros [? _]. lia. }
  cbv zeta. rewrite summaryPendingInfluence_set_balance.
  pose proof (summaryPendingInfluence_control (sche st))
    as (Hr & Hx & Hc & Hs & Hi). cbv zeta in *.
  set (h2 := summaryPendingInfluence (sche st)) in *.
  assert (Hrelax : (if relaxBalanceCondition (sche st) then true else false)
                   = relaxBalanceCondition (sche st))
    by by destruct (relaxBalanceCondition (sche st)).
  unfold shouldWaitPendingOps. cbn [regionPendings set_balance].
  destruct (decide (size (regionPendings h2) = 0%nat)) as [Hz | Hnz].
  - (* no pending region: a new balancer *)
    set (h3 := set_needInit _ true).
    assert (Hb : balancerOfCycle (curBalancer st) h3
                 = (fst (newMultiBalancer h3),
                    set_needInit (snd (newMultiBalancer h3)) false)).
    { unfold balancerOfCycle.
      destruct (curBalancer st); cbn [needInit h3 set_needInit];
        by destruct (newMultiBalancer _). }
    rewrite Hb.
    destruct (newMultiBalancer_spec h3) as [Hsch [f Hf]].
    assert (Hre : exists h b h',
               newMultiBalancer h = (b, h') /\
               @inr (State RegionInfo) _ (fst (newMultiBalancer h3),
                    set_needInit (snd (newMultiBalancer h3)) false)
               = inr (b, set_needInit h' false)).
    { exists h3, (fst (newMultiBalancer h3)), (snd (newMultiBalancer h3)).
      split; [by destruct (newMultiBalancer h3) | reflexivity]. }
    split; [lia |].
    split; [rewrite Hf; subst h3; fields; reflexivity |].
    split; [rewrite Hf; subst h3; fields; exact Hc |].
    split; [left; split; [exact Hz | exact Hre]
           | left; split; [exact Hre | exact Hsch]].
  - cbn [relaxBalanceCondition hasSplit set_balance].
    destruct (relaxBalanceCondition (sche st) || hasSplit h2) eqn:Hw.
    + fields. split; [congruence |]. split; [exact Hc |]. split; [reflexivity |].
      intros [_ ?]. contradiction.
    + apply orb_false_iff in Hw as [Hw1 Hw2].
      assert (Hrf : relaxBalanceCondition (sche st) = false) by exact Hw1.
      unfold balancerOfCycle. cbn [needInit set_balance].
      destruct (curBalancer st) as [b0 |] eqn:Hcb.
      * destruct (needInit h2) eqn:Hni.
        -- set (h3 := set_balance h2 _ _).
           destruct (newMultiBalancer_spec h3) as [Hsch [f Hf]].
           destruct (newMultiBalancer h3) as [b' h'] eqn:Hnew.
           assert (Hh3r : relaxBalanceCondition h3
                          = relaxBalanceCondition (sche st)) by reflexivity.
           assert (Hh3c : splitTrigeCount h3 = splitTrigeCount h2)
             by reflexivity.
           cbn [fst snd] in *. subst h'. fields.
           split; [lia |]. split; [exact Hh3r |]. split; [congruence |].
           split; [right; by split |]. left. split; [| exact Hsch].
           exists h3, b', (set_needInit h3 f). by split.
        -- fields. split; [lia |]. split; [congruence |]. split; [exact Hc |].
           split; [right; by split |]. right.
           split; [exact Hnz |]. split; [reflexivity | congruence].
      * set (h3 := set_balance h2 _ _).
        destruct (newMultiBalancer_spec h3) as [Hsch [f Hf]].
        destruct (newMultiBalancer h3) as [b' h'] eqn:Hnew.
        assert (Hh3r : relaxBalanceCondition h3
                       = relaxBalanceCondition (sche st)) by reflexivity.
        assert (Hh3c : splitTrigeCount h3 = splitTrigeCount h2)
          by reflexivity.
        cbn [fst snd] in *. subst h'. fields.
        split; [lia |]. split; [exact Hh3r |]. split; [congruence |].
        split; [right; by split |]. left. split; [| exact Hsch].
        exists h3, b', (set_needInit h3 f). by split.
Qed.

End Frame.

(* --------------------------------------------------------------------- *)
(* The relaxation latch                                                  *)
(* --------------------------------------------------------------------- *)

Section Latch.
Context {RegionInfo CoreStore Filter : Type}.
Implicit Types (c : Cluster RegionInfo CoreStore Filter).
Implicit Types (st : State RegionInfo).

(* With the flag set, a cycle that does not observe zero pending regions
   returns before solveMultiLoads *)
Lemma dispatch_relaxed c st :
  relaxBalanceCondition (sche st) = true ->
  ~ observesNoPending c st ->
  relaxBalanceCondition (sche (fst (dispatch (cluster := c) st))) = true /\
  snd (dispatch (cluster := c) st) = [].
Proof.
  intros Hr Hn. unfold dispatch.
  pose proof (prepare_spec (cluster := c) st) as Hp.
  destruct (prepare (cluster := c) st) as [st' | [b h]].
  - destruct Hp as (Hx & _). cbn. split; [congruence | reflexivity].
  - destruct Hp as (Hm & _ & _ & [[Hz _] | [_ Hf]] & _).
    + exfalso. apply Hn. by split.
    + congruence.
Qed.

(* A cycle that clears the flag observed zero pending regions and built a
   new balancer *)
Lemma dispatch_unrelax c st :
  relaxBalanceCondition (sche st) = true ->
  relaxBalanceCondition (sche (fst (dispatch (cluster := c) st))) = false ->
  observesNoPending c st /\ rebuilds c st.
Proof.
  intros Hr Hf. unfold dispatch in Hf.
  pose proof (prepare_spec (cluster := c) st) as Hp.
  destruct (prepare (cluster := c) st) as [st' | [b h]].
  - destruct Hp as (Hx & _). cbn in Hf. congruence.
  - destruct Hp as (Hm & _ & _ & [[Hz Hre] | [_ Hf']] & _).
    + split; [by split | exact Hre].
    + congruence.
Qed.

(** C3: once relaxBalanceCondition is set, it stays set over every run of
    Schedule cycles none of which observes zero pending regions; and a
    cycle that clears it has observed zero pending regions and has built a
    new balancer. *)
Theorem C3_relax_latch (cs : list (Cluster RegionInfo CoreStore Filter)) st :
  relaxBalanceCondition (sche st) = true ->
  (neverIdle cs st -> relaxBalanceCondition (sche (run cs st)) = true) /\
  (forall c,
     relaxBalanceCondition (sche (fst (dispatch (cluster := c) st))) = false ->
     observesNoPending c st /\ rebuilds c st).
Proof.
  intros Hr. split.
  - revert st Hr. induction cs as [| c cs IH]; intros st Hr Hq; cbn in *.
    + exact Hr.
    + destruct Hq as [Hn Hq]. apply IH; [| exact Hq].
      by destruct (dispatch_relaxed c st Hr Hn).
  - intros c. by apply dispatch_unrelax.
Qed.

(* --------------------------------------------------------------------- *)
(* The scheduled regions                                                 *)
(* --------------------------------------------------------------------- *)

(** C6, amended: the scheduled-regions set belongs to the balancer, not to
    the cycle. A cycle that reaches solveMultiLoads either builds a new
    balancer, whose set is empty, or reuses the current balancer (regions
    are pending and needInit is unset) with the set as the earlier cycles
    left it; and solveMultiLoads never removes a region from the set. *)
Theorem C6_scheduled_regions_per_balancer c st
    (b : multiBalancer RegionInfo) (h : multiDimensionScheduler) :
  prepare (cluster := c) st = inr (b, h) ->
  ((rebuilds c st /\ scheduledRegions b = ∅) \/
   (curBalancer st = Some b /\ pendingSeen c st <> 0%nat /\
    needInit (sche st) = false)) /\
  (pendingSeen c st = 0%nat -> scheduledRegions b = ∅) /\
  scheduledRegions b
    ⊆ scheduledRegions (fst (fst (solveMultiLoads (cluster := c) b h))).
Proof.
  intros Hp. pose proof (prepare_spec (cluster := c) st) as Hs.
  rewrite Hp in Hs. destruct Hs as (_ & _ & _ & _ & Hb).
  split; [| split].
  - destruct Hb as [[Hre He] | (Hn & Hc & Hi)]; [left | right]; auto.
  - intros Hz. destruct Hb as [[_ He] | (Hn & _)]; [exact He | contradiction].
  - destruct (solveMultiLoads (cluster := c) b h) as [[b' h'] ops] eqn:E.
    by apply solveMultiLoads_spec in E as (_ & Hsub & _).
Qed.

End Latch.

(** C6, as stated, fails: on the small cluster the first cycle chooses
    region 7; the second cycle reuses the balancer and starts with region 7
    in its scheduled set, skips it for that reason and chooses region 8. *)
Lemma C6_scheduled_set_survives_cycle :
  let c := Demo.demo Demo.calm in
  let st1 := fst (dispatch (cluster := c) Demo.st0) in
  map RegionID (snd (dispatch (cluster := c) Demo.st0)) = [7] /\
  match prepare (cluster := c) st1 with
  | inr (b, _) =>
      elements (scheduledRegions b) = [7] /\ scheduledRegions b <> ∅
  | inl _ => False
  end /\
  map RegionID (snd (dispatch (cluster := c) st1)) = [8].
Proof.
  cbv zeta. split; [vm_compute; reflexivity |]. split.
  - destruct (prepare (cluster := Demo.demo Demo.calm)
                (fst (dispatch (cluster := Demo.demo Demo.calm) Demo.st0)))
      as [s | [b h]] eqn:E.
    + vm_compute in E. discriminate.
    + assert (He : elements (scheduledRegions b) = [7]).
      { assert (Hb : b = fst (match prepare (cluster := Demo.demo Demo.calm)
                  (fst (dispatch (cluster := Demo.demo Demo.calm) Demo.st0))
                  with inr x => x | inl _ => (b, h) end)) by by rewrite E.
        rewrite Hb. clear. vm_compute. reflexivity. }
      split; [exact He |]. intros Hempty. rewrite Hempty in He.
      by rewrite elements_empty in He.
  - vm_compute. reflexivity.
Qed.

Lemma C3_relax_latch_witness :
  let c := Demo.demo Demo.calm in
  relaxBalanceCondition (sche Demo.relaxed7) = true /\
  neverIdle [c; c] Demo.relaxed7 /\
  relaxBalanceCondition (sche (run [c; c] Demo.relaxed7)) = true.
Proof.
  cbv zeta.
  assert (Hr : relaxBalanceCondition (sche Demo.relaxed7) = true) by reflexivity.
  assert (Hq : neverIdle [Demo.demo Demo.calm; Demo.demo Demo.calm] Demo.relaxed7).
  { cbn [neverIdle]. split; [| split; [| exact I]].
    - intros [_ H]. vm_compute in H. discriminate.
    - intros [_ H]. vm_compute in H. discriminate. }
  split; [exact Hr |]. split; [exact Hq |].
  exact (proj1 (C3_relax_latch
                  [Demo.demo Demo.calm; Demo.demo Demo.calm]
                  Demo.relaxed7 Hr) Hq).
Defined.

Lemma C6_scheduled_regions_per_balancer_witness :
  let c := Demo.demo Demo.calm in
  let st1 := fst (dispatch (cluster := c) Demo.st0) in
  match prepare (cluster := c) st1 with
  | inr (b, h) =>
      (pendingSeen c st1 = 0%nat -> scheduledRegions b = ∅) /\
      scheduledRegions b
        ⊆ scheduledRegions (fst (fst (solveMultiLoads (cluster := c) b h)))
  | inl _ => False
  end.
Proof.
  cbv zeta.
  destruct (prepare (cluster := Demo.demo Demo.calm)
              (fst (dispatch (cluster := Demo.demo Demo.calm) Demo.st0)))
    as [s | [b h]] eqn:E.
  - vm_compute in E. discriminate.
  - exact (proj2 (C6_scheduled_regions_per_balancer
                    (Demo.demo Demo.calm) _ b h E)).
Defined.

(* --------------------------------------------------------------------- *)
(* The cadence of the split fallback                                     *)
(* --------------------------------------------------------------------- *)

Lemma mod_succ (M c : Z) :
  1 < M ->
  (c + 1) mod M = if c mod M =? M - 1 then 0 else c mod M + 1.
Proof.
  intros HM.
  pose proof (Z.mod_pos_bound c M ltac:(lia)) as Hb.
  rewrite Zplus_mod, (Z.mod_small 1) by lia.
  destruct (Z.eqb_spec (c mod M) (M - 1)) as [He | Hne].
  - rewrite He. replace (M - 1 + 1) with M by lia. apply Z_mod_same_full.
  - apply Z.mod_small. lia.
Qed.

Lemma two64_large : 5 < 2 ^ 64.
Proof. reflexivity. Qed.

Lemma splitDistance_range (c : Z) : 0 <= splitDistance c <= 5.
Proof.
  unfold splitDistance. pose proof two64_large as HM.
  set (M := 2 ^ 64) in *.
  pose proof (Z.mod_pos_bound c M ltac:(lia)).
  destruct (Z.leb_spec (c mod M) 4); lia.
Qed.

Lemma wrapInt_mod (z : Z) : wrapInt z mod 2 ^ 64 = z mod 2 ^ 64.
Proof.
  unfold wrapInt.
  assert (H63 : 2 ^ 63 = 2 ^ 63 mod 2 ^ 64) by reflexivity.
  set (M := 2 ^ 64). set (N := 2 ^ 63) in *.
  rewrite Zminus_mod, Zmod_mod, <- Zminus_mod.
  f_equal. lia.
Qed.

Lemma splitDistance_zero : splitDistance 0 = 4.
Proof. reflexivity. Qed.

Lemma splitDistance_five : splitDistance 5 = 5.
Proof. reflexivity. Qed.

(* A cycle brings the counter at most one cycle closer to firing *)
Lemma splitDistance_step (c c' : Z) :
  c' = 0 \/ c' = c \/ c' = wrapInt (c + 1) ->
  splitDistance c - 1 <= splitDistance c'.
Proof.
  intros [-> | [-> | ->]].
  - pose proof (splitDistance_range c). rewrite splitDistance_zero. lia.
  - lia.
  - unfold splitDistance. rewrite wrapInt_mod.
    pose proof two64_large as HM. set (M := 2 ^ 64) in *.
    pose proof (Z.mod_pos_bound c M ltac:(lia)) as Hb.
    rewrite (mod_succ M c) by lia.
    destruct (Z.eqb_spec (c mod M) (M - 1)) as [He | Hne].
    + destruct (Z.leb_spec (c mod M) 4); destruct (Z.leb_spec 0 4); lia.
    + destruct (Z.leb_spec (c mod M) 4);
        destruct (Z.leb_spec (c mod M + 1) 4); lia.
Qed.

Lemma splitDistance_fire (c : Z) : wrapInt (c + 1) = 5 -> splitDistance c = 0.
Proof.
  intros H.
  assert (Hm : (c + 1) mod 2 ^ 64 = 5).
  { rewrite <- wrapInt_mod, H. reflexivity. }
  unfold splitDistance.
  pose proof two64_large as HM. set (M := 2 ^ 64) in *.
  pose proof (Z.mod_pos_bound c M ltac:(lia)) as Hb.
  rewrite (mod_succ M c) in Hm by lia.
  destruct (Z.eqb_spec (c mod M) (M - 1)) as [He | Hne]; [discriminate |].
  assert (Hc : c mod M = 4) by lia.
  rewrite Hc. reflexivity.
Qed.

Section Cadence.
Context {RegionInfo CoreStore Filter : Type}.
Implicit Types (c : Cluster RegionInfo CoreStore Filter).
Implicit Types (st : State RegionInfo).

(* What one cycle does to the split counter *)
Lemma dispatch_counter c st :
  let st' := fst (dispatch (cluster := c) st) in
  let ops := snd (dispatch (cluster := c) st) in
  splitTrigeCount (sche st') = 0 \/
  (splitTrigeCount (sche st') = splitTrigeCount (sche st) /\ ops = []) \/
  (splitTrigeCount (sche st') = wrapInt (splitTrigeCount (sche st) + 1) /\
   (ops <> [] -> splitTrigeCount (sche st') = 5)).
Proof.
  unfold dispatch.
  pose proof (prepare_spec (cluster := c) st) as Hp.
  destruct (prepare (cluster := c) st) as [st' | [b h]].
  - destruct Hp as (_ & Hc & _). right. left. by split.
  - destruct Hp as (_ & _ & Hc & _).
    destruct (solveMultiLoads (cluster := c) b h) as [[b' h'] ops] eqn:E.
    apply solveMultiLoads_spec in E as (_ & _ & _ & Hk). cbn.
    rewrite <- Hc. exact Hk.
Qed.

Lemma run_app (cs1 cs2 : list (Cluster RegionInfo CoreStore Filter)) st :
  run (cs1 ++ cs2) st = run cs2 (run cs1 st).
Proof.
  revert st. induction cs1 as [| c cs1 IH]; intros st; cbn; [reflexivity |].
  apply IH.
Qed.

Lemma run_distance (cs : list (Cluster RegionInfo CoreStore Filter)) st :
  splitDistance (splitTrigeCount (sche st)) - Z.of_nat (length cs)
  <= splitDistance (splitTrigeCount (sche (run cs st))).
Proof.
  revert st. induction cs as [| c cs IH]; intros st; cbn [run length].
  - lia.
  - specialize (IH (fst (dispatch (cluster := c) st))).
    pose proof (dispatch_counter c st) as Hk. cbv zeta in Hk.
    assert (Hs : splitDistance (splitTrigeCount (sche st)) - 1
                 <= splitDistance
                      (splitTrigeCount (sche (fst (dispatch (cluster := c) st))))).
    { apply splitDistance_step.
      destruct Hk as [Hk | [[Hk _] | [Hk _]]]; auto. }
    lia.
Qed.

(* A cycle that fires the fallback finds the counter at 4 and leaves it
   at 5 *)
Lemma firesSplitAt_counter (cs : list (Cluster RegionInfo CoreStore Filter))
    st (n : nat) :
  firesSplitAt cs st n ->
  splitDistance (splitTrigeCount (sche (run (take n cs) st))) = 0 /\
  splitTrigeCount (sche (run (take (S n) cs) st)) = 5.
Proof.
  unfold firesSplitAt, opsAt, stateAfter. intros [Hops Hcnt].
  destruct (cs !! n) as [c |] eqn:Hc; [| congruence].
  rewrite (take_S_r _ _ _ Hc), run_app in Hcnt |- *. cbn [run] in Hcnt |- *.
  pose proof (dispatch_counter c (run (take n cs) st)) as Hk. cbv zeta in Hk.
  destruct Hk as [Hk | [[_ Hk] | [Hk H5]]]; [congruence | congruence |].
  specialize (H5 Hops). split; [| exact H5].
  apply splitDistance_fire. congruence.
Qed.

(** C9: processSplit raises the split counter by one each time it is
    reached; it emits only in the call that brings the counter to 5; a
    return of the decision loop with operators leaves the counter at 0; and
    in any run of Schedule cycles two cycles that emit through the fallback
    are more than five cycles apart. *)
Theorem C9_split_cadence :
  (forall c (b : multiBalancer RegionInfo) h,
     splitTrigeCount (fst (processSplit (cluster := c) b h))
     = wrapInt (splitTrigeCount h + 1)) /\
  (forall c (b : multiBalancer RegionInfo) h,
     snd (processSplit (cluster := c) b h) <> [] ->
     splitTrigeCount (fst (processSplit (cluster := c) b h)) = 5) /\
  (forall c stores (b : multiBalancer RegionInfo) h b' h' ops,
     storeLoop (cluster := c) stores b h = Return (b', h') ops ->
     ops <> [] -> splitTrigeCount h' = 0) /\
  (forall c st,
     snd (dispatch (cluster := c) st) <> [] ->
     splitTrigeCount (sche (fst (dispatch (cluster := c) st))) = 0 \/
     (splitTrigeCount (sche (fst (dispatch (cluster := c) st))) = 5 /\
      wrapInt (splitTrigeCount (sche st) + 1) = 5)) /\
  (forall (cs : list (Cluster RegionInfo CoreStore Filter)) st (i j : nat),
     (i < j)%nat -> firesSplitAt cs st i -> firesSplitAt cs st j ->
     (i + 5 < j)%nat).
Proof.
  split; [| split; [| split; [| split]]].
  - intros c b h. by destruct (processSplit_spec (cluster := c) b h).
  - intros c b h. by destruct (processSplit_spec (cluster := c) b h) as (_ & ? & _).
  - intros c stores b h b' h' ops Hl Hne.
    pose proof (storeLoop_spec (cluster := c) stores b h) as Hs.
    rewrite Hl in Hs.
    destruct Hs as (h1 & b2 & store & dst & p & _ & _ & _ & He).
    apply emit_spec in He as (_ & _ & _ & _ & _ & H0 & _). by apply H0.
  - intros c st Hne.
    pose proof (dispatch_counter c st) as Hk. cbv zeta in Hk.
    destruct Hk as [Hk | [[_ Hk] | [Hk H5]]]; [by left | congruence |].
    right. specialize (H5 Hne). split; [exact H5 | congruence].
  - intros cs st i j Hij Hi Hj.
    apply firesSplitAt_counter in Hi as [_ Hi5].
    apply firesSplitAt_counter in Hj as [Hj0 _].
    assert (Hsplit : take j cs = take (S i) cs ++ drop (S i) (take j cs)).
    { rewrite <- (take_drop (S i) (take j cs)) at 1.
      rewrite take_take. f_equal. f_equal. lia. }
    rewrite Hsplit, run_app in Hj0.
    pose proof (run_distance (drop (S i) (take j cs))
                  (run (take (S i) cs) st)) as Hd.
    rewrite Hj0, Hi5, splitDistance_five in Hd.
    rewrite length_drop, length_take in Hd. lia.
Qed.

End Cadence.

Lemma C9_split_cadence_witness :
  let c := Demo.demo Demo.oneBigRegion in
  let cs := repeat c 12 in
  firesSplitAt cs Demo.st0 4 /\
  forall j, (4 < j)%nat -> firesSplitAt cs Demo.st0 j -> (9 < j)%nat.
Proof.
  cbv zeta. split.
  - unfold firesSplitAt. split.
    + vm_compute. intros H. discriminate H.
    + vm_compute. intros H. discriminate H.
  - intros j Hj Hf.
    assert (H4 : firesSplitAt (repeat (Demo.demo Demo.oneBigRegion) 12)
                   Demo.st0 4).
    { unfold firesSplitAt. split.
      - vm_compute. intros H. discriminate H.
      - vm_compute. intros H. discriminate H. }
    pose proof (proj2 (proj2 (proj2 (proj2 C9_split_cadence)))
                  (repeat (Demo.demo Demo.oneBigRegion) 12) Demo.st0 4%nat j
                  Hj H4 Hf) as H.
    lia.
Defined.

(* --------------------------------------------------------------------- *)
(* A rejected construction                                               *)
(* --------------------------------------------------------------------- *)

(** C4: what the code does when buildOperators returns nil. Region 7 has no
    voter on store 2, the destination of its leader transfer. The cycle
    returns no operator and registers nothing, yet it has marked region 7
    as scheduled, has moved its load from store 1 (1.8 to 1.4 on read
    bytes) to store 2 (0.2 to 0.6), and has reset the split counter; it has
    not gone on to the next peer, region 8, for which the loop, had it
    continued, returns an operator. *)
Lemma C4_failed_build_ends_cycle :
  let c := Demo.demo Demo.noVoter7 in
  let b0 := Demo.snapshot Demo.noVoter7 in
  let r := dispatch (cluster := c) Demo.st0 in
  (* the snapshot before the decision *)
  map id (storeInfos b0) = [2; 1] /\
  Forall2 Qeq (map (fun s => ld (loads s) 3) (storeInfos b0)) [2 # 10; 18 # 10] /\
  (* the cycle *)
  snd r = [] /\
  regionPendings (sche (fst r)) = ∅ /\
  splitTrigeCount (sche (fst r)) = 0 /\
  match curBalancer (fst r) with
  | Some b =>
      elements (scheduledRegions b) = [7] /\
      map id (storeInfos b) = [1; 2] /\
      Forall2 Qeq (map (fun s => ld (loads s) 3) (storeInfos b))
                  [14 # 10; 6 # 10]
  | None => False
  end /\
  (* the loop over the peers of store 1, from the peer after region 7 *)
  match storeInfos b0 with
  | [_; s1] =>
      let '(maxID, maxLoad) := getMaxLoadInfo (Cluster := c) s1
                                 (allowedDimensions b0) in
      match buildSortedPeers (Cluster := c) s1 maxID with
      | (p7, _) :: rest =>
          regionID p7 = 7 /\
          match peerLoop (cluster := c) s1 maxID maxLoad rest b0
                         (sche Demo.st0) with
          | Return _ ops => map RegionID ops = [8]
          | Next _ => False
          end
      | [] => False
      end
  | _ => False
  end.
Proof.
  cbv zeta.
  split; [vm_compute; reflexivity |].
  split; [vm_compute; repeat constructor |].
  split; [vm_compute; reflexivity |].
  split; [vm_compute; reflexivity |].
  split; [vm_compute; reflexivity |].
  split; [vm_compute; split; [reflexivity
                             | split; [reflexivity | repeat constructor]] |].
  vm_compute. split; reflexivity.
Qed.

(* --------------------------------------------------------------------- *)
(* The destination chooser                                               *)
(* --------------------------------------------------------------------- *)

Section Chooser.
Context {RegionInfo CoreStore Filter : Type}.
Context {cluster : Cluster RegionInfo CoreStore Filter}.
Implicit Types (h : multiDimensionScheduler) (b : multiBalancer RegionInfo).


(* The loop of filterDstStores after the stores of l *)
Lemma filterDst_inv b h (sel : gset Z) (ty : opType) (large : bool)
    (l : list storeInfo) :
  let acc := fold_left (filterDstStep b h sel ty large) l (None, MaxFloat64) in
  (fst acc = None -> snd acc = MaxFloat64) /\
  (forall dst, fst acc = Some dst ->
     snd acc = loadOfMigrated b dst ty /\ dst ∈ l /\
     eligible b h sel ty large dst) /\
  (forall s, s ∈ l -> eligible b h sel ty large s ->
     (snd acc <= loadOfMigrated b s ty)%Q).
Proof.
  induction l as [| x l IH] using rev_ind; cbv zeta.
  - cbn. split; [reflexivity |]. split; [discriminate |].
    intros s Hs. by apply elem_of_nil in Hs.
  - rewrite fold_left_app. cbn [fold_left].
    cbv zeta in IH.
    set (acc := fold_left (filterDstStep b h sel ty large) l (None, MaxFloat64)) in *.
    destruct IH as (I0 & I1 & I3).
    unfold filterDstStep.
    destruct (decide (id x ∈ sel)) as [Hsel | Hnsel].
    + destruct (Qleb (loadOfMigrated b x ty) (1 + balanceRatio h) || negb large)
        eqn:Hcap.
      * assert (Hel : eligible b h sel ty large x).
        { split; [exact Hsel |]. intros ->.
          rewrite orb_false_r in Hcap. by apply Qleb_le. }
        destruct (Qltb (loadOfMigrated b x ty) (snd acc)) eqn:Hlt.
        -- cbn [fst snd]. split; [discriminate |]. split.
           ++ intros dst Hd. injection Hd as <-.
              split; [reflexivity |]. split; [| exact Hel].
              apply elem_of_app. right. by left.
           ++ intros s Hs Hes. apply elem_of_app in Hs as [Hs | Hs].
              ** apply Qltb_lt in Hlt. specialize (I3 s Hs Hes). lra.
              ** apply list_elem_of_singleton in Hs as ->. lra.
        -- split; [exact I0 |]. split.
           ++ intros dst Hd. destruct (I1 dst Hd) as (? & ? & ?).
              split; [assumption |]. split; [| assumption].
              apply elem_of_app. by left.
           ++ intros s Hs Hes. apply elem_of_app in Hs as [Hs | Hs].
              ** by apply I3.
              ** apply list_elem_of_singleton in Hs as ->. by apply Qltb_ge.
      * split; [exact I0 |]. split.
        -- intros dst Hd. destruct (I1 dst Hd) as (? & ? & ?).
           split; [assumption |]. split; [| assumption].
           apply elem_of_app. by left.
        -- intros s Hs Hes. apply elem_of_app in Hs as [Hs | Hs].
           ++ by apply I3.
           ++ apply list_elem_of_singleton in Hs as ->.
              destruct Hes as [_ Hes]. apply orb_false_iff in Hcap as [Hc Hl].
              apply negb_false_iff in Hl. specialize (Hes Hl).
              apply Qleb_gt in Hc. lra.
    + split; [exact I0 |]. split.
      * intros dst Hd. destruct (I1 dst Hd) as (? & ? & ?).
        split; [assumption |]. split; [| assumption].
        apply elem_of_app. by left.
      * intros s Hs Hes. apply elem_of_app in Hs as [Hs | Hs].
        -- by apply I3.
        -- apply list_elem_of_singleton in Hs as ->.
           destruct Hes as [Hes _]. contradiction.
Qed.


End Chooser.



(* --------------------------------------------------------------------- *)
(* Normalisation                                                         *)
(* --------------------------------------------------------------------- *)

Lemma ld_map_indices (f : Z -> Q) (n : nat) (i : Z) :
  0 <= i < Z.of_nat n ->
  ld (map f (indices n)) i = f i.
Proof.
  intros Hi. unfold ld, indices.
  rewrite (nth_indep _ 0%Q (f 0)).
  - rewrite (map_nth f), (nth_indep _ 0 (Z.of_nat 0)), (map_nth Z.of_nat).
    + rewrite seq_nth by lia. f_equal. lia.
    + rewrite length_map, length_seq. lia.
  - rewrite !length_map, length_seq. lia.
Qed.

Lemma fold_left_sumQ (f : Z -> Q) (ks : list Z) (a : Q) :
  (fold_left (fun acc k => acc + f k) ks a == a + sumQ f ks)%Q.
Proof.
  revert a. induction ks as [| k ks IH]; intros a;
    cbn [fold_left sumQ fold_right].
  - ring.
  - rewrite IH. fold (sumQ f ks). ring.
Qed.

Lemma sumQ_normalised (f g : Z -> Q) (m : Q) (ks : list Z) :
  (sumQ (fun k => (f k + g k) / m) ks == (sumQ f ks + sumQ g ks) / m)%Q.
Proof.
  induction ks as [| k ks IH]; cbn [sumQ fold_right].
  - unfold Qdiv. ring.
  - fold (sumQ (fun k => (f k + g k) / m)%Q ks).
    fold (sumQ f ks). fold (sumQ g ks).
    rewrite IH. unfold Qdiv. ring.
Qed.

Lemma sumLoadsOn_map (mk : Z -> storeInfo) (ks : list Z) (i : Z) :
  sumLoadsOn (map mk ks) i = sumQ (fun k => ld (loads (mk k)) i) ks.
Proof.
  induction ks as [| k ks IH]; cbn [map sumLoadsOn sumQ fold_right];
    [reflexivity |].
  fold (sumLoadsOn (map mk ks) i). fold (sumQ (fun k => ld (loads (mk k)) i) ks).
  by rewrite IH.
Qed.

Lemma sumQ_ext (f g : Z -> Q) (ks : list Z) :
  (forall k, f k = g k) -> sumQ f ks = sumQ g ks.
Proof.
  intros H. induction ks as [| k ks IH]; cbn [sumQ fold_right];
    [reflexivity |].
  fold (sumQ f ks). fold (sumQ g ks). by rewrite H, IH.
Qed.

Section Normalisation.
Context {RegionInfo CoreStore Filter : Type}.
Context {cluster : Cluster RegionInfo CoreStore Filter}.

(* The stores of a snapshot that is built *)
Lemma newMultiBalancer_storeInfos (h : multiDimensionScheduler) :
  allowedOf (minExpLoads h) (expLoadsOf GetStoresLoadsStat) <> [] ->
  storeInfos (fst (newMultiBalancer (RegionInfo := RegionInfo) h))
  = map (fun k => mkStoreInfo GetStoresLoadsStat (pendingSums h)
                    (expLoadsOf GetStoresLoadsStat) k (filteredHotPeers k))
        (storeIDs GetStoresLoadsStat).
Proof.
  intros Hne. unfold newMultiBalancer, initHotPeerInfo, needSkipSchedule.
  cbv zeta.
  destruct (allowedOf (minExpLoads h) (expLoadsOf GetStoresLoadsStat));
    [congruence |].
  by destruct (Qltb loadStableThresholdConst _).
Qed.

Lemma expLoadsOf_length (storeLoads : list (gmap Z Q)) :
  length (expLoadsOf storeLoads) = length storeLoads.
Proof. unfold expLoadsOf, indices. by rewrite !length_map, length_seq. Qed.

(** C8, amended: in a snapshot that initHotPeerInfo builds, on every axis
    whose mean (taken over the loads as reported, before the pending
    influence is added) is positive, the sum over the stores of the
    normalised load equals the number of stores plus the sum of the pending
    influence of the stores on that axis divided by the mean, in exact
    arithmetic; it equals the number of stores when that pending influence
    sums to zero. *)
Theorem C8_normalised_sum (h : multiDimensionScheduler) (i : Z) :
  let storeLoads := GetStoresLoadsStat in
  let expLoads := expLoadsOf storeLoads in
  let b := fst (newMultiBalancer (RegionInfo := RegionInfo) h) in
  let pending := sumQ (fun k => pendingLoad (pendingSums h) k i)
                      (storeIDs storeLoads) in
  allowedOf (minExpLoads h) expLoads <> [] ->
  0 <= i < Z.of_nat (length storeLoads) ->
  (0 < ld expLoads i)%Q ->
  (sumLoadsOn (storeInfos b) i
   == inject_Z (Z.of_nat (length (storeInfos b))) + pending / ld expLoads i)%Q /\
  ((pending == 0)%Q ->
   (sumLoadsOn (storeInfos b) i
    == inject_Z (Z.of_nat (length (storeInfos b))))%Q).
Proof.
  cbv zeta. intros Hne Hi Hpos.
  rewrite (newMultiBalancer_storeInfos h Hne). rewrite length_map.
  set (sl := GetStoresLoadsStat) in *.
  set (ids := storeIDs sl) in *.
  set (m := ld (expLoadsOf sl) i) in *.
  set (P := sumQ (fun k => pendingLoad (pendingSums h) k i) ids).
  set (A := sumQ (fun k => storeLoad sl i k) ids).
  set (n := inject_Z (Z.of_nat (length ids))).
  assert (Hm : (m == A / n)%Q).
  { subst m. unfold expLoadsOf. rewrite ld_map_indices by exact Hi.
    fold ids. rewrite fold_left_sumQ, Qplus_0_l. reflexivity. }
  assert (Hsum : (sumLoadsOn
                    (map (fun k => mkStoreInfo sl (pendingSums h)
                                     (expLoadsOf sl) k (filteredHotPeers k))
                         ids) i
                  == (A + P) / m)%Q).
  { rewrite sumLoadsOn_map.
    rewrite (sumQ_ext _
               (fun k => (storeLoad sl i k + pendingLoad (pendingSums h) k i)
                         / m)%Q).
    - apply sumQ_normalised.
    - intros k. cbn [loads mkStoreInfo]. unfold storeLoadsOf.
      rewrite ld_map_indices by (rewrite expLoadsOf_length; exact Hi).
      reflexivity. }
  rewrite Hsum. clear Hsum. clearbody A P n m. clear - Hpos Hm.
  assert (Hn : ~ (n == 0)%Q).
  { intros Hz. rewrite Hm, Hz in Hpos. unfold Qdiv in Hpos.
    assert (Hinv : (/ 0 == 0)%Q) by reflexivity.
    rewrite Hinv in Hpos. lra. }
  assert (Hm0 : ~ (m == 0)%Q) by lra.
  assert (HA : (A == m * n)%Q) by (rewrite Hm; field; exact Hn).
  split.
  - rewrite HA. field. exact Hm0.
  - intros HP. rewrite HA, HP. field. exact Hm0.
Qed.

End Normalisation.

(** C8, as stated, fails: with a pending influence of 1 on the read bytes
    of store 1, the mean of that axis over the two stores is 20, the two
    normalised loads are 37/20 and 4/20, and their sum is 2.05, not 2. *)
Lemma C8_pending_shifts_the_sum :
  let c := Demo.demo Demo.calm in
  let b := fst (newMultiBalancer (cluster := c) Demo.inflow) in
  (ld (expLoadsOf (GetStoresLoadsStat (Cluster := c))) 3 == 20)%Q /\
  length (storeInfos b) = 2%nat /\ skipSchedule b = false /\
  (sumLoadsOn (storeInfos b) 3 == 205 # 100)%Q /\
  ~ (sumLoadsOn (storeInfos b) 3 == 2)%Q.
Proof.
  cbv zeta.
  split; [vm_compute; reflexivity |].
  split; [vm_compute; reflexivity |].
  split; [vm_compute; reflexivity |].
  split; [vm_compute; reflexivity |].
  vm_compute. discriminate.
Qed.

Lemma C8_normalised_sum_witness :
  let c := Demo.demo Demo.calm in
  let b := fst (newMultiBalancer (cluster := c) Demo.inflow) in
  allowedOf (minExpLoads Demo.inflow)
            (expLoadsOf (GetStoresLoadsStat (Cluster := c))) <> [] /\
  0 <= 3 < Z.of_nat (length (GetStoresLoadsStat (Cluster := c))) /\
  (0 < ld (expLoadsOf (GetStoresLoadsStat (Cluster := c))) 3)%Q /\
  (sumLoadsOn (storeInfos b) 3
   == inject_Z (Z.of_nat (length (storeInfos b)))
      + sumQ (fun k => pendingLoad (pendingSums Demo.inflow) k 3)
             (storeIDs (GetStoresLoadsStat (Cluster := c)))
        / ld (expLoadsOf (GetStoresLoadsStat (Cluster := c))) 3)%Q.
Proof.
  cbv zeta.
  assert (H1 : allowedOf (minExpLoads Demo.inflow)
                 (expLoadsOf (GetStoresLoadsStat (Cluster := Demo.demo Demo.calm)))
               <> []) by (vm_compute; discriminate).
  assert (H2 : 0 <= 3 < Z.of_nat
                 (length (GetStoresLoadsStat (Cluster := Demo.demo Demo.calm))))
    by (vm_compute; split; [discriminate | reflexivity]).
  assert (H3 : (0 < ld (expLoadsOf
                  (GetStoresLoadsStat (Cluster := Demo.demo Demo.calm))) 3)%Q)
    by (vm_compute; reflexivity).
  split; [exact H1 |]. split; [exact H2 |]. split; [exact H3 |].
  exact (proj1 (C8_normalised_sum (cluster := Demo.demo Demo.calm)
                  Demo.inflow 3 H1 H2 H3)).
Defined.

(* ===================================================================== *)
(* Further properties of the code                                        *)
(* ===================================================================== *)

(* --------------------------------------------------------------------- *)
(* The schedule guard and the split parameters                           *)
(* --------------------------------------------------------------------- *)

(** X1: IsScheduleAllowed is decided by the hot-region operator count
    alone: it holds exactly when that count is below the hot-region
    schedule limit, whatever the leader count and the leader limit are. *)
Theorem X1_schedule_allowed_by_region_limit
    (hotCount leaderCount hotLimit leaderLimit : Z) :
  IsScheduleAllowed hotCount leaderCount hotLimit leaderLimit = true
  <-> hotCount < hotLimit.
Proof.
  unfold IsScheduleAllowed, allowBalanceLeader, allowBalanceRegion.
  destruct (Z.ltb_spec hotCount hotLimit) as [H | H]; cbn.
  - rewrite orb_true_r. tauto.
  - split; [discriminate | lia].
Qed.

(** X2: for every uint64 dimension id convertToSplitInfo returns splitDim
    0 or 1, namely 0 exactly on the multiples of 3; splitType is 0 or 1
    only for the ids below 6, and from 6 on the subtraction wraps around
    to 2^64 + 1 - dimID / 3. *)
Theorem X2_split_info_range (dimID : Z) :
  0 <= dimID < 2 ^ 64 ->
  let '(splitDim, splitType) := convertToSplitInfo dimID in
  (splitDim = 0 \/ splitDim = 1) /\
  (splitDim = 0 <-> dimID mod 3 = 0) /\
  (dimID < 6 -> splitType = 1 - dimID / 3) /\
  (6 <= dimID -> splitType = 2 ^ 64 + 1 - dimID / 3 /\ 1 < splitType).
Proof.
  intros H. unfold convertToSplitInfo, wrap64.
  pose proof (Z.mod_pos_bound dimID 3 ltac:(lia)) as Hm.
  assert (Hq : 0 <= dimID / 3 < 2 ^ 64).
  { split; [apply Z.div_pos; lia |].
    apply Z.div_lt_upper_bound; lia. }
  rewrite (Z.mod_small (dimID / 3)) by exact Hq.
  assert (Hd : dimID / 3 <= 1 <-> dimID < 6).
  { split; intros Hx.
    - destruct (Z.lt_ge_cases dimID 6) as [|Hge]; [assumption |].
      assert (2 <= dimID / 3) by (apply Z.div_le_lower_bound; lia). lia.
    - assert (dimID / 3 < 2) by (apply Z.div_lt_upper_bound; lia). lia. }
  assert (Hc : dimID mod 3 = 0 \/ dimID mod 3 = 1 \/ dimID mod 3 = 2) by lia.
  split; [| split; [| split]].
  - destruct Hc as [-> | [-> | ->]]; auto.
  - destruct Hc as [-> | [-> | ->]]; split; intros; lia.
  - intros Hlt. apply Z.mod_small. lia.
  - intros Hge.
    assert (Hq2 : 2 <= dimID / 3) by (apply Z.div_le_lower_bound; lia).
    assert (Hw : (1 - dimID / 3) mod 2 ^ 64 = 2 ^ 64 + 1 - dimID / 3).
    { rewrite <- (Z.mod_add _ 1) by lia.
      replace (1 - dimID / 3 + 1 * 2 ^ 64) with (2 ^ 64 + 1 - dimID / 3) by lia.
      apply Z.mod_small. lia. }
    rewrite Hw. lia.
Qed.

Lemma X2_split_info_range_witness :
  0 <= 7 < 2 ^ 64 /\
  let '(splitDim, splitType) := convertToSplitInfo 7 in
  (splitDim = 0 \/ splitDim = 1) /\
  (splitDim = 0 <-> 7 mod 3 = 0) /\
  (7 < 6 -> splitType = 1 - 7 / 3) /\
  (6 <= 7 -> splitType = 2 ^ 64 + 1 - 7 / 3 /\ 1 < splitType).
Proof.
  assert (H : 0 <= 7 < 2 ^ 64) by (split; [discriminate | reflexivity]).
  split; [exact H | exact (X2_split_info_range 7 H)].
Defined.

(* --------------------------------------------------------------------- *)
(* More on the pending ledger                                            *)
(* --------------------------------------------------------------------- *)

Section LedgerMore.
Context {RegionInfo : Type}.
Implicit Types (h : multiDimensionScheduler) (deci : decision RegionInfo).

(** X3: a region admits one operator. On a region without an entry
    addPendingInfluence returns true, maps the region to the operator,
    leaves every other entry alone, and adds one influence, from the source
    to the destination of the decision, to the pendings set; a second
    registration for that region, of any operator, then returns false and
    changes nothing. *)
Theorem X3_register_once h (op op' : Operator) deci deci'
    (infl infl' : loadInfluence) :
  regionPendings h !! RegionID op = None ->
  RegionID op' = RegionID op ->
  let h1 := fst (addPendingInfluence h op deci infl) in
  snd (addPendingInfluence h op deci infl) = true /\
  regionPendings h1 !! RegionID op = Some (Some op) /\
  (forall r, r <> RegionID op ->
     regionPendings h1 !! r = regionPendings h !! r) /\
  size (regionPendings h1) = S (size (regionPendings h)) /\
  pendings h1
  = newPendingLoadInfluence op (srcStoreID deci) (dstStoreID deci) infl
      :: pendings h /\
  addPendingInfluence h1 op' deci' infl' = (h1, false).
Proof.
  intros Hnone Hsame. cbv zeta.
  rewrite (addPendingInfluence_fresh h op deci infl Hnone). cbn [fst snd].
  cbn [regionPendings pendings set_ledger].
  split; [reflexivity |].
  split; [apply lookup_insert_eq |].
  split; [intros r Hr; by apply lookup_insert_ne |].
  split; [by apply map_size_insert_None |].
  split; [reflexivity |].
  apply addPendingInfluence_conflict. rewrite Hsame.
  cbn [regionPendings set_ledger]. rewrite lookup_insert_eq. eauto.
Qed.

End LedgerMore.

Lemma X3_register_once_witness :
  regionPendings (sche Demo.st0) !! RegionID Demo.op7 = None /\
  RegionID Demo.op7 = RegionID Demo.op7 /\
  snd (addPendingInfluence (RegionInfo := Z) (sche Demo.st0) Demo.op7
         emptyDecision emptyInfluence) = true /\
  addPendingInfluence (RegionInfo := Z)
    (fst (addPendingInfluence (RegionInfo := Z) (sche Demo.st0) Demo.op7
            emptyDecision emptyInfluence))
    Demo.op7 emptyDecision emptyInfluence
  = (fst (addPendingInfluence (RegionInfo := Z) (sche Demo.st0) Demo.op7
            emptyDecision emptyInfluence), false).
Proof.
  assert (H1 : regionPendings (sche Demo.st0) !! RegionID Demo.op7 = None)
    by reflexivity.
  split; [exact H1 |]. split; [reflexivity |].
  destruct (X3_register_once (RegionInfo := Z) (sche Demo.st0) Demo.op7
              Demo.op7 emptyDecision emptyDecision emptyInfluence
              emptyInfluence H1 eq_refl) as (Ht & _ & _ & _ & _ & Hf).
  split; [exact Ht | exact Hf].
Defined.

(** X4: the garbage collection of the region-pending index only removes
    entries: what it leaves is a sub-map of what it found; it keeps every
    entry whose operator has not ended and every nil entry; it touches no
    other field of the scheduler; running it again at the same time changes
    nothing; and what is removed at one time is removed at any later
    time. *)
Theorem X4_gc_only_shrinks (isEnd : Operator -> bool)
    (startTime : Operator -> Z) (now maxZombie : Z)
    (h : multiDimensionScheduler) :
  let h' := gcRegionPendings isEnd startTime now maxZombie h in
  regionPendings h' ⊆ regionPendings h /\
  (forall r op, regionPendings h !! r = Some (Some op) -> isEnd op = false ->
     regionPendings h' !! r = Some (Some op)) /\
  (forall r, regionPendings h !! r = Some None ->
     regionPendings h' !! r = Some None) /\
  h' = set_ledger h (pendings h) (regionPendings h') /\
  gcRegionPendings isEnd startTime now maxZombie h' = h' /\
  (forall now', now <= now' ->
     regionPendings (gcRegionPendings isEnd startTime now' maxZombie h)
     ⊆ regionPendings h').
Proof.
  cbv zeta. split; [| split; [| split; [| split; [| split]]]].
  - unfold gcRegionPendings. cbn. apply map_filter_subseteq.
  - intros r op Hr He. rewrite gcRegionPendings_lookup, Hr. cbn.
    by rewrite He.
  - intros r Hr. by rewrite gcRegionPendings_lookup, Hr.
  - reflexivity.
  - unfold gcRegionPendings at 1. unfold gcRegionPendings at 1.
    cbn [pendings regionPendings set_ledger pendingSums minExpLoads
         balanceRatio relaxBalanceCondition splitTrigeCount hasSplit needInit].
    unfold gcRegionPendings, set_ledger. cbn. f_equal.
    apply map_eq. intros r. rewrite !map_lookup_filter.
    destruct (regionPendings h !! r) as [v |]; [| reflexivity]. cbn.
    destruct (gcExpired isEnd startTime now maxZombie v) eqn:E.
    + by rewrite option_guard_False by congruence.
    + rewrite option_guard_True by reflexivity. cbn. rewrite E.
      by rewrite option_guard_True by reflexivity.
  - intros now' Hle. apply map_subseteq_spec. intros r v.
    rewrite !gcRegionPendings_lookup.
    destruct (regionPendings h !! r) as [[o |] |]; cbn; try done.
    destruct (isEnd o); cbn; [| done].
    destruct (Z.ltb_spec (startTime o + maxZombie) now');
      destruct (Z.ltb_spec (startTime o + maxZombie) now); try done; lia.
Qed.

(* --------------------------------------------------------------------- *)
(* The snapshot                                                          *)
(* --------------------------------------------------------------------- *)

Lemma elem_of_indices (n : nat) (i : Z) :
  i ∈ indices n <-> 0 <= i < Z.of_nat n.
Proof.
  unfold indices. rewrite list_elem_of_In, in_map_iff. split.
  - intros (k & <- & Hk). apply in_seq in Hk. lia.
  - intros Hi. exists (Z.to_nat i). split; [lia |]. apply in_seq. lia.
Qed.

Lemma NoDup_indices (n : nat) : NoDup (indices n).
Proof.
  unfold indices. apply (NoDup_fmap_2 Z.of_nat). apply NoDup_seq.
Qed.

Lemma elem_of_allowedOf (minExp expLoads : Loads) (i : Z) :
  i ∈ allowedOf minExp expLoads <->
  0 <= i < Z.of_nat (length expLoads) /\ i <> 2 /\ i <> 5 /\
  (ld minExp i <= ld expLoads i)%Q.
Proof.
  unfold allowedOf. rewrite list_elem_of_filter, elem_of_indices, Qleb_le.
  tauto.
Qed.

Section Snapshot.
Context {RegionInfo CoreStore Filter : Type}.
Context {cluster : Cluster RegionInfo CoreStore Filter}.
Implicit Types (h : multiDimensionScheduler) (b : multiBalancer RegionInfo).

(* What newMultiBalancer decides before it builds the stores *)
Lemma newMultiBalancer_allowed h :
  allowedDimensions (fst (newMultiBalancer (RegionInfo := RegionInfo) h))
  = allowedOf (minExpLoads h) (expLoadsOf GetStoresLoadsStat) /\
  allowedMap (fst (newMultiBalancer (RegionInfo := RegionInfo) h))
  = list_to_set (allowedOf (minExpLoads h) (expLoadsOf GetStoresLoadsStat)).
Proof.
  unfold newMultiBalancer, initHotPeerInfo, needSkipSchedule. cbv zeta.
  cbn [allowedDimensions app].
  destruct (allowedOf (minExpLoads h) (expLoadsOf GetStoresLoadsStat));
    [by split |].
  destruct (Qltb loadStableThresholdConst _); by split.
Qed.

(** X5: the allowed dimensions of a new balancer are exactly the indices of
    the load maps, other than the ops axes 2 and 5, on which the mean load
    is at least the minimum of minExpLoads; they are listed once each,
    allowedMap is the same set, and the balancer skips the schedule when
    there is none. *)
Theorem X5_allowed_dimensions h :
  let b := fst (newMultiBalancer (RegionInfo := RegionInfo) h) in
  let expLoads := expLoadsOf GetStoresLoadsStat in
  (forall i, i ∈ allowedDimensions b <->
     0 <= i < Z.of_nat (length GetStoresLoadsStat) /\ i <> 2 /\ i <> 5 /\
     (ld (minExpLoads h) i <= ld expLoads i)%Q) /\
  NoDup (allowedDimensions b) /\
  (forall i, i ∈ allowedMap b <-> i ∈ allowedDimensions b) /\
  (2 ∉ allowedDimensions b) /\ (5 ∉ allowedDimensions b) /\
  (allowedDimensions b = [] -> skipSchedule b = true).
Proof.
  cbv zeta. destruct (newMultiBalancer_allowed h) as [Ha Hm].
  rewrite Ha, Hm.
  split; [| split; [| split; [| split; [| split]]]].
  - intros i. rewrite elem_of_allowedOf, expLoadsOf_length. tauto.
  - unfold allowedOf. apply NoDup_filter, NoDup_indices.
  - intros i. apply elem_of_list_to_set.
  - rewrite elem_of_allowedOf. tauto.
  - rewrite elem_of_allowedOf. tauto.
  - intros He. unfold newMultiBalancer, initHotPeerInfo, needSkipSchedule.
    cbv zeta. by rewrite He.
Qed.

(** X6: when no dimension is allowed, newMultiBalancer builds no store,
    marks the balancer skipSchedule and leaves the scheduler as it was;
    otherwise it either leaves the balancer schedulable and the scheduler
    as it was, or, on unstable load, marks the balancer skipSchedule and
    sets needInit. On a balancer marked skipSchedule solveMultiLoads returns
    nil and changes nothing. *)
Theorem X6_snapshot_skip h :
  let b := fst (newMultiBalancer (RegionInfo := RegionInfo) h) in
  let h' := snd (newMultiBalancer (RegionInfo := RegionInfo) h) in
  (allowedDimensions b = [] ->
   skipSchedule b = true /\ storeInfos b = [] /\ h' = h) /\
  (allowedDimensions b <> [] ->
   (skipSchedule b = false /\ h' = h) \/
   (skipSchedule b = true /\ h' = set_needInit h true)) /\
  (skipSchedule b = true ->
   forall h2, solveMultiLoads b h2 = ((b, h2), [])).
Proof.
  cbv zeta. destruct (newMultiBalancer_allowed h) as [Ha _]. rewrite Ha.
  split; [| split].
  - intros He. unfold newMultiBalancer, initHotPeerInfo, needSkipSchedule.
    cbv zeta. by rewrite He.
  - intros Hne. unfold newMultiBalancer, initHotPeerInfo, needSkipSchedule.
    cbv zeta.
    destruct (allowedOf (minExpLoads h) (expLoadsOf GetStoresLoadsStat));
      [congruence |].
    destruct (Qltb loadStableThresholdConst _); [right | left]; by split.
  - intros Hs h2. unfold solveMultiLoads. by rewrite Hs.
Qed.

(* With no allowed dimension the snapshot has no store *)
Lemma newMultiBalancer_empty h :
  allowedOf (minExpLoads h) (expLoadsOf GetStoresLoadsStat) = [] ->
  storeInfos (fst (newMultiBalancer (RegionInfo := RegionInfo) h)) = [] /\
  snd (newMultiBalancer (RegionInfo := RegionInfo) h) = h.
Proof.
  intros He. unfold newMultiBalancer, initHotPeerInfo, needSkipSchedule.
  cbv zeta. by rewrite He.
Qed.

(* The entries of the map of hot peers of a store *)
Lemma hotPeersOf_lookup (expLoads : Loads) (storeID : Z)
    (l : list HotPeerStat) (r : Z) (p : peerInfo) :
  hotPeersOf expLoads storeID l !! r = Some p ->
  exists st, st ∈ l /\ hp_RegionID st = r /\
             p = mkPeerInfo expLoads storeID st.
Proof.
  unfold hotPeersOf.
  induction l as [| x l IH] using rev_ind;
    [cbn [fold_left]; rewrite lookup_empty; discriminate |].
  rewrite fold_left_app. cbn [fold_left].
  destruct (decide (hp_RegionID x = r)) as [<- | Hne].
  - rewrite lookup_insert_eq. intros [= <-].
    exists x. split; [| by split]. apply elem_of_app. right. by left.
  - rewrite lookup_insert_ne by exact Hne. intros Hl.
    destruct (IH Hl) as (st & Hin & Hr & Hp).
    exists st. split; [| by split]. apply elem_of_app. by left.
Qed.

(** X7: in a snapshot that is built, every hot peer of a store is filed
    under its region id, carries the id of that store and the statistic it
    was made from, which is one that filterHotPeers let through for that
    store; it has one load per load map, and the loads of a peer that is
    not the leader are zero on every dimension from 3 on. *)
Theorem X7_hot_peers_of_snapshot h (s : storeInfo) (r : Z) (p : peerInfo) :
  let b := fst (newMultiBalancer (RegionInfo := RegionInfo) h) in
  s ∈ storeInfos b ->
  hotPeers s !! r = Some p ->
  regionID p = r /\ pi_storeID p = id s /\
  length (pi_loads p) = length GetStoresLoadsStat /\
  (exists st, st ∈ filteredHotPeers (id s) /\ peerStat p = Some st /\
              hp_RegionID st = r /\ isLeader p = hp_IsLeader st) /\
  (isLeader p = false -> forall i, 3 <= i -> ld (pi_loads p) i = 0%Q).
Proof.
  cbv zeta. intros Hs Hp.
  destruct (decide (allowedOf (minExpLoads h) (expLoadsOf GetStoresLoadsStat)
                    = [])) as [He | Hne].
  { exfalso. destruct (newMultiBalancer_empty h He) as [Hst _].
    rewrite Hst in Hs. by apply elem_of_nil in Hs. }
  rewrite (newMultiBalancer_storeInfos h Hne) in Hs.
  apply list_elem_of_In, in_map_iff in Hs as (k & <- & _).
  cbn [hotPeers mkStoreInfo id] in *.
  apply hotPeersOf_lookup in Hp as (st & Hin & Hr & ->).
  cbn [regionID pi_storeID pi_loads peerStat isLeader mkPeerInfo].
  split; [exact Hr |]. split; [reflexivity |].
  split.
  { unfold peerLoadsOf, indices.
    by rewrite !length_map, length_seq, expLoadsOf_length. }
  split; [exists st; by repeat split |].
  intros Hl i Hi. unfold peerLoadsOf.
  destruct (Z.lt_ge_cases i
              (Z.of_nat (length (expLoadsOf GetStoresLoadsStat)))) as [Hlt | Hge].
  - rewrite ld_map_indices by lia. rewrite Hl. cbn.
    destruct (Z.leb_spec 3 i); [reflexivity | lia].
  - unfold ld. apply nth_overflow.
    unfold indices. rewrite !length_map, length_seq. lia.
Qed.

Lemma map_fmap_list {A B : Type} (f : A -> B) (l : list A) :
  map f l = f <$> l.
Proof. induction l as [| x l IH]; cbn; [reflexivity | by rewrite IH]. Qed.

(** X8: a snapshot that is built has one store per key of the first load
    map, in the order of storeIDs, so the ids of its stores are pairwise
    distinct; each store has one load per load map, its load on a dimension
    being the reported load plus the pending influence of the store,
    divided by the mean of the dimension. *)
Theorem X8_snapshot_stores h :
  let b := fst (newMultiBalancer (RegionInfo := RegionInfo) h) in
  let storeLoads := GetStoresLoadsStat in
  allowedDimensions b <> [] ->
  map id (storeInfos b) = storeIDs storeLoads /\
  NoDup (map id (storeInfos b)) /\
  length (storeInfos b) = size (nth 0%nat storeLoads ∅) /\
  forall s, s ∈ storeInfos b ->
    is_Some (nth 0%nat storeLoads ∅ !! id s) /\
    length (loads s) = length storeLoads /\
    forall i, 0 <= i < Z.of_nat (length storeLoads) ->
      ld (loads s) i
      = ((storeLoad storeLoads i (id s) + pendingLoad (pendingSums h) (id s) i)
         / ld (expLoadsOf storeLoads) i)%Q.
Proof.
  cbv zeta. destruct (newMultiBalancer_allowed h) as [Ha _]. rewrite Ha.
  intros Hne. rewrite (newMultiBalancer_storeInfos h Hne).
  assert (Hids : map id
            (map (fun k => mkStoreInfo GetStoresLoadsStat (pendingSums h)
                             (expLoadsOf GetStoresLoadsStat) k
                             (filteredHotPeers k))
                 (storeIDs GetStoresLoadsStat))
          = storeIDs GetStoresLoadsStat).
  { rewrite map_map. cbn [id mkStoreInfo]. apply map_id. }
  split; [exact Hids |]. split; [| split].
  - rewrite Hids. unfold storeIDs. rewrite map_fmap_list.
    apply NoDup_fst_map_to_list.
  - rewrite length_map. unfold storeIDs.
    by rewrite length_map, length_map_to_list.
  - intros s Hs.
    apply list_elem_of_In, in_map_iff in Hs as (k & <- & Hk).
    cbn [id loads mkStoreInfo]. split; [| split].
    + unfold storeIDs in Hk. apply in_map_iff in Hk as ([k' v] & <- & Hkv).
      apply list_elem_of_In, elem_of_map_to_list in Hkv. cbn. eauto.
    + unfold storeLoadsOf, indices.
      by rewrite !length_map, length_seq, expLoadsOf_length.
    + intros i Hi. unfold storeLoadsOf.
      rewrite ld_map_indices by (rewrite expLoadsOf_length; exact Hi).
      reflexivity.
Qed.

End Snapshot.

Lemma X7_hot_peers_of_snapshot_witness :
  let b := fst (newMultiBalancer (cluster := Demo.demo Demo.calm)
                                 (sche Demo.st0)) in
  exists s p,
    s ∈ storeInfos b /\ hotPeers s !! 7 = Some p /\
    id s = 1 /\ regionID p = 7 /\ pi_storeID p = id s.
Proof.
  cbv zeta.
  set (b := fst (newMultiBalancer (cluster := Demo.demo Demo.calm)
                                  (sche Demo.st0))).
  destruct (storeInfos b !! 1%nat) as [s |] eqn:Es;
    [| vm_compute in Es; discriminate].
  assert (Hin : s ∈ storeInfos b) by (eapply list_elem_of_lookup_2; exact Es).
  assert (Hs : s = default s (storeInfos b !! 1%nat)) by (by rewrite Es).
  assert (Hid : id s = 1).
  { rewrite Hs. clear. vm_compute. reflexivity. }
  destruct (hotPeers s !! 7) as [p |] eqn:Ep.
  - exists s, p.
    destruct (X7_hot_peers_of_snapshot (cluster := Demo.demo Demo.calm)
                (sche Demo.st0) s 7 p Hin Ep) as (H1 & H2 & _).
    by repeat split.
  - exfalso. rewrite Hs in Ep. clear - Ep. vm_compute in Ep. discriminate.
Defined.

Lemma X8_snapshot_stores_witness :
  let b := fst (newMultiBalancer (cluster := Demo.demo Demo.calm)
                                 (sche Demo.st0)) in
  allowedDimensions b <> [] /\
  map id (storeInfos b)
  = storeIDs (GetStoresLoadsStat (Cluster := Demo.demo Demo.calm)) /\
  NoDup (map id (storeInfos b)).
Proof.
  cbv zeta.
  assert (H : allowedDimensions
                (fst (newMultiBalancer (cluster := Demo.demo Demo.calm)
                                       (sche Demo.st0))) <> [])
    by (vm_compute; discriminate).
  split; [exact H |].
  destruct (X8_snapshot_stores (cluster := Demo.demo Demo.calm)
              (sche Demo.st0) H) as (H1 & H2 & _).
  by split.
Defined.

(* --------------------------------------------------------------------- *)
(* More on the destination chooser                                       *)
(* --------------------------------------------------------------------- *)

Section ChooserMore.
Context {RegionInfo CoreStore Filter : Type}.
Context {cluster : Cluster RegionInfo CoreStore Filter}.
Implicit Types (h : multiDimensionScheduler) (b : multiBalancer RegionInfo).

(** X9: loadOfMigrated is the highest load that the store would carry after
    the migration over the dimensions it counts (the allowed ones, and for
    a leader transfer those whose load can be transferred): it is at least
    the load on each of them, it is never negative, and it is zero or the
    load on one of them. *)
Theorem X9_load_of_migrated_is_max b (s : storeInfo) (ty : opType) :
  let L := loadOfMigrated b s ty in
  (0 <= L)%Q /\
  (forall i, countedDim b ty i ->
     (ld (loads s) i + curPeerLoad (cur b) i <= L)%Q) /\
  (L = 0%Q \/
   exists i, countedDim b ty i /\
             L = (ld (loads s) i + curPeerLoad (cur b) i)%Q).
Proof.
  cbv zeta. unfold loadOfMigrated, countedDim.
  induction (allowedDimensions b) as [| x l IH] using rev_ind.
  - cbn. split; [lra |]. split; [| by left].
    intros i [Hi _]. by apply elem_of_nil in Hi.
  - rewrite fold_left_app. cbn [fold_left].
    destruct IH as (I0 & I1 & I2).
    set (L := fold_left _ l 0%Q) in *.
    assert (Hold : forall i, (i ∈ l ++ [x] /\
                    (ty = transferLeader -> loadCanTransfered i = true)) ->
                   i <> x \/ (ty = transferLeader /\ loadCanTransfered x = false) ->
                   (ld (loads s) i + curPeerLoad (cur b) i <= L)%Q).
    { intros i [Hi Ht] Hc. apply elem_of_app in Hi as [Hi | Hi].
      - apply I1. by split.
      - apply list_elem_of_singleton in Hi as ->.
        destruct Hc as [Hc | [Hty Hf]]; [congruence |].
        specialize (Ht Hty). congruence. }
    assert (Hkeep : L = 0%Q \/
              exists i, (i ∈ l ++ [x] /\
                         (ty = transferLeader -> loadCanTransfered i = true)) /\
                        L = (ld (loads s) i + curPeerLoad (cur b) i)%Q).
    { destruct I2 as [I2 | (i & [Hi Ht] & Hl)]; [by left | right].
      exists i. split; [| exact Hl]. split; [| exact Ht].
      apply elem_of_app. by left. }
    destruct ty.
    + (* movePeer *)
      destruct (Qltb L _) eqn:Hlt.
      * apply Qltb_lt in Hlt. split; [lra |]. split.
        -- intros i Hi. destruct (decide (i = x)) as [-> | Hne]; [lra |].
           specialize (Hold i Hi (or_introl Hne)). lra.
        -- right. exists x. split; [| reflexivity].
           split; [apply elem_of_app; right; by left | discriminate].
      * apply Qltb_ge in Hlt. split; [exact I0 |]. split; [| exact Hkeep].
        intros i Hi. destruct (decide (i = x)) as [-> | Hne]; [exact Hlt |].
        exact (Hold i Hi (or_introl Hne)).
    + (* transferLeader *)
      destruct (loadCanTransfered x) eqn:Hx; cbn [negb].
      * destruct (Qltb L _) eqn:Hlt.
        -- apply Qltb_lt in Hlt. split; [lra |]. split.
           ++ intros i Hi. destruct (decide (i = x)) as [-> | Hne]; [lra |].
              specialize (Hold i Hi (or_introl Hne)). lra.
           ++ right. exists x. split; [| reflexivity].
              split; [apply elem_of_app; right; by left | done].
        -- apply Qltb_ge in Hlt. split; [exact I0 |]. split; [| exact Hkeep].
           intros i Hi. destruct (decide (i = x)) as [-> | Hne]; [exact Hlt |].
           exact (Hold i Hi (or_introl Hne)).
      * split; [exact I0 |]. split; [| exact Hkeep].
        intros i Hi. apply (Hold i Hi). right. by split.
Qed.

(* The load that filterDstStores returns is MaxFloat64 when it returns no
   store and below MaxFloat64 when it returns one *)
Lemma filterDst_below_max b h (sel : gset Z) (ty : opType) (large : bool)
    (l : list storeInfo) :
  let acc := fold_left (filterDstStep b h sel ty large) l (None, MaxFloat64) in
  (fst acc = None -> snd acc = MaxFloat64) /\
  (is_Some (fst acc) -> (snd acc < MaxFloat64)%Q).
Proof.
  induction l as [| x l IH] using rev_ind; cbv zeta.
  - cbn. split; [reflexivity | intros [? [=]]].
  - rewrite fold_left_app. cbn [fold_left]. cbv zeta in IH.
    set (acc := fold_left (filterDstStep b h sel ty large) l (None, MaxFloat64)) in *.
    destruct IH as [I0 I1]. unfold filterDstStep.
    destruct (decide (id x ∈ sel)); [| by split].
    destruct (Qleb _ _ || negb large); [| by split].
    destruct (Qltb (loadOfMigrated b x ty) (snd acc)) eqn:Hlt; [| by split].
    cbn [fst snd]. split; [discriminate |]. intros _.
    apply Qltb_lt in Hlt.
    destruct (fst acc) eqn:Hf.
    + assert ((snd acc < MaxFloat64)%Q) by (apply I1; eauto). lra.
    + rewrite (I0 eq_refl) in Hlt. exact Hlt.
Qed.

(** X10: pickBestDstStore keeps the source, the region and the peer of the
    decision. When it returns no store, neither filter found one and the
    decision is unchanged. When it returns a store, the decision records
    its id and the operation that found it, the store is one of the
    balancer's that the filters of that operation selected, and a peer move
    is chosen over a leader transfer only when its load is strictly lower:
    on equal loads the leader transfer stands. The leader transfer is
    tried only for a leader peer on a dimension whose load can be
    transferred. *)
Theorem X10_pick_best_destination b h (dim : Z) :
  let large := isLargeRegion b h in
  let tl := filterDstStores b h transferLeader large in
  let mp := filterDstStores b h movePeer large in
  let tryTL := curPeerIsLeader (cur b) && loadCanTransfered dim in
  let r := pickBestDstStore b h dim in
  srcStoreID (snd r) = srcStoreID (cur b) /\
  region (snd r) = region (cur b) /\
  peer (snd r) = peer (cur b) /\
  srcPeerStat (snd r) = srcPeerStat (cur b) /\
  match fst r with
  | None =>
      snd r = cur b /\ fst mp = None /\ (tryTL = true -> fst tl = None)
  | Some s =>
      dstStoreID (snd r) = id s /\ s ∈ storeInfos b /\
      id s ∈ getCandidateStoreIDs b (opTy (snd r)) /\
      ((opTy (snd r) = movePeer /\ fst mp = Some s /\
        (tryTL = true -> (snd mp < snd tl)%Q)) \/
       (opTy (snd r) = transferLeader /\ tryTL = true /\ fst tl = Some s /\
        (snd tl <= snd mp)%Q))
  end.
Proof.
  cbv zeta. unfold pickBestDstStore. cbv zeta.
  set (large := isLargeRegion b h).
  pose proof (filterDst_inv b h (getCandidateStoreIDs b transferLeader)
                transferLeader large (storeInfos b)) as (_ & T1 & _).
  pose proof (filterDst_below_max b h (getCandidateStoreIDs b transferLeader)
                transferLeader large (storeInfos b)) as (T0 & T2).
  pose proof (filterDst_inv b h (getCandidateStoreIDs b movePeer)
                movePeer large (storeInfos b)) as (_ & M1 & _).
  pose proof (filterDst_below_max b h (getCandidateStoreIDs b movePeer)
                movePeer large (storeInfos b)) as (M0 & M2).
  cbv zeta in T0, T1, T2, M0, M1, M2.
  fold (filterDstStores b h transferLeader large) in T0, T1, T2.
  fold (filterDstStores b h movePeer large) in M0, M1, M2.
  destruct (filterDstStores b h transferLeader large) as [tdst tm].
  destruct (filterDstStores b h movePeer large) as [mdst mm].
  cbn [fst snd] in *.
  destruct (curPeerIsLeader (cur b) && loadCanTransfered dim) eqn:Htry.
  - destruct tdst as [ts |].
    + destruct (T1 ts eq_refl) as (_ & Tin & [Tsel _]).
      destruct (Qltb mm tm) eqn:Hlt.
      * destruct mdst as [ms |].
        -- destruct (M1 ms eq_refl) as (_ & Min & [Msel _]).
           cbn. apply Qltb_lt in Hlt.
           do 4 (split; [reflexivity |]).
           split; [reflexivity |]. split; [exact Min |]. split; [exact Msel |].
           left. by repeat split.
        -- exfalso. apply Qltb_lt in Hlt. rewrite (M0 eq_refl) in Hlt.
           assert ((tm < MaxFloat64)%Q) by (apply T2; eauto). lra.
      * cbn. apply Qltb_ge in Hlt.
        do 4 (split; [reflexivity |]).
        split; [reflexivity |]. split; [exact Tin |]. split; [exact Tsel |].
        right. by repeat split.
    + rewrite (T0 eq_refl).
      destruct (Qltb mm MaxFloat64) eqn:Hlt.
      * destruct mdst as [ms |].
        -- destruct (M1 ms eq_refl) as (_ & Min & [Msel _]).
           cbn. apply Qltb_lt in Hlt.
           do 4 (split; [reflexivity |]).
           split; [reflexivity |]. split; [exact Min |]. split; [exact Msel |].
           left. by repeat split.
        -- cbn. by repeat split.
      * cbn. apply Qltb_ge in Hlt. do 4 (split; [reflexivity |]).
        destruct mdst as [ms |]; [| by repeat split].
        exfalso. assert ((mm < MaxFloat64)%Q) by (apply M2; eauto). lra.
  - destruct (Qltb mm MaxFloat64) eqn:Hlt.
    + destruct mdst as [ms |].
      * destruct (M1 ms eq_refl) as (_ & Min & [Msel _]).
        cbn. do 4 (split; [reflexivity |]).
        split; [reflexivity |]. split; [exact Min |]. split; [exact Msel |].
        left. split; [reflexivity |]. split; [reflexivity | discriminate].
      * cbn. do 4 (split; [reflexivity |]).
        split; [reflexivity |]. split; [reflexivity | discriminate].
    + cbn. apply Qltb_ge in Hlt. do 4 (split; [reflexivity |]).
      destruct mdst as [ms |];
        [| split; [reflexivity |]; split; [reflexivity | discriminate]].
      exfalso. assert ((mm < MaxFloat64)%Q) by (apply M2; eauto). lra.
Qed.

End ChooserMore.

(* --------------------------------------------------------------------- *)
(* Operator construction                                                 *)
(* --------------------------------------------------------------------- *)

Section Construction.
Context {RegionInfo CoreStore Filter : Type}.
Context {cluster : Cluster RegionInfo CoreStore Filter}.
Implicit Types (b : multiBalancer RegionInfo).

(* What finishOperator returns *)
Lemma finishOperator_spec (d : decision RegionInfo) (r : option Operator)
    (counters : list Counter) :
  (length (finishOperator d r counters) <= 1)%nat /\
  (r = None -> finishOperator d r counters = []) /\
  forall op infl, (op, infl) ∈ finishOperator d r counters ->
    op_priority op = HighPriority /\
    (exists op0, r = Some op0 /\
       op_regionID op = op_regionID op0 /\
       op_counters op
       = (op_counters op0 ++ counters)
         ++ [schedulerCounter MultipleDimensionName "new-operator";
             schedulerCounter MultipleDimensionName (opType_String (opTy d))]) /\
    length (infl_loads infl) = 6%nat /\
    (opTy d = transferLeader ->
     forall i, 0 <= i < 3 -> ld (infl_loads infl) i = 0%Q) /\
    (forall st i, srcPeerStat d = Some st -> 0 <= i < 6 ->
       opTy d = movePeer \/ 3 <= i ->
       ld (infl_loads infl) i = ld (hp_Loads st) i).
Proof.
  unfold finishOperator. destruct r as [op0 |].
  - cbv zeta.
    match goal with
    | |- context [[(?o, ?f)]] => set (O := o); set (I := f)
    end.
    split; [cbn [length]; lia |]. split; [discriminate |].
    intros op infl Hin. apply list_elem_of_singleton in Hin.
    assert (Hop : op = O) by congruence.
    assert (Hinfl : infl = I) by congruence.
    clear Hin. subst op infl.
    split; [reflexivity |]. split; [by exists op0 |].
    split; [reflexivity |].
    subst I. cbn [infl_loads].
    split.
    + intros Hty i Hi. rewrite ld_map_indices by lia. rewrite Hty.
      destruct (Z.ltb_spec i 3); [reflexivity | lia].
    + intros st i Hst Hi Hc. rewrite ld_map_indices by lia. rewrite Hst.
      destruct (opTy d); [reflexivity |].
      destruct Hc as [Hc | Hc]; [discriminate |].
      destruct (Z.ltb_spec i 3); [lia | reflexivity].
  - split; [cbn [length]; lia |]. split; [reflexivity |].
    intros op infl Hin. by apply elem_of_nil in Hin.
Qed.

Lemma buildOperators_length b : (length (buildOperators b) <= 1)%nat.
Proof.
  unfold buildOperators. cbv zeta.
  destruct (region (cur b)) as [rg |]; [| cbn; lia].
  destruct (opTy (cur b)).
  - destruct (GetStorePeer rg _); [| cbn; lia]. apply finishOperator_spec.
  - destruct (GetStoreVoter rg _); [| cbn; lia]. apply finishOperator_spec.
Qed.

(** X11: buildOperators returns at most one operator with its influence.
    It returns none when a peer move finds no peer of the region on the
    source store, when a leader transfer finds no voter of the region on
    the destination store, and when the builder of the operator reports an
    error, be it CreateTransferLeaderOperator, CreateMoveLeaderOperator
    (the source peer is the leader) or CreateMovePeerOperator (it is not);
    it returns exactly one when the builder succeeds.
    The operator it returns has high priority; its influence has six
    loads, which for a peer move are the loads of the source statistic and
    for a leader transfer are those loads on the read dimensions and zero
    on the write dimensions 0, 1 and 2. *)
Theorem X11_build_operators b :
  let d := cur b in
  (length (buildOperators b) <= 1)%nat /\
  (forall rg, region d = Some rg -> opTy d = movePeer ->
     GetStorePeer rg (srcStoreID d) = None -> buildOperators b = []) /\
  (forall rg, region d = Some rg -> opTy d = transferLeader ->
     GetStoreVoter rg (dstStoreID d) = None -> buildOperators b = []) /\
  (forall rg, region d = Some rg -> opTy d = transferLeader ->
     CreateTransferLeaderOperator "transfer-hot-mix-leader" rg (srcStoreID d)
       (dstStoreID d) OpHotRegion = None ->
     buildOperators b = []) /\
  (forall rg srcPeer, region d = Some rg -> opTy d = movePeer ->
     GetStorePeer rg (srcStoreID d) = Some srcPeer ->
     GetLeader rg = Some srcPeer ->
     CreateMoveLeaderOperator "move-hot-mix-peer" rg OpHotRegion (srcStoreID d)
       {| StoreId := dstStoreID d; Role := Role srcPeer |} = None ->
     buildOperators b = []) /\
  (forall rg srcPeer, region d = Some rg -> opTy d = movePeer ->
     GetStorePeer rg (srcStoreID d) = Some srcPeer ->
     GetLeader rg <> Some srcPeer ->
     CreateMovePeerOperator "move-hot-mix-peer" rg OpHotRegion (srcStoreID d)
       {| StoreId := dstStoreID d; Role := Role srcPeer |} = None ->
     buildOperators b = []) /\
  (forall rg srcPeer op0, region d = Some rg -> opTy d = movePeer ->
     GetStorePeer rg (srcStoreID d) = Some srcPeer ->
     (if decide (GetLeader rg = Some srcPeer)
      then CreateMoveLeaderOperator "move-hot-mix-peer" rg OpHotRegion
             (srcStoreID d) {| StoreId := dstStoreID d; Role := Role srcPeer |}
      else CreateMovePeerOperator "move-hot-mix-peer" rg OpHotRegion
             (srcStoreID d) {| StoreId := dstStoreID d; Role := Role srcPeer |})
     = Some op0 ->
     length (buildOperators b) = 1%nat) /\
  (forall rg v op0, region d = Some rg -> opTy d = transferLeader ->
     GetStoreVoter rg (dstStoreID d) = Some v ->
     CreateTransferLeaderOperator "transfer-hot-mix-leader" rg (srcStoreID d)
       (dstStoreID d) OpHotRegion = Some op0 ->
     length (buildOperators b) = 1%nat) /\
  forall op infl, (op, infl) ∈ buildOperators b ->
    op_priority op = HighPriority /\
    length (infl_loads infl) = 6%nat /\
    (opTy d = transferLeader ->
     forall i, 0 <= i < 3 -> ld (infl_loads infl) i = 0%Q) /\
    (forall st i, srcPeerStat d = Some st -> 0 <= i < 6 ->
       opTy d = movePeer \/ 3 <= i ->
       ld (infl_loads infl) i = ld (hp_Loads st) i).
Proof.
  cbv zeta. unfold buildOperators. cbv zeta.
  split; [| split; [| split; [| split; [| split; [| split; [| split; [| split]]]]]]].
  - destruct (region (cur b)) as [rg |]; [| cbn; lia].
    destruct (opTy (cur b)) eqn:Hty.
    + destruct (GetStorePeer rg _); [| cbn; lia].
      apply finishOperator_spec.
    + destruct (GetStoreVoter rg _); [| cbn; lia].
      apply finishOperator_spec.
  - intros rg Hrg Hty Hp. by rewrite Hrg, Hty, Hp.
  - intros rg Hrg Hty Hv. by rewrite Hrg, Hty, Hv.
  - intros rg Hrg Hty Hc. rewrite Hrg, Hty.
    destruct (GetStoreVoter rg _); [| reflexivity].
    by apply finishOperator_spec.
  - intros rg srcPeer Hrg Hty Hp Hl Hc. rewrite Hrg, Hty, Hp.
    destruct (decide (GetLeader rg = Some srcPeer)); [| contradiction].
    by apply finishOperator_spec.
  - intros rg srcPeer Hrg Hty Hp Hl Hc. rewrite Hrg, Hty, Hp.
    destruct (decide (GetLeader rg = Some srcPeer)); [contradiction |].
    by apply finishOperator_spec.
  - intros rg srcPeer op0 Hrg Hty Hp Hc. rewrite Hrg, Hty, Hp, Hc.
    reflexivity.
  - intros rg v op0 Hrg Hty Hv Hc. rewrite Hrg, Hty, Hv, Hc.
    reflexivity.
  - intros op infl Hin.
    destruct (region (cur b)) as [rg |]; [| by apply elem_of_nil in Hin].
    destruct (opTy (cur b)) eqn:Hty.
    + destruct (GetStorePeer rg _); [| by apply elem_of_nil in Hin].
      apply finishOperator_spec in Hin as (H1 & _ & H3 & H4 & H5).
      rewrite Hty in H4, H5. by repeat split.
    + destruct (GetStoreVoter rg _); [| by apply elem_of_nil in Hin].
      apply finishOperator_spec in Hin as (H1 & _ & H3 & H4 & H5).
      rewrite Hty in H4, H5. by repeat split.
Qed.

End Construction.

(* --------------------------------------------------------------------- *)
(* More on the cycle                                                     *)
(* --------------------------------------------------------------------- *)

Section RegistrationMore.
Context {RegionInfo : Type}.
Implicit Types (h : multiDimensionScheduler) (deci : decision RegionInfo).
Implicit Types (batch : list (Operator * loadInfluence)).

(* The operators of a batch that was registered have distinct regions *)
Lemma registerPendings_NoDup h deci batch h' :
  registerPendings h deci batch = (h', true) ->
  NoDup (map RegionID (map fst batch)).
Proof.
  revert h. induction batch as [| [op infl] rest IH]; intros h Hreg; cbn.
  - constructor.
  - cbn in Hreg.
    destruct (regionPendings h !! RegionID op) eqn:E.
    + rewrite addPendingInfluence_conflict in Hreg by eauto. discriminate.
    + rewrite addPendingInfluence_fresh in Hreg by exact E.
      set (h1 := set_ledger h _ _) in Hreg.
      constructor; [| by apply (IH h1)].
      intros Hin. apply list_elem_of_In, in_map_iff in Hin as (o & Ho & Hin).
      apply in_map_iff in Hin as ([o' i'] & Ho' & Hin). cbn in Ho'. subst o'.
      apply list_elem_of_In in Hin.
      destruct (registerPendings_ok h1 deci rest h' Hreg o i' Hin) as (Hn & _).
      subst h1. cbn in Hn. rewrite Ho, lookup_insert_eq in Hn. discriminate.
Qed.

Lemma splitFrame_refl h : splitFrame h h [].
Proof.
  split; [constructor |]. split; [no_ops |]. split; [congruence |].
  split; [auto |]. split; [auto |]. by repeat split.
Qed.

(* One successful registration inside the loops of processSplit, after
   which hasSplit is set *)
Lemma splitFrame_register h0 h retOps deci batch h1 :
  splitFrame h0 h retOps ->
  batch <> [] ->
  registerPendings h deci batch = (h1, true) ->
  splitFrame h0 (set_hasSplit h1 true) (retOps ++ map fst batch).
Proof.
  intros (Hnd & Hin & _ & _ & _ & Hsub & Hni & Hme & Hps) Hne Hreg.
  pose proof (registerPendings_sub h deci batch) as [Hs1 _].
  pose proof (registerPendings_control h deci batch) as Hctl.
  pose proof (registerPendings_NoDup h deci batch h1 Hreg) as Hnd1.
  rewrite Hreg in Hs1, Hctl. cbn in Hs1, Hctl.
  destruct Hctl as (_ & _ & _ & _ & Hni1 & Hps1 & Hme1).
  assert (Hfresh : forall o, o ∈ map fst batch ->
            regionPendings h !! RegionID o = None /\
            regionPendings h1 !! RegionID o = Some (Some o)).
  { intros o Ho. apply list_elem_of_In, in_map_iff in Ho as ([o' i] & <- & Ho).
    apply list_elem_of_In in Ho.
    by destruct (registerPendings_ok h deci batch h1 Hreg o' i Ho) as (? & ? & _). }
  split; [| split; [| split; [| split; [| split]]]].
  - rewrite map_app. apply NoDup_app. split; [exact Hnd |].
    split; [| exact Hnd1].
    intros r Hr Hr'.
    apply list_elem_of_In, in_map_iff in Hr as (o & <- & Ho).
    apply list_elem_of_In, in_map_iff in Hr' as (o' & Heq & Ho').
    apply list_elem_of_In in Ho, Ho'.
    destruct (Hin o Ho) as [v Hv].
    destruct (Hfresh o' Ho') as [Hn _]. congruence.
  - intros op Hop. cbn [regionPendings set_hasSplit].
    apply elem_of_app in Hop as [Hop | Hop].
    + destruct (Hin op Hop) as [v Hv]. exists v.
      eapply lookup_weaken; eassumption.
    + destruct (Hfresh op Hop) as [_ Hs]. eauto.
  - reflexivity.
  - reflexivity.
  - intros _. cbn [regionPendings set_hasSplit]. right. intros Heq.
    destruct batch as [| [o i] rest]; [congruence |].
    destruct (Hfresh o) as [Hn Hs]; [cbn; left |].
    rewrite Heq in Hs.
    destruct (regionPendings h0 !! RegionID o) eqn:E; [| congruence].
    eapply lookup_weaken in E; [| exact Hsub]. congruence.
  - cbn [regionPendings needInit minExpLoads pendingSums set_hasSplit].
    split; [etrans; eassumption |]. repeat split; congruence.
Qed.

Lemma splitFrame_register_fail h0 h retOps deci batch h1 :
  splitFrame h0 h retOps ->
  registerPendings h deci batch = (h1, false) ->
  splitFrame h0 h1 [].
Proof.
  intros (Hnd & Hin & _ & Hmono & Hset & Hsub & Hni & Hme & Hps) Hreg.
  pose proof (registerPendings_sub h deci batch) as [Hs1 _].
  pose proof (registerPendings_control h deci batch) as Hctl.
  rewrite Hreg in Hs1, Hctl. cbn in Hs1, Hctl.
  destruct Hctl as (_ & _ & _ & Hhs1 & Hni1 & Hps1 & Hme1).
  split; [constructor |]. split; [no_ops |]. split; [congruence |].
  split; [intros; rewrite Hhs1; auto |].
  split.
  - rewrite Hhs1. intros Hh. destruct (Hset Hh) as [? | Hd]; [by left |].
    right. intros Heq. apply Hd. apply (anti_symm (⊆)); [| exact Hsub].
    rewrite <- Heq. exact Hs1.
  - split; [etrans; eassumption |]. repeat split; congruence.
Qed.

End RegistrationMore.

Section CycleMore.
Context {RegionInfo CoreStore Filter : Type}.
Context {cluster : Cluster RegionInfo CoreStore Filter}.
Implicit Types (h : multiDimensionScheduler) (b : multiBalancer RegionInfo).

Lemma buildSplitOperation_single (p : peerInfo) (dimID : Z) (splitRatio : Q) :
  buildSplitOperation p dimID splitRatio <> [] /\
  forall op infl, (op, infl) ∈ buildSplitOperation p dimID splitRatio ->
    op_priority op = HighPriority /\ infl = emptyInfluence.
Proof.
  unfold buildSplitOperation.
  destruct (convertToSplitInfo dimID) as [splitDim splitType].
  split; [discriminate |].
  intros op infl Hin. apply list_elem_of_singleton in Hin.
  by injection Hin as -> ->.
Qed.

Lemma splitPeers_frame h0 store maxID thr cands h retOps sum :
  splitFrame h0 h retOps ->
  match splitPeers store maxID thr cands h retOps sum with
  | Next (h', retOps') => splitFrame h0 h' retOps'
  | Return (h', _) r => r = [] /\ splitFrame h0 h' []
  end.
Proof.
  revert h retOps sum.
  induction cands as [| p rest IH]; intros h retOps sum Hinv;
    cbn [splitPeers]; [exact Hinv |].
  destruct (regionPendings h !! regionID p); [by apply IH |].
  destruct (splitRatioGe1 _ _); [by apply IH |].
  match goal with
  | |- context [registerPendings h ?d (buildSplitOperation p maxID ?q)] =>
      pose proof (proj1 (buildSplitOperation_single p maxID q)) as Hne;
      destruct (registerPendings h d (buildSplitOperation p maxID q))
        as [h1 ok] eqn:Hreg
  end.
  destruct ok.
  - pose proof (splitFrame_register _ _ _ _ _ _ Hinv Hne Hreg) as Hinv1.
    destruct (Qleb thr _); [exact Hinv1 |].
    apply IH. exact Hinv1.
  - split; [reflexivity |]. eapply splitFrame_register_fail; eassumption.
Qed.

Lemma splitStores_frame h0 stores b h retOps :
  splitFrame h0 h retOps ->
  match splitStores stores b h retOps with
  | Next (h', retOps') => splitFrame h0 h' retOps'
  | Return (h', _) r => r = [] /\ splitFrame h0 h' []
  end.
Proof.
  revert h retOps.
  induction stores as [| store rest IH]; intros h retOps Hinv;
    cbn [splitStores]; [exact Hinv |].
  destruct (splitCandidates b !! id store) as [cands |]; [| by apply IH].
  destruct (getMaxLoadInfo store (allowedDimensions b)) as [maxID maxLoad].
  destruct (Qleb maxLoad _); [by apply IH |].
  pose proof (splitPeers_frame h0 store maxID
                (maxLoad - 1 - balanceRatio h)%Q cands h retOps 0 Hinv) as Hp.
  destruct (splitPeers store maxID _ cands h retOps 0) as [[h' ro] r | [h' ro]].
  - exact Hp.
  - by apply IH.
Qed.

(* processSplit, as far as splitFrame goes *)
Lemma processSplit_frame b h :
  splitFrame (set_splitTrigeCount h (wrapInt (splitTrigeCount h + 1)))
             (fst (processSplit b h)) (snd (processSplit b h)).
Proof.
  unfold processSplit.
  set (h1 := set_splitTrigeCount h (wrapInt (splitTrigeCount h + 1))).
  destruct (decide (splitTrigeCount h1 = 5)) as [H5 | Hn5].
  - pose proof (splitStores_frame h1 (storeInfos b) b h1 []
                  (splitFrame_refl h1)) as Hs.
    destruct (splitStores (storeInfos b) b h1 []) as [[h2 ro] r | [h2 ro]];
      cbn [fst snd].
    + by destruct Hs as [-> Hs].
    + exact Hs.
  - cbn [fst snd]. apply splitFrame_refl.
Qed.

(* An emission, as far as the fields go that emit_spec leaves out *)
Lemma emit_frame b h (store dst : storeInfo) (p : peerInfo)
    (batch : list (Operator * loadInfluence)) b' h' ops :
  emit b h store dst p batch = ((b', h'), ops) ->
  NoDup (map RegionID ops) /\
  (length ops <= length batch)%nat /\
  hasSplit h' = hasSplit h /\ needInit h' = needInit h /\
  minExpLoads h' = minExpLoads h /\ pendingSums h' = pendingSums h /\
  allowedDimensions b' = allowedDimensions b /\
  skipSchedule b' = skipSchedule b /\
  ((b' = b /\ ops = [] /\ splitTrigeCount h' = splitTrigeCount h) \/
   (scheduledRegions b' = {[regionID p]} ∪ scheduledRegions b /\
    storeInfos b'
    = migratePeer (storeInfos b) (id store) (id dst) p (opTy (cur b)) /\
    ops = map fst batch /\ splitTrigeCount h' = 0)).
Proof.
  unfold emit. intros H.
  pose proof (registerPendings_control h (cur b) batch) as Hc. cbn in Hc.
  destruct Hc as (_ & _ & Hcnt & Hhs & Hni & Hps & Hme).
  destruct (registerPendings h (cur b) batch) as [h1 ok] eqn:Hreg.
  cbn [fst] in *.
  destruct ok; injection H as <- <- <-; cbn.
  - split; [by eapply registerPendings_NoDup |].
    split; [by rewrite length_map |].
    do 6 (split; [assumption || reflexivity |]).
    right. by repeat split.
  - split; [constructor |]. split; [lia |].
    do 6 (split; [assumption || reflexivity |]).
    left. by repeat split.
Qed.

(* The loop over the stores keeps the ratio in step with the relax flag *)
Lemma storeLoop_inStep stores b h :
  inStep h ->
  match storeLoop stores b h with
  | Next (_, h') => inStep h'
  | Return (_, h') _ => inStep h'
  end.
Proof.
  revert b h. induction stores as [| store rest IH]; intros b h Hin;
    cbn [storeLoop]; [exact Hin |].
  destruct (getMaxLoadInfo store (allowedDimensions b)) as [maxID maxLoad].
  destruct (Qleb maxLoad (1 + balanceRatio h)); [by apply IH |].
  set (h1 := if relaxBalanceCondition h then _ else h).
  assert (H1 : inStep h1).
  { subst h1. destruct (relaxBalanceCondition h) eqn:Hr; [| exact Hin].
    reflexivity. }
  pose proof (peerLoop_spec store maxID maxLoad
                (buildSortedPeers store maxID) b h1) as Hp.
  destruct (peerLoop store maxID maxLoad _ b h1) as [[b' h'] ops | [b' h']].
  - destruct Hp as (b2 & dst & p & _ & _ & He).
    apply emit_spec in He as (_ & _ & Hx & Hr & _).
    unfold inStep in *. by rewrite Hx, Hr.
  - destruct Hp as [-> _]. by apply IH.
Qed.

(* solveMultiLoads, as far as the earlier lemma on it leaves out *)
Lemma solveMultiLoads_frame b h b' h' ops :
  solveMultiLoads b h = ((b', h'), ops) ->
  NoDup (map RegionID ops) /\
  needInit h' = needInit h /\
  minExpLoads h' = minExpLoads h /\ pendingSums h' = pendingSums h /\
  (hasSplit h = true -> hasSplit h' = true) /\
  (hasSplit h' = true ->
   hasSplit h = true \/ regionPendings h' <> regionPendings h) /\
  allowedDimensions b' = allowedDimensions b /\
  skipSchedule b' = skipSchedule b /\
  (scheduledRegions b' = scheduledRegions b \/
   exists r, (r ∉ scheduledRegions b) /\
             scheduledRegions b' = {[r]} ∪ scheduledRegions b) /\
  ((length ops <= 1)%nat \/ splitTrigeCount h' = 5) /\
  (inStep h -> inStep h').
Proof.
  unfold solveMultiLoads. intros Hsolve.
  destruct (skipSchedule b) eqn:Hskip.
  { injection Hsolve as <- <- <-.
    split; [constructor |]. do 3 (split; [reflexivity |]).
    split; [auto |]. split; [auto |]. do 2 (split; [auto |]).
    split; [by left |]. split; [left; cbn; lia | auto]. }
  cbv zeta in Hsolve.
  match type of Hsolve with
  | context [storeLoop ?l ?bb h] =>
      pose proof (storeLoop_spec l bb h) as Hl;
      pose proof (storeLoop_inStep l bb h) as Hi;
      destruct (storeLoop l bb h) as [[bx hx] opsx | [b3 h3]]
  end.
  - injection Hsolve as -> -> ->.
    destruct Hl as (h1 & b2 & store & dst & p & (r & f & ->) & Hs & Hn & He).
    pose proof (buildOperators_length b2) as Hlen.
    apply emit_frame in He
      as (Hnd & Hle & Hhs & Hni & Hme & Hps & Had & Hsk & Hcase).
    destruct Hs as (Hst & Hal & Hsc & Hss). cbn in Hst, Hal, Hsc, Hss, Hn.
    cbn in Hhs, Hni, Hme, Hps.
    split; [exact Hnd |]. do 3 (split; [assumption |]).
    split; [intros; rewrite Hhs; assumption |].
    split; [intros Hh; left; by rewrite <- Hhs |].
    split; [congruence |].
    split; [congruence |].
    split.
    { destruct Hcase as [(-> & _) | (Hsch & _)]; [left; exact Hsc |].
      right. exists (regionID p). split; [exact Hn |].
      by rewrite Hsch, Hsc. }
    split; [left; lia | exact Hi].
  - destruct Hl as [(r & f & ->) (Hst & Hal & Hsc & Hss)].
    cbn in Hst, Hal, Hsc, Hss.
    match type of Hsolve with
    | context [if negb ?x && ?y then ?u else ?v] =>
        set (h4 := if negb x && y then u else v) in *;
        assert (H4 : exists r' f', h4 = set_balance h r' f')
          by (subst h4; destruct (negb x && y); eexists _, _; reflexivity);
        assert (Hi4 : inStep h -> inStep h4)
    end.
    { intros Hin. specialize (Hi Hin). subst h4.
      destruct (relaxBalanceCondition (set_balance h r f)) eqn:Hr; cbn [negb andb];
        [exact Hi |].
      destruct (Qleb _ _); [| exact Hi].
      unfold inStep in *. cbn [balanceRatio relaxBalanceCondition set_balance] in *.
      rewrite Hr in Hi. by rewrite Hi. }
    destruct H4 as (r' & f' & H4). rewrite H4 in Hsolve, Hi4. clear h4 H4.
    destruct (Qltb _ _).
    + pose proof (processSplit_frame b3 (set_balance h r' f'))
        as (Hnd & _ & _ & Hmono & Hset & _ & Hni & Hme & Hps).
      pose proof (processSplit_spec b3 (set_balance h r' f'))
        as (_ & H5 & _ & Hx & Hr & _).
      destruct (processSplit b3 (set_balance h r' f')) as [h5 ops5].
      injection Hsolve as <- <- <-. cbn in *.
      split; [exact Hnd |]. do 3 (split; [assumption |]).
      split; [exact Hmono |]. split; [exact Hset |].
      do 2 (split; [congruence |]). split; [by left |].
      split.
      { destruct ops5 as [| o ops5]; [left; cbn; lia |].
        right. by apply H5. }
      intros Hin. specialize (Hi4 Hin). unfold inStep in *.
      by rewrite Hx, Hr.
    + injection Hsolve as <- <- <-. cbn.
      split; [constructor |]. do 3 (split; [reflexivity |]).
      split; [auto |]. split; [auto |].
      do 2 (split; [congruence |]). split; [by left |].
      split; [left; cbn; lia | exact Hi4].
Qed.

End CycleMore.

(* --------------------------------------------------------------------- *)
(* More on dispatch                                                      *)
(* --------------------------------------------------------------------- *)

Section DispatchMore.
Context {RegionInfo CoreStore Filter : Type}.
Implicit Types (c : Cluster RegionInfo CoreStore Filter).
Implicit Types (st : State RegionInfo) (h : multiDimensionScheduler).

Lemma cycleScheduler_fields c h :
  let h2 := cycleScheduler c h in
  inStep (cluster := c) h2 /\
  relaxBalanceCondition h2 = relaxBalanceCondition h /\
  splitTrigeCount h2 = splitTrigeCount h /\
  hasSplit h2 = hasSplit h /\ needInit h2 = needInit h /\
  regionPendings h2 = regionPendings (summaryPendingInfluence (cluster := c) h).
Proof.
  cbv zeta. unfold cycleScheduler.
  rewrite summaryPendingInfluence_set_balance.
  pose proof (summaryPendingInfluence_control (cluster := c) h)
    as (_ & Hx & Hc & Hs & Hi). cbv zeta in *.
  unfold inStep. cbn [balanceRatio relaxBalanceCondition splitTrigeCount
    hasSplit needInit regionPendings set_balance].
  by repeat split.
Qed.

(* The four ways of dispatch up to solveMultiLoads *)
Lemma prepare_cases c st :
  let h2 := cycleScheduler c (sche st) in
  (0 < GetHotSchedulerMode (Cluster := c) /\
   prepare (cluster := c) st = inl st) \/
  (GetHotSchedulerMode (Cluster := c) <= 0 /\
   size (regionPendings h2) <> 0%nat /\
   relaxBalanceCondition h2 || hasSplit h2 = true /\
   prepare (cluster := c) st
   = inl {| sche := h2; curBalancer := curBalancer st |}) \/
  (GetHotSchedulerMode (Cluster := c) <= 0 /\
   size (regionPendings h2) = 0%nat /\
   exists f,
     prepare (cluster := c) st
     = inr (fst (newMultiBalancer (cluster := c)
                   (set_needInit (set_hasSplit h2 false) true)),
            set_needInit (set_needInit (set_needInit (set_hasSplit h2 false) true) f)
                         false)) \/
  (GetHotSchedulerMode (Cluster := c) <= 0 /\
   size (regionPendings h2) <> 0%nat /\
   relaxBalanceCondition h2 = false /\ hasSplit h2 = false /\
   ((exists b0, curBalancer st = Some b0 /\ needInit h2 = false /\
                prepare (cluster := c) st = inr (b0, h2)) \/
    ((curBalancer st = None \/ needInit h2 = true) /\
     exists f,
       prepare (cluster := c) st
       = inr (fst (newMultiBalancer (cluster := c) h2),
              set_needInit (set_needInit h2 f) false)))).
Proof.
  cbv zeta. unfold prepare.
  destruct (Z.ltb_spec 0 (GetHotSchedulerMode (Cluster := c))) as [Hm | Hm];
    [left; by split | right].
  cbv zeta. fold (cycleScheduler c (sche st)).
  set (h2 := cycleScheduler c (sche st)).
  unfold shouldWaitPendingOps.
  destruct (decide (size (regionPendings h2) = 0%nat)) as [Hz | Hnz].
  - right. left. split; [exact Hm |]. split; [exact Hz |].
    set (h3 := set_needInit (set_hasSplit h2 false) true).
    destruct (newMultiBalancer_spec (cluster := c) (RegionInfo := RegionInfo) h3)
      as [_ [f Hf]].
    exists f. f_equal. unfold balancerOfCycle.
    assert (Hni : needInit h3 = true) by reflexivity.
    destruct (curBalancer st); rewrite ?Hni;
      destruct (newMultiBalancer (cluster := c) h3) as [b' h'];
      cbn [fst snd] in *; by subst h'.
  - destruct (relaxBalanceCondition h2 || hasSplit h2) eqn:Hw.
    + left. by repeat split.
    + right. right. apply orb_false_iff in Hw as [Hw1 Hw2].
      split; [exact Hm |]. split; [exact Hnz |].
      split; [exact Hw1 |]. split; [exact Hw2 |].
      unfold balancerOfCycle.
      destruct (newMultiBalancer_spec (cluster := c) (RegionInfo := RegionInfo) h2)
        as [_ [f Hf]].
      destruct (curBalancer st) as [b0 |] eqn:Hcb.
      * destruct (needInit h2) eqn:Hni.
        -- right. split; [by right |]. exists f.
           destruct (newMultiBalancer (cluster := c) h2) as [b' h'].
           cbn [fst snd] in *. by subst h'.
        -- left. exists b0. by repeat split.
      * right. split; [by left |]. exists f.
        destruct (newMultiBalancer (cluster := c) h2) as [b' h'].
        cbn [fst snd] in *. by subst h'.
Qed.

(* The scheduler on which dispatch calls solveMultiLoads *)
Lemma prepare_inr c st (b : multiBalancer RegionInfo) h :
  prepare (cluster := c) st = inr (b, h) ->
  GetHotSchedulerMode (Cluster := c) <= 0 /\
  inStep (cluster := c) h /\
  hasSplit h = false /\ needInit h = false /\
  relaxBalanceCondition h = relaxBalanceCondition (sche st) /\
  splitTrigeCount h = splitTrigeCount (sche st) /\
  regionPendings h
  = regionPendings (summaryPendingInfluence (cluster := c) (sche st)) /\
  (hasSplit (sche st) = true -> observesNoPending c st).
Proof.
  intros Hp.
  pose proof (cycleScheduler_fields c (sche st))
    as (Hin & Hx & Hc & Hs & Hi & Hrp). cbv zeta in *.
  unfold observesNoPending, pendingSeen. rewrite <- Hrp.
  set (h2 := cycleScheduler c (sche st)) in *.
  destruct (prepare_cases c st)
    as [[_ H] | [(_ & _ & _ & H) | [(Hm & Hz & f & H)
        | (Hm & Hnz & Hr & Hhs & [(b0 & _ & Hni & H) | (_ & f & H)])]]];
    fold h2 in H; rewrite H in Hp; try discriminate;
    injection Hp as <- <-.
  - unfold inStep in *. fields. by repeat split.
  - split; [exact Hm |]. split; [exact Hin |]. split; [exact Hhs |].
    split; [exact Hni |]. do 3 (split; [assumption || reflexivity |]).
    intros Hh. unfold h2 in *. congruence.
  - unfold inStep in *. fields.
    split; [exact Hm |]. split; [exact Hin |]. split; [exact Hhs |].
    split; [reflexivity |]. do 3 (split; [assumption || reflexivity |]).
    intros Hh. unfold h2 in *. congruence.
Qed.

(* The state with which dispatch returns before solveMultiLoads *)
Lemma prepare_inl c st st' :
  prepare (cluster := c) st = inl st' ->
  snd (dispatch (cluster := c) st) = [] /\
  fst (dispatch (cluster := c) st) = st' /\
  curBalancer st' = curBalancer st /\
  hasSplit (sche st') = hasSplit (sche st) /\
  needInit (sche st') = needInit (sche st) /\
  (st' = st \/
   (GetHotSchedulerMode (Cluster := c) <= 0 /\ inStep (cluster := c) (sche st') /\
    ~ observesNoPending c st /\
    regionPendings (sche st')
    = regionPendings (summaryPendingInfluence (cluster := c) (sche st)))).
Proof.
  intros Hp. unfold dispatch. rewrite Hp. cbn [fst snd].
  split; [reflexivity |]. split; [reflexivity |].
  pose proof (cycleScheduler_fields c (sche st))
    as (Hin & Hx & Hc & Hs & Hi & Hrp). cbv zeta in *.
  unfold observesNoPending, pendingSeen. rewrite <- Hrp.
  set (h2 := cycleScheduler c (sche st)) in *.
  destruct (prepare_cases c st)
    as [[_ H] | [(Hm & Hnz & _ & H) | [(_ & _ & f & H)
        | (_ & _ & _ & _ & [(b0 & _ & _ & H) | (_ & f & H)])]]];
    fold h2 in H; rewrite H in Hp; try discriminate;
    injection Hp as <-.
  - do 3 (split; [reflexivity |]). by left.
  - cbn [sche curBalancer]. do 3 (split; [assumption || reflexivity |]).
    right. split; [exact Hm |]. split; [exact Hin |].
    split; [| reflexivity]. intros [_ Hz]. contradiction.
Qed.

End DispatchMore.

(* --------------------------------------------------------------------- *)
(* solveMultiLoads and processSplit as a whole                           *)
(* --------------------------------------------------------------------- *)

Section CycleProps.
Context {RegionInfo CoreStore Filter : Type}.
Context {cluster : Cluster RegionInfo CoreStore Filter}.
Implicit Types (h : multiDimensionScheduler) (b : multiBalancer RegionInfo).

(** X12: solveMultiLoads returns operators of pairwise distinct regions,
    and more than one only from the split fallback, with the split counter
    at 5. It adds at most one region to the scheduled regions, one that was
    not scheduled, and leaves the allowed dimensions and the skip flag of
    the balancer and needInit, minExpLoads and the pending sums of the
    scheduler as they were. On a balancer marked to skip it changes
    nothing and returns nothing. *)
Theorem X12_solve_moves_one_region b h :
  let b' := fst (fst (solveMultiLoads b h)) in
  let h' := snd (fst (solveMultiLoads b h)) in
  let ops := snd (solveMultiLoads b h) in
  NoDup (map RegionID ops) /\
  ((length ops <= 1)%nat \/ splitTrigeCount h' = 5) /\
  (scheduledRegions b' = scheduledRegions b \/
   exists r, (r ∉ scheduledRegions b) /\
             scheduledRegions b' = {[r]} ∪ scheduledRegions b) /\
  allowedDimensions b' = allowedDimensions b /\
  skipSchedule b' = skipSchedule b /\
  needInit h' = needInit h /\
  minExpLoads h' = minExpLoads h /\
  pendingSums h' = pendingSums h /\
  (skipSchedule b = true -> b' = b /\ h' = h /\ ops = []).
Proof.
  cbv zeta.
  destruct (solveMultiLoads b h) as [[b' h'] ops] eqn:E. cbn [fst snd].
  pose proof (solveMultiLoads_frame b h b' h' ops E)
    as (Hnd & Hni & Hme & Hps & _ & _ & Had & Hsk & Hsc & Hlen & _).
  do 8 (split; [assumption |]).
  intros Hskip. unfold solveMultiLoads in E. rewrite Hskip in E.
  by injection E as <- <- <-.
Qed.

(** X14: processSplit returns operators of pairwise distinct regions. When
    it returns any, the split counter stands at 5 and hasSplit is set. It
    never clears hasSplit, and sets it only together with a change of the
    region-pending index. When the incremented counter is not 5 it does
    nothing but store that counter. needInit, minExpLoads and the pending
    sums are as they were. *)
Theorem X14_split_sets_pause b h :
  let h' := fst (processSplit b h) in
  let ops := snd (processSplit b h) in
  NoDup (map RegionID ops) /\
  (ops <> [] -> splitTrigeCount h' = 5 /\ hasSplit h' = true) /\
  (hasSplit h = true -> hasSplit h' = true) /\
  (hasSplit h' = true ->
   hasSplit h = true \/ regionPendings h' <> regionPendings h) /\
  (wrapInt (splitTrigeCount h + 1) <> 5 ->
   h' = set_splitTrigeCount h (wrapInt (splitTrigeCount h + 1)) /\ ops = []) /\
  needInit h' = needInit h /\
  minExpLoads h' = minExpLoads h /\
  pendingSums h' = pendingSums h.
Proof.
  cbv zeta.
  pose proof (processSplit_frame b h)
    as (Hnd & _ & Hne & Hmono & Hset & _ & Hni & Hme & Hps).
  pose proof (processSplit_spec b h) as (_ & H5 & _).
  cbn [hasSplit regionPendings needInit minExpLoads pendingSums
       set_splitTrigeCount] in *.
  split; [exact Hnd |].
  split; [intros Hops; split; [by apply H5 | by apply Hne] |].
  split; [exact Hmono |]. split; [exact Hset |].
  split; [| by repeat split].
  intros Hn5. unfold processSplit.
  destruct (decide _) as [H5' | _]; [| by split].
  cbn [splitTrigeCount set_splitTrigeCount] in H5'. contradiction.
Qed.

(* The operators of buildOperators have high priority *)
Lemma buildOperators_priority b (op : Operator) (infl : loadInfluence) :
  (op, infl) ∈ buildOperators b -> op_priority op = HighPriority.
Proof.
  unfold buildOperators. cbv zeta. intros Hin.
  destruct (region (cur b)) as [rg |]; [| by apply elem_of_nil in Hin].
  destruct (opTy (cur b)).
  - destruct (GetStorePeer rg _); [| by apply elem_of_nil in Hin].
    by apply finishOperator_spec in Hin as (H1 & _).
  - destruct (GetStoreVoter rg _); [| by apply elem_of_nil in Hin].
    by apply finishOperator_spec in Hin as (H1 & _).
Qed.

Lemma splitPeers_priority store maxID thr cands h (retOps : list Operator) sum :
  Forall (fun op => op_priority op = HighPriority) retOps ->
  match splitPeers store maxID thr cands h retOps sum with
  | Next (_, retOps') =>
      Forall (fun op => op_priority op = HighPriority) retOps'
  | Return _ r => r = []
  end.
Proof.
  revert h retOps sum.
  induction cands as [| p rest IH]; intros h retOps sum Hall;
    cbn [splitPeers]; [exact Hall |].
  destruct (regionPendings h !! regionID p); [by apply IH |].
  destruct (splitRatioGe1 _ _); [by apply IH |].
  match goal with
  | |- context [registerPendings h ?d (buildSplitOperation p maxID ?q)] =>
      pose proof (proj2 (buildSplitOperation_single p maxID q)) as Hpr;
      destruct (registerPendings h d (buildSplitOperation p maxID q))
        as [h1 ok]
  end.
  destruct ok; [| reflexivity].
  match goal with
  | |- context [retOps ++ ?l] =>
      assert (Hall1 : Forall (fun op => op_priority op = HighPriority)
                             (retOps ++ l))
  end.
  { apply Forall_app. split; [exact Hall |].
    apply Forall_forall. intros op Hop.
    apply list_elem_of_fmap in Hop as [[o i] [-> Hin]].
    by destruct (Hpr o i Hin). }
  destruct (Qleb thr _); [exact Hall1 |].
  by apply IH.
Qed.

Lemma splitStores_priority stores b h (retOps : list Operator) :
  Forall (fun op => op_priority op = HighPriority) retOps ->
  match splitStores stores b h retOps with
  | Next (_, retOps') =>
      Forall (fun op => op_priority op = HighPriority) retOps'
  | Return _ r => r = []
  end.
Proof.
  revert h retOps.
  induction stores as [| store rest IH]; intros h retOps Hall;
    cbn [splitStores]; [exact Hall |].
  destruct (splitCandidates b !! id store) as [cands |]; [| by apply IH].
  destruct (getMaxLoadInfo store (allowedDimensions b)) as [maxID maxLoad].
  destruct (Qleb maxLoad _); [by apply IH |].
  pose proof (splitPeers_priority store maxID
                (maxLoad - 1 - balanceRatio h)%Q cands h retOps 0 Hall) as Hp.
  destruct (splitPeers store maxID _ cands h retOps 0) as [[h' ro] r | [h' ro]].
  - exact Hp.
  - by apply IH.
Qed.

Lemma processSplit_priority b h :
  Forall (fun op => op_priority op = HighPriority) (snd (processSplit b h)).
Proof.
  unfold processSplit.
  destruct (decide _) as [H5 | Hn5]; [| constructor].
  match goal with
  | |- context [splitStores ?l b ?h1 []] =>
      pose proof (splitStores_priority l b h1 [] (Forall_nil_2 _)) as Hs;
      destruct (splitStores l b h1 []) as [[h2 ro] r | [h2 ro]]
  end; cbn [snd].
  - subst r. constructor.
  - exact Hs.
Qed.

Lemma solveMultiLoads_priority b h :
  Forall (fun op => op_priority op = HighPriority) (snd (solveMultiLoads b h)).
Proof.
  unfold solveMultiLoads.
  destruct (skipSchedule b); [constructor |].
  cbv zeta.
  match goal with
  | |- context [storeLoop ?l ?bb h] =>
      pose proof (storeLoop_spec l bb h) as Hl;
      destruct (storeLoop l bb h) as [[bx hx] opsx | [b3 h3]]
  end.
  - cbn [snd].
    destruct Hl as (h1 & b2 & store & dst & p & _ & _ & _ & He).
    apply emit_frame in He as (_ & _ & _ & _ & _ & _ & _ & _ & Hcase).
    destruct Hcase as [(_ & -> & _) | (_ & _ & -> & _)]; [constructor |].
    apply Forall_forall. intros op Hop.
    apply list_elem_of_fmap in Hop as [[o i] [-> Hin]].
    by apply buildOperators_priority in Hin.
  - match goal with
    | |- context [if negb ?x && ?y then ?u else ?v] =>
        set (h4 := if negb x && y then u else v)
    end.
    destruct (Qltb _ _); [| constructor].
    pose proof (processSplit_priority b3 h4) as Hp.
    by destruct (processSplit b3 h4) as [h5 ops5].
Qed.

End CycleProps.

(* --------------------------------------------------------------------- *)
(* A cycle and a run of cycles as a whole                                *)
(* --------------------------------------------------------------------- *)

(* Distinct keys that a map gained over a sub-map of it count in its size *)
Lemma size_gained {A : Type} (m m' : gmap Z A) (ks : list Z) :
  m ⊆ m' -> NoDup ks ->
  (forall k, k ∈ ks -> m !! k = None /\ is_Some (m' !! k)) ->
  (size m + length ks <= size m')%nat.
Proof.
  revert m. induction ks as [| k ks IH]; intros m Hsub Hnd Hk.
  - cbn. apply map_subseteq_size in Hsub. lia.
  - apply NoDup_cons in Hnd as [Hnin Hnd].
    destruct (Hk k) as [Hn [v Hv]]; [left |].
    assert (IHm : (size (<[k := v]> m) + length ks <= size m')%nat).
    { apply IH; [| exact Hnd |].
      - by apply insert_subseteq_l.
      - intros k' Hk'. destruct (Hk k') as [Hn' Hs']; [by right |].
        split; [| exact Hs'].
        rewrite lookup_insert_ne; [exact Hn' |].
        intros ->. contradiction. }
    rewrite map_size_insert_None in IHm by exact Hn. cbn [length]. lia.
Qed.

Section DispatchProps.
Context {RegionInfo CoreStore Filter : Type}.
Implicit Types (c : Cluster RegionInfo CoreStore Filter).
Implicit Types (st : State RegionInfo) (h : multiDimensionScheduler).

(* The garbage collection of a cycle only removes entries *)
Lemma summaryPendingInfluence_sub c h :
  regionPendings (summaryPendingInfluence (cluster := c) h) ⊆ regionPendings h.
Proof.
  apply map_subseteq_spec. intros r v.
  rewrite summaryPendingInfluence_lookup.
  destruct (regionPendings h !! r) as [w |]; [| done].
  by destruct (gcExpired _ _ _ _ w).
Qed.

(* dispatch either returns early or returns what solveMultiLoads returns *)
Lemma dispatch_cases c st :
  (exists st', prepare (cluster := c) st = inl st' /\
               dispatch (cluster := c) st = (st', [])) \/
  (exists (b : multiBalancer RegionInfo) h b' h' ops,
     prepare (cluster := c) st = inr (b, h) /\
     solveMultiLoads (cluster := c) b h = ((b', h'), ops) /\
     dispatch (cluster := c) st
     = ({| sche := h'; curBalancer := Some b' |}, ops)).
Proof.
  unfold dispatch.
  destruct (prepare (cluster := c) st) as [st' | [b h]] eqn:Hp.
  - left. by exists st'.
  - right. destruct (solveMultiLoads (cluster := c) b h) as [[b' h'] ops] eqn:E.
    by exists b, h, b', h', ops.
Qed.

(** X13: the operators that a cycle of Schedule returns have pairwise
    distinct regions; each of them is registered under its region in the
    region-pending index that the cycle leaves, and that region had no
    entry when the garbage collection of the cycle was done. Apart from
    that garbage collection the cycle removes no entry, so the index has
    at least one entry more for every operator returned. *)
Theorem X13_cycle_registers_operators c st :
  let gc := summaryPendingInfluence (cluster := c) (sche st) in
  let st' := fst (dispatch (cluster := c) st) in
  let ops := snd (dispatch (cluster := c) st) in
  NoDup (map RegionID ops) /\
  (forall op, op ∈ ops ->
     regionPendings gc !! RegionID op = None /\
     regionPendings (sche st') !! RegionID op = Some (Some op)) /\
  regionPendings gc ⊆ regionPendings (sche st') /\
  (size (regionPendings gc) + length ops
   <= size (regionPendings (sche st')))%nat.
Proof.
  cbv zeta.
  assert (Hmain :
    NoDup (map RegionID (snd (dispatch (cluster := c) st))) /\
    (forall op, op ∈ snd (dispatch (cluster := c) st) ->
       regionPendings (summaryPendingInfluence (cluster := c) (sche st))
         !! RegionID op = None /\
       regionPendings (sche (fst (dispatch (cluster := c) st)))
         !! RegionID op = Some (Some op)) /\
    regionPendings (summaryPendingInfluence (cluster := c) (sche st))
    ⊆ regionPendings (sche (fst (dispatch (cluster := c) st)))).
  { destruct (dispatch_cases c st)
      as [(st' & Hp & ->) | (b & h & b' & h' & ops & Hp & Hs & ->)];
      cbn [fst snd sche].
    - split; [constructor |]. split; [no_ops |].
      apply prepare_inl in Hp as (_ & _ & _ & _ & _ & [-> | (_ & _ & _ & ->)]);
        [apply summaryPendingInfluence_sub | reflexivity].
    - apply prepare_inr in Hp as (_ & _ & _ & _ & _ & _ & Hrp & _).
      pose proof (solveMultiLoads_frame (cluster := c) b h b' h' ops Hs)
        as (Hnd & _).
      apply solveMultiLoads_spec in Hs as (Hsub & _ & Hops & _).
      rewrite <- Hrp. split; [exact Hnd |]. split; [exact Hops | exact Hsub]. }
  destruct Hmain as (Hnd & Hops & Hsub).
  split; [exact Hnd |]. split; [exact Hops |]. split; [exact Hsub |].
  rewrite <- (length_map RegionID).
  apply size_gained; [exact Hsub | exact Hnd |].
  intros k Hk. apply list_elem_of_fmap in Hk as [op [-> Hop]].
  destruct (Hops op Hop) as [Hn Hs]. split; [exact Hn | eauto].
Qed.

(* A scheduler that has split returns before solveMultiLoads in a cycle
   that does not observe zero pending regions *)
Lemma dispatch_paused c st :
  hasSplit (sche st) = true ->
  ~ observesNoPending c st ->
  snd (dispatch (cluster := c) st) = [] /\
  hasSplit (sche (fst (dispatch (cluster := c) st))) = true /\
  curBalancer (fst (dispatch (cluster := c) st)) = curBalancer st /\
  needInit (sche (fst (dispatch (cluster := c) st))) = needInit (sche st).
Proof.
  intros Hh Hn.
  destruct (dispatch_cases c st)
    as [(st' & Hp & ->) | (b & h & b' & h' & ops & Hp & Hs & ->)];
    cbn [fst snd sche].
  - apply prepare_inl in Hp as (_ & _ & Hcb & Hhs & Hni & _).
    split; [reflexivity |]. split; [congruence |]. by split.
  - apply prepare_inr in Hp as (_ & _ & _ & _ & _ & _ & _ & Hobs).
    exfalso. by apply Hn, Hobs.
Qed.

(* A cycle that clears hasSplit observed zero pending regions *)
Lemma dispatch_unpause c st :
  hasSplit (sche st) = true ->
  hasSplit (sche (fst (dispatch (cluster := c) st))) = false ->
  observesNoPending c st.
Proof.
  intros Hh Hf.
  destruct (dispatch_cases c st)
    as [(st' & Hp & Hd) | (b & h & b' & h' & ops & Hp & Hs & Hd)];
    rewrite Hd in Hf; cbn [fst snd sche] in Hf.
  - apply prepare_inl in Hp as (_ & _ & _ & Hhs & _). congruence.
  - apply prepare_inr in Hp as (_ & _ & _ & _ & _ & _ & _ & Hobs).
    by apply Hobs.
Qed.

Lemma opsAt_cons c (cs : list (Cluster RegionInfo CoreStore Filter)) st
    (n : nat) :
  opsAt (c :: cs) st (S n) = opsAt cs (fst (dispatch (cluster := c) st)) n.
Proof. reflexivity. Qed.

(** X15: once a split has set hasSplit, Schedule returns no operator and
    leaves hasSplit, the current balancer and needInit as they are, over
    every run of cycles none of which observes zero pending regions; and a
    cycle after which hasSplit is clear again has observed zero pending
    regions. *)
Theorem X15_split_pause (cs : list (Cluster RegionInfo CoreStore Filter)) st :
  hasSplit (sche st) = true ->
  (neverIdle cs st ->
     hasSplit (sche (run cs st)) = true /\
     curBalancer (run cs st) = curBalancer st /\
     needInit (sche (run cs st)) = needInit (sche st) /\
     forall n, opsAt cs st n = []) /\
  (forall c,
     hasSplit (sche (fst (dispatch (cluster := c) st))) = false ->
     observesNoPending c st).
Proof.
  intros Hh. split; [| intros c; by apply dispatch_unpause].
  revert st Hh. induction cs as [| c cs IH]; intros st Hh Hq.
  - cbn [run]. do 3 (split; [assumption || reflexivity |]).
    intros n. unfold opsAt. by rewrite lookup_nil.
  - destruct Hq as [Hn Hq]. cbn [run].
    destruct (dispatch_paused c st Hh Hn) as (Hops & Hh1 & Hcb & Hni).
    destruct (IH _ Hh1 Hq) as (I1 & I2 & I3 & I4).
    split; [exact I1 |]. split; [congruence |]. split; [congruence |].
    intros [| n]; [exact Hops |]. rewrite opsAt_cons. apply I4.
Qed.

(** X16: after a cycle of Schedule that passes the mode check the balance
    ratio of the scheduler is in step with its relax flag: it is the hot
    balance ratio of the cluster options when the flag is clear and that
    ratio plus allowedDeviation when the flag is set, whatever the ratio
    was before the cycle. *)
Theorem X16_ratio_in_step c st :
  GetHotSchedulerMode (Cluster := c) <= 0 ->
  inStep (cluster := c) (sche (fst (dispatch (cluster := c) st))).
Proof.
  intros Hm.
  destruct (dispatch_cases c st)
    as [(st' & Hp & ->) | (b & h & b' & h' & ops & Hp & Hs & ->)];
    cbn [fst snd sche].
  - pose proof (cycleScheduler_fields c (sche st)) as (Hin & _).
    cbv zeta in Hin.
    destruct (prepare_cases c st)
      as [[Hm' _] | [(_ & _ & _ & H) | [(_ & _ & f & H)
          | (_ & _ & _ & _ & [(b0 & _ & _ & H) | (_ & f & H)])]]];
      [lia | | | |]; cbv zeta in H; rewrite H in Hp; try discriminate.
    by injection Hp as <-.
  - apply prepare_inr in Hp as (_ & Hin & _).
    by apply (solveMultiLoads_frame (cluster := c) b h b' h' ops Hs).
Qed.

(* A cycle leaves needInit set only when it returns early on a scheduler
   that had it set *)
Lemma dispatch_needInit c st :
  needInit (sche (fst (dispatch (cluster := c) st))) = true ->
  needInit (sche st) = true /\
  prepare (cluster := c) st = inl (fst (dispatch (cluster := c) st)).
Proof.
  destruct (dispatch_cases c st)
    as [(st' & Hp & ->) | (b & h & b' & h' & ops & Hp & Hs & ->)];
    cbn [fst snd sche]; intros Hni.
  - split; [| exact Hp].
    apply prepare_inl in Hp as (_ & _ & _ & _ & Hi & _). congruence.
  - exfalso. apply prepare_inr in Hp as (_ & _ & _ & Hi & _).
    pose proof (solveMultiLoads_frame (cluster := c) b h b' h' ops Hs)
      as (_ & Hi' & _).
    congruence.
Qed.

(** X17: needInit does not outlive the cycle that sets it. A cycle that
    leaves needInit set has returned before solveMultiLoads on a scheduler
    that had it set already: the request of initHotPeerInfo to build the
    balancer anew because the loads are not stable is overwritten by
    dispatch. So needInit stays clear over every run of cycles, and is
    clear after every run of a scheduler made by
    newMultiDimensionScheduler. *)
Theorem X17_need_init_is_transient
    (cs : list (Cluster RegionInfo CoreStore Filter)) st (minExp : Loads) :
  (forall c,
     needInit (sche (fst (dispatch (cluster := c) st))) = true ->
     needInit (sche st) = true /\
     prepare (cluster := c) st = inl (fst (dispatch (cluster := c) st))) /\
  (needInit (sche st) = false -> needInit (sche (run cs st)) = false) /\
  needInit (sche (run cs (newMultiDimensionScheduler minExp))) = false.
Proof.
  assert (Hrun : forall st0 : State RegionInfo,
            needInit (sche st0) = false ->
            needInit (sche (run cs st0)) = false).
  { induction cs as [| c cs IH]; intros st0 H0; cbn [run]; [exact H0 |].
    apply IH.
    destruct (needInit (sche (fst (dispatch (cluster := c) st0)))) eqn:E;
      [| reflexivity].
    apply dispatch_needInit in E as [E _]. congruence. }
  split; [intros c; apply dispatch_needInit |].
  split; [apply Hrun |]. by apply Hrun.
Qed.

(** X18: every operator that Schedule returns has high priority, the
    operators of a move or a leader transfer as well as those of a
    split. *)
Theorem X18_operators_high_priority c st :
  Forall (fun op => op_priority op = HighPriority)
         (snd (Schedule (cluster := c) st)).
Proof.
  unfold Schedule.
  destruct (dispatch_cases c st)
    as [(st' & Hp & ->) | (b & h & b' & h' & ops & Hp & Hs & ->)];
    cbn [fst snd]; [constructor |].
  pose proof (solveMultiLoads_priority (cluster := c) b h) as Hall.
  by rewrite Hs in Hall.
Qed.

(* A cycle keeps: hasSplit is set only while some region is pending *)
Lemma dispatch_split_pending c st :
  hasSplit (sche st) = false \/ regionPendings (sche st) <> ∅ ->
  hasSplit (sche (fst (dispatch (cluster := c) st))) = false \/
  regionPendings (sche (fst (dispatch (cluster := c) st))) <> ∅.
Proof.
  intros Hinv.
  destruct (hasSplit (sche (fst (dispatch (cluster := c) st)))) eqn:Hh';
    [right | by left].
  destruct (dispatch_cases c st)
    as [(st' & Hp & Hd) | (b & h & b' & h' & ops & Hp & Hs & Hd)];
    rewrite Hd in Hh' |- *; cbn [fst snd sche] in *.
  - apply prepare_inl in Hp
      as (_ & _ & _ & Hhs & _ & [-> | (Hm & _ & Hobs & Hrp)]).
    + destruct Hinv as [Hf | Hne]; [congruence | exact Hne].
    + intros He. apply Hobs. split; [exact Hm |].
      unfold pendingSeen. rewrite <- Hrp, He. apply map_size_empty.
  - apply prepare_inr in Hp as (_ & _ & Hhs & _).
    pose proof (solveMultiLoads_frame (cluster := c) b h b' h' ops Hs)
      as (_ & _ & _ & _ & _ & Hset & _).
    apply solveMultiLoads_spec in Hs as (Hsub & _).
    destruct (Hset Hh') as [Ht | Hd']; [congruence |].
    intros He. apply Hd'. rewrite He.
    symmetry. apply map_empty. intros r.
    destruct (regionPendings h !! r) as [v |] eqn:E; [| reflexivity].
    eapply lookup_weaken in E; [| exact Hsub].
    rewrite He, lookup_empty in E. discriminate.
Qed.

(** X19: the scheduler pauses for a split only while something is pending:
    if hasSplit is set only with a non-empty region-pending index before a
    run of cycles, then so it is after the run; in particular this holds
    after every run of a scheduler made by newMultiDimensionScheduler. *)
Theorem X19_paused_only_with_pending
    (cs : list (Cluster RegionInfo CoreStore Filter)) st (minExp : Loads) :
  (hasSplit (sche st) = false \/ regionPendings (sche st) <> ∅ ->
   hasSplit (sche (run cs st)) = false \/
   regionPendings (sche (run cs st)) <> ∅) /\
  (hasSplit (sche (run cs (newMultiDimensionScheduler minExp))) = false \/
   regionPendings (sche (run cs (newMultiDimensionScheduler minExp))) <> ∅).
Proof.
  assert (Hrun : forall st0 : State RegionInfo,
            hasSplit (sche st0) = false \/ regionPendings (sche st0) <> ∅ ->
            hasSplit (sche (run cs st0)) = false \/
            regionPendings (sche (run cs st0)) <> ∅).
  { induction cs as [| c cs IH]; intros st0 H0; cbn [run]; [exact H0 |].
    apply IH. by apply dispatch_split_pending. }
  split; [apply Hrun |]. apply Hrun. by left.
Qed.

End DispatchProps.

Lemma X15_split_pause_witness :
  let c := Demo.demo Demo.calm in
  hasSplit (sche splitting7) = true /\
  neverIdle [c; c] splitting7 /\
  hasSplit (sche (run [c; c] splitting7)) = true /\
  forall n, opsAt [c; c] splitting7 n = [].
Proof.
  cbv zeta.
  assert (Hh : hasSplit (sche splitting7) = true) by reflexivity.
  assert (Hq : neverIdle [Demo.demo Demo.calm; Demo.demo Demo.calm] splitting7).
  { cbn [neverIdle]. split; [| split; [| exact I]].
    - intros [_ H]. vm_compute in H. discriminate.
    - intros [_ H]. vm_compute in H. discriminate. }
  split; [exact Hh |]. split; [exact Hq |].
  destruct (proj1 (X15_split_pause
                     [Demo.demo Demo.calm; Demo.demo Demo.calm]
                     splitting7 Hh) Hq) as (H1 & _ & _ & H4).
  split; [exact H1 | exact H4].
Defined.

Lemma X16_ratio_in_step_witness :
  let c := Demo.demo Demo.calm in
  GetHotSchedulerMode (Cluster := c) <= 0 /\
  inStep (cluster := c) (sche (fst (dispatch (cluster := c) Demo.st0))).
Proof.
  cbv zeta.
  assert (Hm : GetHotSchedulerMode (Cluster := Demo.demo Demo.calm) <= 0)
    by (cbn; lia).
  split; [exact Hm |].
  exact (X16_ratio_in_step (Demo.demo Demo.calm) Demo.st0 Hm).
Defined.

(* --------------------------------------------------------------------- *)
(* The regions and the stores that a decision may take                   *)
(* --------------------------------------------------------------------- *)

Section SelectionMore.
Context {RegionInfo CoreStore Filter : Type}.
Context {cluster : Cluster RegionInfo CoreStore Filter}.
Implicit Types (h : multiDimensionScheduler) (b : multiBalancer RegionInfo).

Lemma getRegion_Some (r : Z) (rg : RegionInfo) :
  getRegion r = Some rg ->
  GetRegion r = Some rg /\
  IsHealthyAllowPending rg = true /\ IsRegionReplicated rg = true.
Proof.
  unfold getRegion. destruct (GetRegion r) as [rg0 |]; [| discriminate].
  destruct (IsHealthyAllowPending rg0) eqn:H1; cbn [negb]; [| discriminate].
  destruct (IsRegionReplicated rg0) eqn:H2; cbn [negb]; [| discriminate].
  intros [= ->]. by repeat split.
Qed.

(* The peer for which the loop over the peers returns was accepted by
   getRegion *)
Lemma peerLoop_region store maxID maxLoad sorted b h :
  match peerLoop store maxID maxLoad sorted b h with
  | Next _ => True
  | Return (b', h') ops =>
      exists b2 dst p,
        is_Some (getRegion (regionID p)) /\
        scheduledRegions b2 = scheduledRegions b /\
        emit b2 h store dst p (buildOperators b2) = ((b', h'), ops)
  end.
Proof.
  revert b. induction sorted as [| [p rl] rest IH]; intros b; cbn.
  - exact I.
  - destruct (decide (regionID p ∈ scheduledRegions b)) as [Hin | Hnin];
      [apply IH |].
    destruct (Qltb _ (balanceRatio h) || Qltb _ _); [exact I |].
    assert (Hstep : forall b1, scheduledRegions b1 = scheduledRegions b ->
      match peerLoop store maxID maxLoad rest b1 h with
      | Next _ => True
      | Return (b', h') ops =>
          exists b2 dst p0,
            is_Some (getRegion (regionID p0)) /\
            scheduledRegions b2 = scheduledRegions b /\
            emit b2 h store dst p0 (buildOperators b2) = ((b', h'), ops)
      end).
    { intros b1 Hb1. specialize (IH b1).
      destruct (peerLoop store maxID maxLoad rest b1 h)
        as [[b' h'] ops | [b' h']]; [| exact I].
      destruct IH as (b2 & dst & p0 & Hr & Hs & He).
      exists b2, dst, p0. split; [exact Hr |].
      split; [congruence | exact He]. }
    destruct (Qltb _ (1 - balanceRatio h)); [by apply Hstep |].
    destruct (getRegion (regionID p)) as [rg |] eqn:Hg; [| by apply Hstep].
    destruct (pickBestDstStore _ h maxID) as [[dst |] cur2] eqn:Hpick;
      [| by apply Hstep].
    destruct (emit _ h store dst p _) as [[b' h'] ops] eqn:He.
    eexists _, dst, p. split; [rewrite Hg; eauto |].
    split; [| exact He]. reflexivity.
Qed.

Lemma storeLoop_region stores b h :
  match storeLoop stores b h with
  | Next _ => True
  | Return (b', h') ops =>
      exists h1 b2 store dst p,
        is_Some (getRegion (regionID p)) /\
        scheduledRegions b2 = scheduledRegions b /\
        emit b2 h1 store dst p (buildOperators b2) = ((b', h'), ops)
  end.
Proof.
  revert b h. induction stores as [| store rest IH]; intros b h; cbn.
  - exact I.
  - destruct (getMaxLoadInfo store (allowedDimensions b)) as [maxID maxLoad].
    destruct (Qleb maxLoad (1 + balanceRatio h)); [apply IH |].
    set (h1 := if relaxBalanceCondition h then _ else h).
    pose proof (peerLoop_spec store maxID maxLoad
                  (buildSortedPeers store maxID) b h1) as Hp.
    pose proof (peerLoop_region store maxID maxLoad
                  (buildSortedPeers store maxID) b h1) as Hr.
    destruct (peerLoop store maxID maxLoad _ b h1) as [[b' h'] ops | [b' h']].
    + destruct Hr as (b2 & dst & p & Hg & Hs & He).
      by exists h1, b2, store, dst, p.
    + destruct Hp as [-> (_ & _ & Hsc & _)]. specialize (IH b' h1).
      destruct (storeLoop rest b' h1) as [[b'' h''] ops | [b'' h'']];
        [| exact I].
      destruct IH as (h2 & b2 & st & dst & p & Hg & Hs & He).
      exists h2, b2, st, dst, p. split; [exact Hg |].
      split; [congruence | exact He].
Qed.

(** X20: a region that solveMultiLoads adds to the scheduled regions is one
    that getRegion accepted: the cluster knows it, it is healthy (pending
    peers allowed) and it is fully replicated. *)
Theorem X20_schedules_accepted_regions b h (r : Z) :
  r ∈ scheduledRegions (fst (fst (solveMultiLoads b h))) ->
  r ∉ scheduledRegions b ->
  exists rg, GetRegion r = Some rg /\
             IsHealthyAllowPending rg = true /\
             IsRegionReplicated rg = true.
Proof.
  unfold solveMultiLoads.
  destruct (skipSchedule b); [cbn [fst]; contradiction |].
  cbv zeta.
  match goal with
  | |- context [storeLoop ?l ?bb h] =>
      pose proof (storeLoop_spec l bb h) as Hl;
      pose proof (storeLoop_region l bb h) as Hr;
      destruct (storeLoop l bb h) as [[bx hx] opsx | [b3 h3]]
  end.
  - cbn [fst]. clear Hl.
    destruct Hr as (h1 & b2 & store & dst & p & [rg Hg] & Hs & He).
    cbn in Hs.
    apply emit_frame in He as (_ & _ & _ & _ & _ & _ & _ & _ & Hcase).
    destruct Hcase as [(-> & _) | (Hsch & _)]; intros Hin Hnin.
    + rewrite Hs in Hin. contradiction.
    + rewrite Hsch, Hs in Hin. apply elem_of_union in Hin as [Hin | Hin];
        [| contradiction].
      apply elem_of_singleton in Hin as ->.
      exists rg. by apply getRegion_Some.
  - destruct Hl as [_ (_ & _ & Hsc & _)]. cbn in Hsc.
    intros Hin Hnin. exfalso. apply Hnin. rewrite <- Hsc.
    destruct (Qltb _ _); [| exact Hin].
    by destruct (processSplit b3 _).
Qed.

(* Without a selected store filterDstStores returns no store *)
Lemma filterDst_none b h (ty : opType) (large : bool) (l : list storeInfo) :
  fold_left (filterDstStep b h ∅ ty large) l (None, MaxFloat64)
  = (None, MaxFloat64).
Proof.
  induction l as [| x l IH] using rev_ind; [reflexivity |].
  rewrite fold_left_app, IH. cbn [fold_left]. unfold filterDstStep.
  destruct (decide (id x ∈ ∅)) as [Hin | _]; [| reflexivity].
  by apply elem_of_empty in Hin.
Qed.

(* The ids that the loop of getCandidateStoreIDs selects *)
Lemma selected_ids (filters : list Filter) (candidates : list CoreStore)
    (acc : gset Z) (k : Z) :
  k ∈ fold_left (fun selected store =>
                   if filter_Target store filters
                   then {[GetID store]} ∪ selected else selected)
                candidates acc
  <-> k ∈ acc \/
      exists store, store ∈ candidates /\ GetID store = k /\
                    filter_Target store filters = true.
Proof.
  revert acc. induction candidates as [| s l IH]; intros acc; cbn [fold_left].
  - split; [by left |]. intros [H | (s & Hs & _)]; [exact H |].
    by apply elem_of_nil in Hs.
  - rewrite IH. split.
    + intros [H | (s' & Hs' & Hk & Hf)].
      * destruct (filter_Target s filters) eqn:Hf; [| by left].
        apply elem_of_union in H as [H | H]; [| by left].
        apply elem_of_singleton in H as ->.
        right. exists s. split; [left | by split].
      * right. exists s'. split; [by right | by split].
    + intros [H | (s' & Hs' & Hk & Hf)].
      * left. destruct (filter_Target s filters); [| exact H].
        apply elem_of_union. by right.
      * apply elem_of_cons in Hs' as [-> | Hs'].
        -- left. rewrite Hf. apply elem_of_union. left.
           by apply elem_of_singleton.
        -- right. exists s'. by repeat split.
Qed.

(** X21: getCandidateStoreIDs selects the ids of the stores that pass the
    filters of the operation: for a peer move the stores of the cluster
    that pass the state filter for moving a region, the filter that
    excludes the stores of the region, the special-use filter and the
    placement safeguard; for a leader transfer the follower stores of the
    region that pass the state filter for transferring a leader, the
    special-use filter and, when there is one, the leader safeguard. When
    the cluster does not know the source store, it selects nothing and
    pickBestDstStore finds no destination. *)
Theorem X21_candidate_stores b h (ty : opType) (dim : Z) :
  (forall srcStore rg k,
     GetStore (srcStoreID (cur b)) = Some srcStore ->
     region (cur b) = Some rg ->
     (k ∈ getCandidateStoreIDs b ty <->
      exists store, GetID store = k /\
        match ty with
        | movePeer =>
            store ∈ GetStores /\
            filter_Target store
              [StoreStateFilter true false;
               NewExcludedFilter (GetStoreIds rg) (GetStoreIds rg);
               NewSpecialUseFilter;
               NewPlacementSafeguard rg srcStore] = true
        | transferLeader =>
            store ∈ GetFollowerStores rg /\
            filter_Target store
              ([StoreStateFilter false true; NewSpecialUseFilter]
                 ++ match NewPlacementLeaderSafeguard rg srcStore with
                    | Some leaderFilter => [leaderFilter]
                    | None => []
                    end) = true
        end)) /\
  (GetStore (srcStoreID (cur b)) = None ->
   getCandidateStoreIDs b ty = ∅ /\
   fst (pickBestDstStore b h dim) = None /\
   snd (pickBestDstStore b h dim) = cur b).
Proof.
  split.
  - intros srcStore rg k Hsrc Hrg. unfold getCandidateStoreIDs.
    rewrite Hsrc, Hrg. destruct ty; rewrite selected_ids.
    + split.
      * intros [H | (s & Hs & Hk & Hf)]; [by apply elem_of_empty in H |].
        exists s. by repeat split.
      * intros (s & Hk & Hs & Hf). right. exists s. by repeat split.
    + split.
      * intros [H | (s & Hs & Hk & Hf)]; [by apply elem_of_empty in H |].
        exists s. by repeat split.
      * intros (s & Hk & Hs & Hf). right. exists s. by repeat split.
  - intros Hsrc.
    assert (Hc : forall ty', getCandidateStoreIDs b ty' = ∅).
    { intros ty'. unfold getCandidateStoreIDs. by rewrite Hsrc. }
    split; [apply Hc |].
    unfold pickBestDstStore, filterDstStores. cbv zeta.
    rewrite !Hc, !filterDst_none.
    destruct (curPeerIsLeader (cur b) && loadCanTransfered dim);
      by cbn.
Qed.

End SelectionMore.

Lemma X20_schedules_accepted_regions_witness :
  let c := Demo.demo Demo.calm in
  let b := Demo.snapshot Demo.calm in
  7 ∈ scheduledRegions
        (fst (fst (solveMultiLoads (cluster := c) b (sche Demo.st0)))) /\
  (7 ∉ scheduledRegions b) /\
  exists rg, GetRegion (Cluster := c) 7 = Some rg /\
             IsHealthyAllowPending (Cluster := c) rg = true /\
             IsRegionReplicated (Cluster := c) rg = true.
Proof.
  cbv zeta.
  assert (H1 : 7 ∈ scheduledRegions
                 (fst (fst (solveMultiLoads (cluster := Demo.demo Demo.calm)
                              (Demo.snapshot Demo.calm) (sche Demo.st0)))))
    by (vm_compute; reflexivity).
  assert (H2 : 7 ∉ scheduledRegions (Demo.snapshot Demo.calm))
    by (intros H; vm_compute in H; discriminate).
  split; [exact H1 |]. split; [exact H2 |].
  exact (X20_schedules_accepted_regions (cluster := Demo.demo Demo.calm)
           (Demo.snapshot Demo.calm) (sche Demo.st0) 7 H1 H2).
Defined.

(* --------------------------------------------------------------------- *)
(* The dimension that solveMultiLoads sorts the stores by                *)
(* --------------------------------------------------------------------- *)

(* One store: the loop over the allowed dimensions *)
Lemma maxDim_inner (si : storeInfo) (l : list Z) (acc : Z * Q) :
  let r := fold_left
             (fun acc' i =>
                if Qltb (snd acc') (ld (loads si) i)
                then (i, ld (loads si) i) else acc')
             l acc in
  (snd acc <= snd r)%Q /\
  (forall i, i ∈ l -> (ld (loads si) i <= snd r)%Q) /\
  (r = acc \/
   exists i, i ∈ l /\ r = (i, ld (loads si) i) /\
             (snd acc < ld (loads si) i)%Q).
Proof.
  cbv zeta. revert acc. induction l as [| x l IH]; intros acc; cbn [fold_left].
  - split; [lra |]. split; [| by left].
    intros i Hi. by apply elem_of_nil in Hi.
  - destruct (Qltb (snd acc) (ld (loads si) x)) eqn:Hlt.
    + apply Qltb_lt in Hlt.
      destruct (IH (x, ld (loads si) x)) as (I1 & I2 & I3). cbn [snd] in I1.
      split; [lra |]. split.
      * intros i Hi. apply elem_of_cons in Hi as [-> | Hi]; [exact I1 | by apply I2].
      * right. destruct I3 as [-> | (i & Hi & -> & Hlt')].
        -- exists x. split; [left | by split].
        -- exists i. split; [by right |]. split; [reflexivity |].
           cbn [snd] in Hlt'. lra.
    + apply Qltb_ge in Hlt.
      destruct (IH acc) as (I1 & I2 & I3).
      split; [exact I1 |]. split.
      * intros i Hi. apply elem_of_cons in Hi as [-> | Hi]; [lra | by apply I2].
      * destruct I3 as [-> | (i & Hi & -> & Hlt')]; [by left | right].
        exists i. split; [by right | by split].
Qed.

(* All stores *)
Lemma maxDim_outer (allowed : list Z) (stores : list storeInfo) (acc : Z * Q) :
  let r := fold_left
             (fun acc0 si =>
                fold_left
                  (fun acc' i =>
                     if Qltb (snd acc') (ld (loads si) i)
                     then (i, ld (loads si) i) else acc')
                  allowed acc0)
             stores acc in
  (snd acc <= snd r)%Q /\
  (forall si i, si ∈ stores -> i ∈ allowed -> (ld (loads si) i <= snd r)%Q) /\
  (r = acc \/
   exists sj i, sj ∈ stores /\ i ∈ allowed /\ r = (i, ld (loads sj) i) /\
                (snd acc < ld (loads sj) i)%Q).
Proof.
  cbv zeta. revert acc.
  induction stores as [| s stores IH]; intros acc; cbn [fold_left].
  - split; [lra |]. split; [| by left].
    intros si i Hs. by apply elem_of_nil in Hs.
  - destruct (maxDim_inner s allowed acc) as (J1 & J2 & J3). cbv zeta in *.
    set (acc1 := fold_left _ allowed acc) in *.
    destruct (IH acc1) as (I1 & I2 & I3).
    split; [lra |]. split.
    + intros si i Hs Hi. apply elem_of_cons in Hs as [-> | Hs].
      * specialize (J2 i Hi). lra.
      * by apply I2.
    + destruct I3 as [-> | (sj & i & Hs & Hi & -> & Hlt)].
      * destruct J3 as [-> | (i & Hi & -> & Hlt)]; [by left | right].
        exists s, i. split; [left |]. by repeat split.
      * right. exists sj, i. split; [by right |]. split; [exact Hi |].
        split; [reflexivity | lra].
Qed.

(** X22: the dimension by which solveMultiLoads sorts the stores carries
    the highest load that any store has on any allowed dimension: when some
    such load is positive, the dimension is an allowed one and some store
    has on it a positive load that no load of a store on an allowed
    dimension exceeds; when none is positive, the dimension is 0, allowed
    or not. *)
Theorem X22_sort_dimension (stores : list storeInfo) (allowed : list Z) :
  let d := maxDimOf stores allowed in
  (d = 0 /\
   forall si i, si ∈ stores -> i ∈ allowed -> (ld (loads si) i <= 0)%Q) \/
  (d ∈ allowed /\
   exists sj, sj ∈ stores /\ (0 < ld (loads sj) d)%Q /\
     forall si i, si ∈ stores -> i ∈ allowed ->
       (ld (loads si) i <= ld (loads sj) d)%Q).
Proof.
  cbv zeta. unfold maxDimOf.
  destruct (maxDim_outer allowed stores (0, 0%Q)) as (_ & H2 & H3).
  cbv zeta in *.
  destruct H3 as [He | (sj & i & Hs & Hi & He & Hlt)];
    rewrite He in H2 |- *; cbn [fst snd] in *.
  - left. split; [reflexivity | exact H2].
  - right. split; [exact Hi |]. exists sj.
    split; [exact Hs |]. split; [exact Hlt | exact H2].
Qed.
